(** * A-CEEI price search: bundle enumeration, excess demand, tabu neighbours

    A shallow embedding of [fairpyx/algorithms/tabu_search.py] and
    [fairpyx/algorithms/ACEEI.py].

    Conventions of the embedding.
    - Agents and items are Python strings: [string].
    - A bundle is a tuple of items: [list string].
    - A Python [dict] keeps insertion order and has unique keys: it is an
      association list driven by [get] and [set]; [d[k]] on a missing key
      raises [KeyError], which is the [None] of the error monad [option].
    - Python numbers (prices, budgets, valuations, step sizes) are exact
      rationals [Q]; comparisons are [Qle_bool], [Qeq_bool] and [Qlt_bool].
      Rounding of binary floating point is not part of the model.  Excess
      demand is an integer, [Z].
    - [Instance] is an external collaborator: the record below lists the
      queries the two files make on it. *)

From Stdlib Require Import String List ZArith QArith Qabs Bool Lia.
From Stdlib Require Import Permutation Sorted PeanoNat ListDec.
Import ListNotations.

Local Open Scope list_scope.

(** ** The error monad *)

Definition ret {A : Type} (a : A) : option A := Some a.

Definition bind {A B : Type} (m : option A) (k : A -> option B) : option B :=
  match m with
  | Some a => k a
  | None => None
  end.

Notation "x <- m ;; k" := (bind m (fun x => k))
  (at level 61, m at next level, right associativity).

Notation "' pat <- m ;; k" :=
  (bind m (fun x => match x with pat => k end))
  (at level 61, pat pattern, m at next level, right associativity).

(** ** Python dictionaries keyed by strings *)

Definition dict (V : Type) : Type := list (string * V).

Section Dict.
Context {V : Type}.

(** [d[k]] *)
Fixpoint get (d : dict V) (k : string) : option V :=
  match d with
  | [] => None
  | (k', v) :: rest => if String.eqb k' k then Some v else get rest k
  end.

(** [d[k] = v]: an existing key keeps its position, a new key goes last. *)
Fixpoint set (d : dict V) (k : string) (v : V) : dict V :=
  match d with
  | [] => [(k, v)]
  | (k', v') :: rest =>
      if String.eqb k' k then (k', v) :: rest else (k', v') :: set rest k v
  end.

Definition keys (d : dict V) : list string := map fst d.
Definition values (d : dict V) : list V := map snd d.

(** [d.get(k, default)] *)
Definition get_default (d : dict V) (k : string) (default : V) : V :=
  match get d k with
  | Some v => v
  | None => default
  end.

(** [{k: f(k) for k in ks}], where [f] may raise. *)
Fixpoint comprehension (ks : list string) (f : string -> option V)
         (acc : dict V) : option (dict V) :=
  match ks with
  | [] => Some acc
  | k :: rest => v <- f k ;; comprehension rest f (set acc k v)
  end.
End Dict.

(** ** Numbers *)

Definition Qlt_bool (x y : Q) : bool := negb (Qle_bool y x).

(** [max(0, x)] on rationals: Python returns the first maximal argument. *)
Definition max0 (x : Q) : Q := if Qlt_bool 0 x then x else 0.

(** ** Tuples of strings *)

(** [x in bundle] *)
Fixpoint mem (x : string) (l : list string) : bool :=
  match l with
  | [] => false
  | y :: rest => if String.eqb y x then true else mem x rest
  end.

(** [b1 == b2] on tuples of strings *)
Fixpoint bundle_eqb (b1 b2 : list string) : bool :=
  match b1, b2 with
  | [], [] => true
  | x :: r1, y :: r2 => String.eqb x y && bundle_eqb r1 r2
  | _, _ => false
  end.

(** [sorted(bundle)]: ascending, by code points. *)
Fixpoint insert_str (x : string) (l : list string) : list string :=
  match l with
  | [] => [x]
  | y :: rest => if String.leb x y then x :: l else y :: insert_str x rest
  end.

Definition sorted_str (l : list string) : list string :=
  fold_right insert_str [] l.

(** ** itertools *)

Section Itertools.
Context {A : Type}.

(** [itertools.combinations(l, r)], in the order Python yields them. *)
Fixpoint combinations (l : list A) (r : nat) : list (list A) :=
  match r, l with
  | O, _ => [[]]
  | S _, [] => []
  | S r', x :: rest =>
      map (cons x) (combinations rest r') ++ combinations rest r
  end.

(** [itertools.product] of the lists [ls]: the rightmost position advances
    fastest. *)
Fixpoint product (ls : list (list A)) : list (list A) :=
  match ls with
  | [] => [[]]
  | l :: rest => flat_map (fun x => map (cons x) (product rest)) l
  end.

(** [sorted(l, key=key, reverse=True)]: a stable sort, so elements with
    equal keys keep the order they have in [l]. *)
Fixpoint insert_desc (key : A -> Q) (x : A) (l : list A) : list A :=
  match l with
  | [] => [x]
  | y :: rest =>
      if Qle_bool (key y) (key x) then x :: l
      else y :: insert_desc key x rest
  end.

Definition sorted_desc (key : A -> Q) (l : list A) : list A :=
  fold_right (insert_desc key) [] l.
End Itertools.

(** ** The instance (external collaborator) *)

Record Instance : Type := {
  agents : list string;
  items : list string;
  agent_capacity : string -> nat;
  item_capacity : string -> Z;
  agent_bundle_value : string -> list string -> Q;
  agent_maximum_value : string -> Q
}.

(** The class [Instance] is not among the source files: the record above
    lists the queries the spec (section 6) and the two files make on it, and
    every statement below holds for any such record.  The examples need
    concrete instances, built as the doctests build them. *)

(** Modelled from the spec: [agent_bundle_value], missing with the class
    [Instance].  The bundle value for an agent adds up the agent's valuations
    of the items of the bundle, as the notes of the doctests do (ACEEI.py,
    lines 188-189 and 202-203). *)
Definition additive_value (valuations : dict (dict Q)) (agent : string)
           (bundle : list string) : Q :=
  fold_left (fun acc item =>
               acc + get_default (get_default valuations agent []) item 0)
            bundle 0.

(** Modelled from the spec: [agent_maximum_value], missing with the class
    [Instance].  The agent's maximum attainable value is the value of its [c]
    most valued items, [c] being the agent's capacity. *)
Definition top_value (valuations : dict (dict Q)) (c : nat) (agent : string) : Q :=
  fold_left Qplus
            (firstn c (sorted_desc (fun v => v)
                                   (values (get_default valuations agent []))))
            0.

(** Modelled from the spec: the constructor of the missing class [Instance],
    called as in the doctests: [Instance(valuations=..., agent_capacities=c,
    item_capacities=...)]. *)
Definition make_instance (valuations : dict (dict Q)) (c : nat)
           (item_capacities : dict Z) : Instance :=
  {| agents := keys valuations;
     items := keys item_capacities;
     agent_capacity := fun _ => c;
     item_capacity := fun item => get_default item_capacities item 0%Z;
     agent_bundle_value := additive_value valuations;
     agent_maximum_value := top_value valuations c |}.

(** * tabu_search.py *)

(** ** [excess_demand] (lines 205-231) *)

(** The inner loop: one pass over [allocation.items()], counting. *)
Definition count_demand (course : string) (allocation : dict (list string)) : Z :=
  fold_left (fun sum_allocation '(student, bundle) =>
               if mem course bundle then (sum_allocation + 1)%Z
               else sum_allocation)
            allocation 0%Z.

Definition excess_demand (instance : Instance)
           (allocation : dict (list string)) : dict Z :=
  fold_left (fun z course =>
               set z course
                   (count_demand course allocation - item_capacity instance course)%Z)
            (items instance) [].

(** ** [clipped_excess_demand] (lines 234-258) *)

Definition clipped_excess_demand (instance : Instance) (prices : dict Q)
           (allocation : dict (list string)) : option (dict Z) :=
  let z := excess_demand instance allocation in
  comprehension (keys z)
                (fun course =>
                   p <- get prices course ;;
                   zc <- get z course ;;
                   ret (if Qeq_bool p 0 then Z.max 0 zc else zc))
                [].

(** ** Bundle enumeration, fixed-budget mode *)

(** [sum(prices[course] for course in bundle)] *)
Fixpoint sum_prices (prices : dict Q) (bundle : list string) (acc : Q) : option Q :=
  match bundle with
  | [] => Some acc
  | course :: rest => p <- get prices course ;; sum_prices prices rest (acc + p)
  end.

Definition bundle_price (prices : dict Q) (bundle : list string) : option Q :=
  sum_prices prices bundle 0.

(** [for r in range(1, capacity + 1): ... .extend(combinations(instance.items, r))] *)
Definition combinations_courses_list (instance : Instance) (student : string)
  : list (list string) :=
  flat_map (combinations (items instance))
           (seq 1 (agent_capacity instance student)).

(** Lines 312-313 and 348-349: the key is the plain bundle value. *)
Definition combinations_courses_sorted (instance : Instance) (student : string)
  : list (list string) :=
  sorted_desc (agent_bundle_value instance student)
              (combinations_courses_list instance student).

(** The loop of [compute_best_bundles_for_student] (lines 351-361), on the
    local variables [max_valuation] and [best_combinations]. *)
Fixpoint scan_best (prices initial_budgets : dict Q) (instance : Instance)
         (student : string) (combs : list (list string))
         (max_valuation : Q) (best_combinations : list (list string))
  : option (Q * list (list string)) :=
  match combs with
  | [] => Some (max_valuation, best_combinations)
  | combination :: rest =>
      price_combination <- bundle_price prices combination ;;
      budget <- get initial_budgets student ;;
      if Qle_bool price_combination budget then
        let current_valuation := agent_bundle_value instance student combination in
        if Qle_bool max_valuation current_valuation then
          let best_combinations :=
            if Qlt_bool max_valuation current_valuation then []
            else best_combinations in
          scan_best prices initial_budgets instance student rest
                    current_valuation (best_combinations ++ [combination])
        else
          scan_best prices initial_budgets instance student rest
                    max_valuation best_combinations
      else
        scan_best prices initial_budgets instance student rest
                  max_valuation best_combinations
  end.

(** [compute_best_bundles_for_student] (lines 342-366) *)
Definition compute_best_bundles_for_student (student : string)
           (instance : Instance) (prices initial_budgets : dict Q)
  : option (string * list (list string)) :=
  '(_, best_combinations) <-
     scan_best prices initial_budgets instance student
               (combinations_courses_sorted instance student) (-1 # 1) [] ;;
  ret (student,
       match best_combinations with
       | [] => [[]]
       | _ => best_combinations
       end).

(** The same loop inside [student_best_bundles] (lines 315-324): there the
    list lives in the shared dictionary [all_combinations]. *)
Fixpoint scan_best_shared (prices initial_budgets : dict Q) (instance : Instance)
         (student : string) (combs : list (list string))
         (max_valuation : Q) (all_combinations : dict (list (list string)))
  : option (Q * dict (list (list string))) :=
  match combs with
  | [] => Some (max_valuation, all_combinations)
  | combination :: rest =>
      price_combination <- bundle_price prices combination ;;
      budget <- get initial_budgets student ;;
      if Qle_bool price_combination budget then
        let current_valuation := agent_bundle_value instance student combination in
        if Qle_bool max_valuation current_valuation then
          let all_combinations :=
            if Qlt_bool max_valuation current_valuation
            then set all_combinations student []
            else all_combinations in
          l <- get all_combinations student ;;
          scan_best_shared prices initial_budgets instance student rest
                           current_valuation
                           (set all_combinations student (l ++ [combination]))
        else
          scan_best_shared prices initial_budgets instance student rest
                           max_valuation all_combinations
      else
        scan_best_shared prices initial_budgets instance student rest
                         max_valuation all_combinations
  end.

(** The outer loop of [student_best_bundles] (lines 306-327). *)
Fixpoint best_bundles_loop (prices initial_budgets : dict Q) (instance : Instance)
         (students : list string) (all_combinations : dict (list (list string)))
  : option (dict (list (list string))) :=
  match students with
  | [] => Some all_combinations
  | student :: rest =>
      '(_, all_combinations) <-
         scan_best_shared prices initial_budgets instance student
                          (combinations_courses_sorted instance student)
                          (-1 # 1) all_combinations ;;
      l <- get all_combinations student ;;
      best_bundles_loop prices initial_budgets instance rest
                        match l with
                        | [] => set all_combinations student [[]]
                        | _ => all_combinations
                        end
  end.

(** Lines 333-336 (and 424-427): one candidate allocation is filtered into the
    dictionary [valid_allocation]. *)
Fixpoint build_valid_allocation (prices initial_budgets : dict Q)
         (pairs : list (string * list string))
         (valid_allocation : dict (list string)) : option (dict (list string)) :=
  match pairs with
  | [] => Some valid_allocation
  | (student, bundle) :: rest =>
      price <- bundle_price prices bundle ;;
      budget <- get initial_budgets student ;;
      build_valid_allocation prices initial_budgets rest
                             (if Qle_bool price budget
                              then set valid_allocation student bundle
                              else valid_allocation)
  end.

(** Lines 331-338 (and 422-429). *)
Fixpoint filter_valid (prices initial_budgets : dict Q) (instance : Instance)
         (all_combinations_list : list (list (list string)))
         (valid_allocations : list (dict (list string)))
  : option (list (dict (list string))) :=
  match all_combinations_list with
  | [] => Some valid_allocations
  | allocation :: rest =>
      valid_allocation <-
        build_valid_allocation prices initial_budgets
                               (combine (agents instance) allocation) [] ;;
      filter_valid prices initial_budgets instance rest
                   (if Nat.eqb (length valid_allocation) (length (agents instance))
                    then valid_allocations ++ [valid_allocation]
                    else valid_allocations)
  end.

(** Lines 329-340, the same text as lines 420-431. *)
Definition collect_valid_allocations (prices initial_budgets : dict Q)
           (instance : Instance) (all_combinations : dict (list (list string)))
  : option (list (dict (list string))) :=
  filter_valid prices initial_budgets instance
               (product (values all_combinations)) [].

(** [student_best_bundles] (lines 261-340) *)
Definition student_best_bundles (prices : dict Q) (instance : Instance)
           (initial_budgets : dict Q) : option (list (dict (list string))) :=
  let all_combinations :=
    fold_left (fun d student => set d student []) (agents instance) [] in
  all_combinations <-
    best_bundles_loop prices initial_budgets instance (agents instance)
                      all_combinations ;;
  collect_valid_allocations prices initial_budgets instance all_combinations.

(** The thread pool: every future holds the outcome of its task, which reads
    [prices], [instance] and [initial_budgets] and writes nothing shared; the
    futures are joined in submission order (lines 416-418). *)
Fixpoint join_futures (futures : list (option (string * list (list string))))
         (all_combinations : dict (list (list string)))
  : option (dict (list (list string))) :=
  match futures with
  | [] => Some all_combinations
  | future :: rest =>
      '(student, best_combinations) <- future ;;
      join_futures rest (set all_combinations student best_combinations)
  end.

(** [student_best_bundles_with_threads] (lines 368-431) *)
Definition student_best_bundles_with_threads (prices : dict Q)
           (instance : Instance) (initial_budgets : dict Q)
  : option (list (dict (list string))) :=
  let futures :=
    map (fun student =>
           compute_best_bundles_for_student student instance prices initial_budgets)
        (agents instance) in
  all_combinations <- join_futures futures [] ;;
  collect_valid_allocations prices initial_budgets instance all_combinations.

(** ** [find_all_equivalent_prices] (lines 434-555) *)

(** The two lambdas of lines 520-521 and 551-552, as data: both close over
    [agent=student] and [keys=allocation[student]]. *)
Inductive comparison_kind : Type :=
| AtMost   (* sum(p[key] for key in keys) <= initial_budgets[agent] *)
| Above.   (* sum(p[key] for key in keys) >  initial_budgets[agent] *)

Record predicate : Type := {
  pred_agent : string;
  pred_keys : list string;
  pred_kind : comparison_kind
}.

(** Calling a generated lambda on a price vector [p]. *)
Definition eval_predicate (initial_budgets : dict Q) (f : predicate)
           (p : dict Q) : option bool :=
  total <- bundle_price p (pred_keys f) ;;
  budget <- get initial_budgets (pred_agent f) ;;
  ret match pred_kind f with
      | AtMost => Qle_bool total budget
      | Above => Qlt_bool budget total
      end.

(** Lines 519-522. *)
Fixpoint budget_constraints (allocation : dict (list string))
         (students : list string) (equivalent_prices : list predicate)
  : option (list predicate) :=
  match students with
  | [] => Some equivalent_prices
  | student :: rest =>
      keys <- get allocation student ;;
      budget_constraints allocation rest
        (equivalent_prices
           ++ [{| pred_agent := student; pred_keys := keys; pred_kind := AtMost |}])
  end.

(** Lines 535-553: the loop over the combinations of one student. *)
Fixpoint scan_alternatives (instance : Instance) (student : string)
         (alloc_student : list string) (original_utility : Q)
         (combs : list (list string)) (current_alloc : bool)
         (equivalent_prices : list predicate) : list predicate :=
  match combs with
  | [] => equivalent_prices
  | combination :: rest =>
      let current_utility := agent_bundle_value instance student combination in
      let sorted_combination := sorted_str combination in
      let sorted_alloc_student := sorted_str alloc_student in
      if bundle_eqb sorted_combination sorted_alloc_student then
        scan_alternatives instance student alloc_student original_utility
                          rest true equivalent_prices
      else if current_alloc
                && Nat.eqb (length sorted_combination) (length sorted_alloc_student) then
        scan_alternatives instance student alloc_student original_utility
                          rest current_alloc equivalent_prices
      else if Qle_bool original_utility current_utility then
        scan_alternatives instance student alloc_student original_utility
                          rest current_alloc
                          (equivalent_prices
                             ++ [{| pred_agent := student;
                                    pred_keys := alloc_student;
                                    pred_kind := Above |}])
      else
        scan_alternatives instance student alloc_student original_utility
                          rest current_alloc equivalent_prices
  end.

(** Lines 525-553. *)
Fixpoint improvement_constraints (instance : Instance)
         (allocation : dict (list string)) (students : list string)
         (equivalent_prices : list predicate) : option (list predicate) :=
  match students with
  | [] => Some equivalent_prices
  | student :: rest =>
      alloc_student <- get allocation student ;;
      let original_utility := agent_bundle_value instance student alloc_student in
      improvement_constraints instance allocation rest
        (scan_alternatives instance student alloc_student original_utility
                           (combinations_courses_list instance student)
                           false equivalent_prices)
  end.

Definition find_all_equivalent_prices (instance : Instance)
           (initial_budgets : dict Q) (allocation : dict (list string))
  : option (list predicate) :=
  equivalent_prices <- budget_constraints allocation (agents instance) [] ;;
  improvement_constraints instance allocation (agents instance) equivalent_prices.

(** [[f(p) for f in equivalent_prices]], the list the doctests pass to [all]. *)
Fixpoint eval_all (initial_budgets : dict Q) (fs : list predicate) (p : dict Q)
  : option (list bool) :=
  match fs with
  | [] => Some []
  | f :: rest =>
      b <- eval_predicate initial_budgets f p ;;
      bs <- eval_all initial_budgets rest p ;;
      ret (b :: bs)
  end.

(** ** The tabu test *)

(** A history entry is a list of callables from price vectors to booleans. *)
Definition constraint : Type := dict Q -> option bool.

(** [all(f(p) for f in sublist)]: stops at the first false. *)
Fixpoint all_hold (sublist : list constraint) (p : dict Q) : option bool :=
  match sublist with
  | [] => Some true
  | f :: rest => b <- f p ;; if b then all_hold rest p else Some false
  end.

(** [any(all(f(p) for f in sublist) for sublist in history)] *)
Fixpoint is_tabu (history : list (list constraint)) (p : dict Q) : option bool :=
  match history with
  | [] => Some false
  | sublist :: rest =>
      b <- all_hold sublist p ;; if b then Some true else is_tabu rest p
  end.

(** ** [find_gradient_neighbors] (lines 558-609) *)

(** Lines 603-604; [updated_prices] is one dictionary, reused for every [d]. *)
Definition gradient_step (d : Q) (prices : dict Q)
           (excess_demand_vector : dict Z) (updated_prices : dict Q) : dict Q :=
  fold_left (fun updated_prices '(course, price) =>
               set updated_prices course
                   (max0 (price
                          + d * inject_Z (get_default excess_demand_vector course 0%Z))))
            prices updated_prices.

Fixpoint gradient_loop (prices : dict Q) (delta : list Q)
         (excess_demand_vector : dict Z) (history : list (list constraint))
         (updated_prices : dict Q) (new_neighbors : list (dict Q))
  : option (list (dict Q)) :=
  match delta with
  | [] => Some new_neighbors
  | d :: rest =>
      let updated_prices :=
        gradient_step d prices excess_demand_vector updated_prices in
      tabu <- is_tabu history updated_prices ;;
      gradient_loop prices rest excess_demand_vector history updated_prices
                    (if tabu then new_neighbors
                     else new_neighbors ++ [updated_prices])
  end.

Definition find_gradient_neighbors (prices : dict Q) (delta : list Q)
           (excess_demand_vector : dict Z) (history : list (list constraint))
  : option (list (dict Q)) :=
  gradient_loop prices delta excess_demand_vector history [] [].

(** ** [differ_in_one_value] (lines 612-655) *)

Fixpoint differ_scan (original_allocation new_allocation : dict (list string))
         (course : string) (ks : list string)
         (diff_count : nat) (diff_course : option string) : bool :=
  match ks with
  | [] =>
      Nat.eqb diff_count 1
      && match diff_course with
         | Some k =>
             mem course (get_default original_allocation k [])
             && negb (mem course (get_default new_allocation k []))
         | None => false
         end
  | key :: rest =>
      match get original_allocation key, get new_allocation key with
      | Some b_old, Some b_new =>
          if negb (bundle_eqb b_old b_new) then
            if Nat.ltb 1 (S diff_count) then false
            else differ_scan original_allocation new_allocation course rest
                             (S diff_count) (Some key)
          else differ_scan original_allocation new_allocation course rest
                           diff_count diff_course
      | _, _ => differ_scan original_allocation new_allocation course rest
                            diff_count diff_course
      end
  end.

Definition differ_in_one_value (original_allocation new_allocation : dict (list string))
           (course : string) : bool :=
  differ_scan original_allocation new_allocation course
              (keys original_allocation) 0 None.

(** ** [find_individual_price_adjustment_neighbors] (lines 658-745) *)

(** [np.sqrt(0.5)], the binary64 number 0.7071067811865476. *)
Definition sqrt_half : Q := 6369051672525773 # 9007199254740992.

(** Lines 726-738: [for _ in range(n)] on one course of positive demand.
    The sum [price + sqrt_half] is exact here; line 727 rounds it to binary64
    at every step, so the raised prices of the code can differ from these in
    the last place. *)
Fixpoint raise_price (n : nat) (instance : Instance)
         (history : list (list constraint)) (initial_budgets : dict Q)
         (allocation : dict (list string)) (use_threads : bool)
         (course : string) (updated_prices : dict Q)
         (new_neighbors : list (dict Q)) : option (list (dict Q)) :=
  match n with
  | O => Some new_neighbors
  | S n' =>
      price <- get updated_prices course ;;
      let updated_prices := set updated_prices course (price + sqrt_half) in
      tabu <- is_tabu history updated_prices ;;
      if tabu then
        raise_price n' instance history initial_budgets allocation use_threads
                    course updated_prices new_neighbors
      else
        new_allocations <-
          (if use_threads
           then student_best_bundles_with_threads updated_prices instance initial_budgets
           else student_best_bundles updated_prices instance initial_budgets) ;;
        raise_price n' instance history initial_budgets allocation use_threads
                    course updated_prices
                    (new_neighbors
                       ++ map (fun _ => updated_prices)
                              (filter (fun new_allocation =>
                                         differ_in_one_value allocation new_allocation course)
                                      new_allocations))
  end.

(** Lines 722-743: the body of the loop, for one entry of the vector. *)
Definition adjust_course (instance : Instance) (history : list (list constraint))
           (prices : dict Q) (initial_budgets : dict Q)
           (allocation : dict (list string)) (use_threads : bool)
           (course : string) (excess_demand : Z)
           (new_neighbors : list (dict Q)) : option (list (dict Q)) :=
  if Z.eqb excess_demand 0 then Some new_neighbors
  else if Z.ltb 0 excess_demand then
    raise_price 10 instance history initial_budgets allocation use_threads
                course prices new_neighbors
  else
    let updated_prices := set prices course 0 in
    tabu <- is_tabu history updated_prices ;;
    ret (if tabu then new_neighbors else new_neighbors ++ [updated_prices]).

(** Lines 719-743: the cap is tested when an entry is about to be examined. *)
Fixpoint adjustment_loop (instance : Instance) (history : list (list constraint))
         (prices : dict Q) (entries : list (string * Z))
         (initial_budgets : dict Q) (allocation : dict (list string))
         (use_threads : bool) (new_neighbors : list (dict Q))
  : option (list (dict Q)) :=
  match entries with
  | [] => Some new_neighbors
  | (course, excess_demand) :: rest =>
      if Nat.leb 35 (length new_neighbors) then Some new_neighbors
      else
        new_neighbors <-
          adjust_course instance history prices initial_budgets allocation
                        use_threads course excess_demand new_neighbors ;;
        adjustment_loop instance history prices rest initial_budgets allocation
                        use_threads new_neighbors
  end.

Definition find_individual_price_adjustment_neighbors (instance : Instance)
           (history : list (list constraint)) (prices : dict Q)
           (excess_demand_vector : dict Z) (initial_budgets : dict Q)
           (allocation : dict (list string)) (use_threads : bool)
  : option (list (dict Q)) :=
  adjustment_loop instance history prices excess_demand_vector initial_budgets
                  allocation use_threads [].

(** * ACEEI.py *)

(** ** Dictionaries keyed by numbers *)

Definition qdict (V : Type) : Type := list (Q * V).

Section QDict.
Context {V : Type}.

Fixpoint qget (d : qdict V) (k : Q) : option V :=
  match d with
  | [] => None
  | (k', v) :: rest => if Qeq_bool k' k then Some v else qget rest k
  end.

Fixpoint qset (d : qdict V) (k : Q) (v : V) : qdict V :=
  match d with
  | [] => [(k, v)]
  | (k', v') :: rest =>
      if Qeq_bool k' k then (k', v) :: rest else (k', v') :: qset rest k v
  end.
End QDict.

(** [min_price], which starts at [float('inf')]. *)
Inductive price_bound : Type :=
| Infinity
| Finite (q : Q).

(** [price < min_price] *)
Definition below (price : Q) (min_price : price_bound) : bool :=
  match min_price with
  | Infinity => true
  | Finite m => Qlt_bool price m
  end.

(** ** [student_best_bundle_per_budget] (lines 167-262) *)

(** Lines 232-236: the key carries the bonus of a full bundle. *)
Definition window_valuation (instance : Instance) (student : string)
           (combination : list string) : Q :=
  let large_num := agent_maximum_value instance student in
  agent_bundle_value instance student combination
  + (if Nat.eqb (length combination) (agent_capacity instance student)
     then large_num else 0).

(** Line 239. *)
Definition window_combinations_sorted (instance : Instance) (student : string)
  : list (list string) :=
  sorted_desc (window_valuation instance student)
              (combinations_courses_list instance student).

(** Lines 250-260: the walk over the sorted combinations of one student; the
    student's dictionary is [best]. *)
Fixpoint window_walk (prices : dict Q) (min_budget max_budget : Q)
         (combs : list (list string)) (min_price : price_bound)
         (best : qdict (list string)) : option (qdict (list string)) :=
  match combs with
  | [] => Some best
  | combination :: rest =>
      price_combination <- bundle_price prices combination ;;
      if Qle_bool price_combination max_budget then
        if Qle_bool price_combination min_budget then
          Some (qset best min_budget combination)
        else if below price_combination min_price then
          window_walk prices min_budget max_budget rest
                      (Finite price_combination)
                      (qset best price_combination combination)
        else window_walk prices min_budget max_budget rest min_price best
      else window_walk prices min_budget max_budget rest min_price best
  end.

(** Lines 221-260: the loop over the students. *)
Fixpoint window_loop (prices : dict Q) (instance : Instance) (epsilon : Q)
         (initial_budgets : dict Q) (students : list string)
         (best_bundle_per_budget : dict (qdict (list string)))
  : option (dict (qdict (list string))) :=
  match students with
  | [] => Some best_bundle_per_budget
  | student :: rest =>
      budget <- get initial_budgets student ;;
      let min_budget := budget - epsilon in
      let max_budget := budget + epsilon in
      best <-
        window_walk prices min_budget max_budget
                    (window_combinations_sorted instance student) Infinity
                    (get_default best_bundle_per_budget student []) ;;
      window_loop prices instance epsilon initial_budgets rest
                  (set best_bundle_per_budget student best)
  end.

Definition student_best_bundle_per_budget (prices : dict Q) (instance : Instance)
           (epsilon : Q) (initial_budgets : dict Q)
  : option (dict (qdict (list string))) :=
  window_loop prices instance epsilon initial_budgets (agents instance)
              (fold_left (fun d student => set d student []) (agents instance) []).

(** ** The price update of [find_ACEEI_with_EFTB] (lines 146-147) *)

Fixpoint update_prices (ks : list string) (prices : dict Q) (delta : Q)
         (excess_demand_per_course : dict Q) : option (dict Q) :=
  match ks with
  | [] => Some prices
  | key :: rest =>
      p <- get prices key ;;
      z <- get excess_demand_per_course key ;;
      update_prices rest (set prices key (p + delta * z)) delta
                    excess_demand_per_course
  end.

Definition price_update (prices : dict Q) (delta : Q)
           (excess_demand_per_course : dict Q) : option (dict Q) :=
  update_prices (keys prices) prices delta excess_demand_per_course.

(** * tabu_search.py: the driver and the functions around it *)

(** [x < y] on numbers that may be [float('inf')]. *)
Definition bound_lt (x y : price_bound) : bool :=
  match x, y with
  | Finite a, Finite b => Qlt_bool a b
  | Finite _, Infinity => true
  | Infinity, _ => false
  end.

(** The truth value of a number, as [while norma:] takes it. *)
Definition truthy (n : price_bound) : bool :=
  match n with
  | Infinity => true
  | Finite q => negb (Qeq_bool q 0)
  end.

(** [np.allclose(n, 0)], with numpy's default tolerances: |n| <= 1e-8. *)
Definition allclose_zero (n : price_bound) : bool :=
  match n with
  | Infinity => false
  | Finite q => Qle_bool (Qabs q) (1 # 100000000)
  end.

(** The state of the loop of [tabu_search] (lines 102-143). *)
Record tabu_state : Type := {
  ts_prices : dict Q;
  ts_history : list (list constraint);
  ts_allocation : dict (list string);
  ts_excess_demand_vector : dict Z;
  ts_norma : price_bound;
  ts_best_allocation : dict (list string);
  ts_best_prices : dict Q;
  ts_best_norma : price_bound
}.

Section Norm.
(** [np.linalg.norm(np.array(values))], a function of numpy: any function
    from the list of values to a number. *)
Variable norm : list Z -> Q.

(** ** [min_excess_demand_for_allocation] (lines 156-202) *)

Fixpoint min_norm_loop (instance : Instance) (prices : dict Q)
         (max_utilities_allocations : list (dict (list string)))
         (min_norma : price_bound) (min_excess_demand : dict Z)
         (best_alloc : dict (list string))
  : option (dict (list string) * dict Z * price_bound) :=
  match max_utilities_allocations with
  | [] => Some (best_alloc, min_excess_demand, min_norma)
  | alloc :: rest =>
      excess_demand_vector <- clipped_excess_demand instance prices alloc ;;
      let curr_norma := norm (values excess_demand_vector) in
      if below curr_norma min_norma then
        min_norm_loop instance prices rest (Finite curr_norma)
                      excess_demand_vector alloc
      else
        min_norm_loop instance prices rest min_norma min_excess_demand best_alloc
  end.

Definition min_excess_demand_for_allocation (instance : Instance)
           (prices : dict Q)
           (max_utilities_allocations : list (dict (list string)))
  : option (dict (list string) * dict Z * price_bound) :=
  min_norm_loop instance prices max_utilities_allocations Infinity [] [].

(** ** [find_all_neighbors] (lines 748-767) *)

Definition find_all_neighbors (instance : Instance)
           (history : list (list constraint)) (prices : dict Q)
           (delta : list Q) (excess_demand_vector : dict Z)
           (initial_budgets : dict Q) (allocation : dict (list string))
           (use_threads : bool) : option (list (dict Q)) :=
  gradient_neighbors <-
    find_gradient_neighbors prices delta excess_demand_vector history ;;
  individual_price_adjustment_neighbors <-
    find_individual_price_adjustment_neighbors
      instance history prices excess_demand_vector initial_budgets allocation
      use_threads ;;
  ret (gradient_neighbors ++ individual_price_adjustment_neighbors).

(** ** [find_min_error_prices] (lines 770-817) *)

(** The tuples [(allocation, excess_demand, norm, price)] of line 801. *)
Definition error_tuple : Type :=
  (dict (list string) * dict Z * price_bound * dict Q)%type.

Definition tuple_norm (x : error_tuple) : price_bound := snd (fst x).

(** Lines 804-813. *)
Fixpoint evaluate_neighbors (instance : Instance) (neighbors : list (dict Q))
         (initial_budgets : dict Q) (use_threads : bool)
         (errors : list error_tuple) : option (list error_tuple) :=
  match neighbors with
  | [] => Some errors
  | neighbor :: rest =>
      allocations <-
        (if use_threads
         then student_best_bundles_with_threads neighbor instance initial_budgets
         else student_best_bundles neighbor instance initial_budgets) ;;
      '(allocation, excess_demand_vector, norma) <-
        min_excess_demand_for_allocation instance neighbor allocations ;;
      evaluate_neighbors instance rest initial_budgets use_threads
                         (errors
                            ++ [(allocation, excess_demand_vector, norma, neighbor)])
  end.

(** [min(errors, key=lambda x: x[2])]: the first minimal element; an empty
    list raises [ValueError]. *)
Definition min_by_norm (errors : list error_tuple) : option error_tuple :=
  match errors with
  | [] => None
  | first :: rest =>
      Some (fold_left (fun best x =>
                         if bound_lt (tuple_norm x) (tuple_norm best)
                         then x else best)
                      rest first)
  end.

Definition find_min_error_prices (instance : Instance)
           (neighbors : list (dict Q)) (initial_budgets : dict Q)
           (use_threads : bool) : option error_tuple :=
  errors <- evaluate_neighbors instance neighbors initial_budgets use_threads [] ;;
  min_by_norm errors.

(** ** [tabu_search] (lines 28-152) *)

(** One evaluation of the loop condition and, if it holds, of the body of the
    loop (lines 116-143).  The boolean tells whether the loop goes on. *)
Definition tabu_body (instance : Instance) (initial_budgets : dict Q)
           (delta : list Q) (use_threads : bool) (st : tabu_state)
  : option (bool * tabu_state) :=
  if negb (truthy (ts_norma st)) then Some (false, st)
  else if allclose_zero (ts_norma st) then Some (false, st)
  else
    equivalent_prices <-
      find_all_equivalent_prices instance initial_budgets (ts_allocation st) ;;
    let history :=
      ts_history st ++ [map (eval_predicate initial_budgets) equivalent_prices] in
    neighbors <-
      find_all_neighbors instance history (ts_prices st) delta
                         (ts_excess_demand_vector st) initial_budgets
                         (ts_allocation st) use_threads ;;
    if Nat.eqb (length neighbors) 0 then
      Some (false,
            {| ts_prices := ts_prices st;
               ts_history := history;
               ts_allocation := ts_allocation st;
               ts_excess_demand_vector := ts_excess_demand_vector st;
               ts_norma := ts_norma st;
               ts_best_allocation := ts_best_allocation st;
               ts_best_prices := ts_best_prices st;
               ts_best_norma := ts_best_norma st |})
    else
      '(allocation, excess_demand_vector, norma, prices) <-
        find_min_error_prices instance neighbors initial_budgets use_threads ;;
      let improved := bound_lt norma (ts_best_norma st) in
      Some (true,
            {| ts_prices := prices;
               ts_history := history;
               ts_allocation := allocation;
               ts_excess_demand_vector := excess_demand_vector;
               ts_norma := norma;
               ts_best_allocation :=
                 if improved then allocation else ts_best_allocation st;
               ts_best_prices := if improved then prices else ts_best_prices st;
               ts_best_norma := if improved then norma else ts_best_norma st |}).

(** The loop, run for at most [fuel] evaluations of its condition: [None] is
    an exception, [Some None] a loop still running when the fuel is spent. *)
Fixpoint tabu_loop (fuel : nat) (instance : Instance) (initial_budgets : dict Q)
         (delta : list Q) (use_threads : bool) (st : tabu_state)
  : option (option tabu_state) :=
  match fuel with
  | O => Some None
  | S fuel' =>
      '(continue, st') <-
        tabu_body instance initial_budgets delta use_threads st ;;
      if continue
      then tabu_loop fuel' instance initial_budgets delta use_threads st'
      else Some (Some st')
  end.

(** Lines 103-114, from the prices drawn at line 102. *)
Definition tabu_start (instance : Instance) (initial_budgets : dict Q)
           (use_threads : bool) (prices : dict Q) : option tabu_state :=
  max_utilities_allocations <-
    (if use_threads
     then student_best_bundles_with_threads prices instance initial_budgets
     else student_best_bundles prices instance initial_budgets) ;;
  '(allocation, excess_demand_vector, norma) <-
    min_excess_demand_for_allocation instance prices max_utilities_allocations ;;
  ret {| ts_prices := prices;
         ts_history := [];
         ts_allocation := allocation;
         ts_excess_demand_vector := excess_demand_vector;
         ts_norma := norma;
         ts_best_allocation := allocation;
         ts_best_prices := prices;
         ts_best_norma := norma |}.

(** [tabu_search], from the prices drawn at line 102 to the allocation it
    returns; the sink [alloc.give] of lines 147-150 is outside the files. *)
Definition tabu_search (fuel : nat) (instance : Instance)
           (initial_budgets : dict Q) (delta : list Q) (use_threads : bool)
           (prices : dict Q) : option (option (dict (list string))) :=
  st <- tabu_start instance initial_budgets use_threads prices ;;
  final <- tabu_loop fuel instance initial_budgets delta use_threads st ;;
  ret (option_map ts_best_allocation final).
End Norm.

(** * Instances used in the examples *)

Local Open Scope string_scope.

(** The instance of the [excess_demand] doctest. *)
Definition ami_tami : Instance :=
  make_instance [("ami", [("x", 3); ("y", 4); ("z", 2)]);
                 ("tami", [("x", 4); ("y", 3); ("z", 2)])]
                2
                [("x", 2%Z); ("y", 1%Z); ("z", 3%Z)].

(** The instance of the first [student_best_bundles] doctest. *)
Definition alice_bob_eve : Instance :=
  make_instance [("Alice", [("x", 3); ("y", 4); ("z", 2)]);
                 ("Bob", [("x", 4); ("y", 3); ("z", 2)]);
                 ("Eve", [("x", 2); ("y", 4); ("z", 3)])]
                2
                [("x", 2%Z); ("y", 1%Z); ("z", 3%Z)].

(** The instance of the first [student_best_bundle_per_budget] doctest. *)
Definition alice_bob : Instance :=
  make_instance [("Alice", [("x", 5); ("y", 5); ("z", 1)]);
                 ("Bob", [("x", 4); ("y", 6); ("z", 4)])]
                2
                [("x", 1%Z); ("y", 2%Z); ("z", 2%Z)].

(** The instance of the third [student_best_bundles] doctest. *)
Definition alice_bob_eve_four : Instance :=
  make_instance [("Alice", [("x", 3); ("y", 3); ("z", 3); ("w", 3)]);
                 ("Bob", [("x", 3); ("y", 3); ("z", 3); ("w", 3)]);
                 ("Eve", [("x", 4); ("y", 4); ("z", 4); ("w", 4)])]
                2
                [("x", 1%Z); ("y", 2%Z); ("z", 2%Z); ("w", 1%Z)].

(** The instance of the [clipped_excess_demand] doctest. *)
Definition ami_tami_wide : Instance :=
  make_instance [("ami", [("x", 3); ("y", 4); ("z", 2)]);
                 ("tami", [("x", 4); ("y", 3); ("z", 2)])]
                2
                [("x", 3%Z); ("y", 1%Z); ("z", 3%Z)].

(** The instance of the third [student_best_bundle_per_budget] doctest. *)
Definition alice_alone : Instance :=
  make_instance [("Alice", [("x", 1); ("y", 1); ("z", 3)])] 2
                [("x", 1%Z); ("y", 1%Z); ("z", 2%Z)].

(** The instance of the [find_individual_price_adjustment_neighbors]
    doctests. *)
Definition ami_tami_tzumi : Instance :=
  make_instance [("ami", [("x", 3); ("y", 4); ("z", 2)]);
                 ("tami", [("x", 4); ("y", 3); ("z", 2)]);
                 ("tzumi", [("x", 2); ("y", 4); ("z", 3)])]
                2
                [("x", 2%Z); ("y", 1%Z); ("z", 3%Z)].

(** The lambdas of the doctest histories: [lambda p: p[k1] + ... <= b] and
    [lambda p: p[k1] + ... >= b]. *)
Definition total_at_most (ks : list string) (b : Q) : constraint :=
  fun p => total <- bundle_price p ks ;; ret (Qle_bool total b).

Definition total_at_least (ks : list string) (b : Q) : constraint :=
  fun p => total <- bundle_price p ks ;; ret (Qle_bool b total).

(** One student and one course. *)
Definition beni_alone : Instance :=
  make_instance [("beni", [("x", 3)])] 1 [("x", 1%Z)].

(** One student, one seat to fill, the better course out of reach. *)
Definition one_student : Instance :=
  make_instance [("A", [("x", 5); ("y", 3)])] 1 [("x", 1%Z); ("y", 1%Z)].

(** One student and three courses, two seats to fill. *)
Definition three_courses : Instance :=
  make_instance [("A", [("x", 5); ("y", 3); ("z", 1)])] 2
                [("x", 1%Z); ("y", 1%Z); ("z", 1%Z)].

(** Two students who both want all four single-seat courses. *)
Definition four_courses : Instance :=
  make_instance [("a", [("c1", 1); ("c2", 1); ("c3", 1); ("c4", 1)]);
                 ("b", [("c1", 1); ("c2", 1); ("c3", 1); ("c4", 1)])]
                4
                [("c1", 1%Z); ("c2", 1%Z); ("c3", 1%Z); ("c4", 1%Z)].

(** A state of the tabu search on [four_courses]: unit prices, where both
    students afford and take the four courses, each over-demanded by one. *)
Definition four_prices : dict Q := [("c1", 1); ("c2", 1); ("c3", 1); ("c4", 1)].

Definition four_budgets : dict Q := [("a", 100); ("b", 4)].

Definition four_allocation : dict (list string) :=
  [("a", ["c1"; "c2"; "c3"; "c4"]); ("b", ["c1"; "c2"; "c3"; "c4"])].

Definition four_demand : dict Z :=
  [("c1", 1%Z); ("c2", 1%Z); ("c3", 1%Z); ("c4", 1%Z)].

(** The history after step 3 of the driver (lines 127-128). *)
Definition four_history : list (list constraint) :=
  match find_all_equivalent_prices four_courses four_budgets four_allocation with
  | Some equivalent_prices => [map (eval_predicate four_budgets) equivalent_prices]
  | None => []
  end.

(** A stand-in for the norm in the examples: the square of the Euclidean
    norm. *)
Definition sum_of_squares (l : list Z) : Q :=
  inject_Z (fold_left (fun acc z => (acc + z * z)%Z) l 0%Z).

(** The state in which the loop of [tabu_search] starts on [ami_tami_tzumi]
    from the prices 1, 2, 1 and the budgets 5, 4, 3, under
    [sum_of_squares]. *)
Definition tzumi_start : tabu_state :=
  {| ts_prices := [("x", 1); ("y", 2); ("z", 1)];
     ts_history := [];
     ts_allocation :=
       [("ami", ["x"; "y"]); ("tami", ["x"; "y"]); ("tzumi", ["y"; "z"])];
     ts_excess_demand_vector := [("x", 0%Z); ("y", 2%Z); ("z", (-2)%Z)];
     ts_norma := Finite 8;
     ts_best_allocation :=
       [("ami", ["x"; "y"]); ("tami", ["x"; "y"]); ("tzumi", ["y"; "z"])];
     ts_best_prices := [("x", 1); ("y", 2); ("z", 1)];
     ts_best_norma := Finite 8 |}.

Local Close Scope string_scope.

(** * Vocabulary of the statements *)

(** The entry of an allocation claims [item]. *)
Definition demands (item : string) (entry : string * list string) : bool :=
  mem item (snd entry).

(** A list ranked in descending order of [key]. *)
Definition descending {A : Type} (key : A -> Q) (l : list A) : Prop :=
  StronglySorted (fun a b => key b <= key a) l.

(** The ranking key with the bonus of a full bundle: the bundle value, plus
    the agent's maximum value exactly when the bundle fills the capacity. *)
Definition bonus_key (instance : Instance) (student : string)
           (combination : list string) : Q :=
  agent_bundle_value instance student combination
  + (if Nat.eqb (length combination) (agent_capacity instance student)
     then agent_maximum_value instance student else 0).

(** The candidate lists of the students, one task after the other. *)
Fixpoint best_combinations_of (prices initial_budgets : dict Q)
         (instance : Instance) (students : list string)
  : option (dict (list (list string))) :=
  match students with
  | [] => Some []
  | student :: rest =>
      entry <- compute_best_bundles_for_student student instance prices
                                                initial_budgets ;;
      entries <- best_combinations_of prices initial_budgets instance rest ;;
      ret (entry :: entries)
  end.

(** An allocation is valid: every agent of the instance has a bundle, whose
    total price is at most the agent's budget. *)
Definition valid (prices initial_budgets : dict Q) (instance : Instance)
           (allocation : dict (list string)) : Prop :=
  forall student,
    In student (agents instance) ->
    exists bundle price budget,
      get allocation student = Some bundle
      /\ bundle_price prices bundle = Some price
      /\ get initial_budgets student = Some budget
      /\ price <= budget.

(** Every item has a price and every agent a budget. *)
Definition covered (prices initial_budgets : dict Q) (instance : Instance) : Prop :=
  (forall item, In item (items instance) -> get prices item <> None)
  /\ (forall student, In student (agents instance) ->
                      get initial_budgets student <> None).

(** Every item of the bundle has a price. *)
Definition priced (prices : dict Q) (bundle : list string) : Prop :=
  bundle_price prices bundle <> None.

Definition all_priced (prices : dict Q) (d : dict (list (list string))) : Prop :=
  forall s l b, In (s, l) d -> In b l -> priced prices b.

(** The candidate list of one student, as [compute_best_bundles_for_student]
    returns it. *)
Definition best_of (prices initial_budgets : dict Q) (instance : Instance)
           (student : string) : option (list (list string)) :=
  entry <- compute_best_bundles_for_student student instance prices
                                            initial_budgets ;;
  ret (snd entry).

(** The budget-to-bundle map of one student, walked from an empty map. *)
Definition window_of (prices : dict Q) (instance : Instance) (epsilon : Q)
           (initial_budgets : dict Q) (student : string)
  : option (qdict (list string)) :=
  budget <- get initial_budgets student ;;
  window_walk prices (budget - epsilon) (budget + epsilon)
              (window_combinations_sorted instance student) Infinity [].

(** The window-mode result holds the empty bundle for the student. *)
Definition holds_empty_bundle (result : dict (qdict (list string)))
           (student : string) : Prop :=
  exists budget, In (budget, []) (get_default result student []).

(** The state of the window walk: every recorded budget is above the lower
    end of the window, and no price still below [min_price] reaches it. *)
Definition walk_invariant (min_budget : Q) (min_price : price_bound)
           (best : qdict (list string)) : Prop :=
  forall k c, In (k, c) best ->
              min_budget < k /\ forall p, below p min_price = true -> p < k.

(** A price vector without a negative price. *)
Definition non_negative (prices : dict Q) : Prop :=
  forall item price, In (item, price) prices -> 0 <= price.

(** [student in initial_budgets] *)
Definition has_budget (initial_budgets : dict Q) (student : string) : bool :=
  match get initial_budgets student with
  | Some _ => true
  | None => false
  end.

(** No candidate list is empty. *)
Definition all_inhabited (d : dict (list (list string))) : Prop :=
  forall s l, In (s, l) d -> l <> [].

(** The agent [key] has a bundle in both allocations, and the two differ. *)
Definition changed (original_allocation new_allocation : dict (list string))
           (key : string) : bool :=
  match get original_allocation key, get new_allocation key with
  | Some b_old, Some b_new => negb (bundle_eqb b_old b_new)
  | _, _ => false
  end.

(** The test of lines 317-318 and 354-355: the combination is priced within
    the student's budget. *)
Definition affordable (prices initial_budgets : dict Q) (student : string)
           (combination : list string) : bool :=
  match bundle_price prices combination, get initial_budgets student with
  | Some price, Some budget => Qle_bool price budget
  | _, _ => false
  end.

(** The affordable combinations of [combs] whose value is [m]. *)
Definition best_at (prices initial_budgets : dict Q) (instance : Instance)
           (student : string) (m : Q) (combs : list (list string))
  : list (list string) :=
  filter (fun c => affordable prices initial_budgets student c
                   && Qeq_bool (agent_bundle_value instance student c) m)
         combs.

(** The gradient step of size [d] from [prices], clamped at zero. *)
Definition gradient_neighbor (d : Q) (prices : dict Q)
           (excess_demand_vector : dict Z) : dict Q :=
  map (fun '(course, price) =>
         (course,
          max0 (price + d * inject_Z (get_default excess_demand_vector course 0%Z))))
      prices.

(** The tabu test answers [False]. *)
Definition not_tabu (history : list (list constraint)) (p : dict Q) : bool :=
  match is_tabu history p with
  | Some false => true
  | _ => false
  end.

(** A price after [k] increments of [sqrt_half]. *)
Fixpoint add_steps (k : nat) (price : Q) : Q :=
  match k with
  | O => price
  | S k' => add_steps k' (price + sqrt_half)
  end.

(** [n] is an individual adjustment of [prices] on [course]: the price of the
    course is set to zero when the course is in deficit; when it is in excess
    it is raised by one to [steps] increments, to a vector that is not tabu
    and at which one of the best allocations differs from [allocation] in one
    value on that course. *)
Definition individual_adjustment (instance : Instance)
           (history : list (list constraint)) (prices initial_budgets : dict Q)
           (allocation : dict (list string)) (use_threads : bool) (steps : nat)
           (course : string) (excess_demand : Z) (n : dict Q) : Prop :=
  is_tabu history n = Some false
  /\ (((excess_demand < 0)%Z /\ n = set prices course 0)
      \/ ((0 < excess_demand)%Z
          /\ (exists k q,
                 (1 <= k <= steps)%nat
                 /\ get prices course = Some q
                 /\ n = set prices course (add_steps k q))
          /\ exists new_allocations new_allocation,
              (if use_threads
               then student_best_bundles_with_threads n instance initial_budgets
               else student_best_bundles n instance initial_budgets)
              = Some new_allocations
              /\ In new_allocation new_allocations
              /\ differ_in_one_value allocation new_allocation course = true)).

(** [t] is the tuple that [find_min_error_prices] builds for the neighbour
    [p]: the best allocation at [p], its clipped excess demand and its norm,
    and [p] itself. *)
Definition evaluated (norm : list Z -> Q) (instance : Instance)
           (initial_budgets : dict Q) (use_threads : bool) (p : dict Q)
           (t : error_tuple) : Prop :=
  snd t = p
  /\ exists allocations,
      (if use_threads
       then student_best_bundles_with_threads p instance initial_budgets
       else student_best_bundles p instance initial_budgets) = Some allocations
      /\ min_excess_demand_for_allocation norm instance p allocations
         = Some (fst t).

(** The allocation [a], the vector [e] and the number [n] fit the prices [p]:
    either nothing was allocated and [n] is infinite, or [a] is within every
    budget at [p], [e] is its clipped excess demand and [n] the norm of [e]. *)
Definition measured (norm : list Z -> Q) (instance : Instance)
           (initial_budgets : dict Q) (p : dict Q) (a : dict (list string))
           (e : dict Z) (n : price_bound) : Prop :=
  (a = [] /\ e = [] /\ n = Infinity)
  \/ (valid p initial_budgets instance a
      /\ clipped_excess_demand instance p a = Some e
      /\ n = Finite (norm (values e))).

(** What the loop of [tabu_search] keeps true of its variables. *)
Definition tabu_invariant (norm : list Z -> Q) (instance : Instance)
           (initial_budgets : dict Q) (st : tabu_state) : Prop :=
  non_negative (ts_prices st)
  /\ non_negative (ts_best_prices st)
  /\ measured norm instance initial_budgets (ts_prices st) (ts_allocation st)
              (ts_excess_demand_vector st) (ts_norma st)
  /\ (exists e, measured norm instance initial_budgets (ts_best_prices st)
                         (ts_best_allocation st) e (ts_best_norma st))
  /\ bound_lt (ts_norma st) (ts_best_norma st) = false.

(** The entry [new] is the entry [old] after the price update of
    [find_ACEEI_with_EFTB]: the same item, its price moved by [delta] times
    the item's excess demand. *)
Definition updated_entry (delta : Q) (excess_demand_per_course : dict Q)
           (old new : string * Q) : Prop :=
  fst new = fst old
  /\ exists z, get excess_demand_per_course (fst old) = Some z
               /\ snd new = snd old + delta * z.

(** [f] is the predicate of the first family for [student]: the price of the
    student's bundle is at most the student's budget. *)
Definition budget_predicate (allocation : dict (list string))
           (student : string) (f : predicate) : Prop :=
  exists keys,
    get allocation student = Some keys
    /\ f = {| pred_agent := student; pred_keys := keys; pred_kind := AtMost |}.

(** [n] changes [prices] on [course] only and is not tabu: the price of
    the course is set to zero when the course is in deficit; when it is in
    excess the price is replaced by a price that is not below it, and at [n]
    one of the best allocations differs from [allocation] in one value on
    that course. *)
Definition single_item_adjustment (instance : Instance)
           (history : list (list constraint)) (prices initial_budgets : dict Q)
           (allocation : dict (list string)) (use_threads : bool)
           (course : string) (excess_demand : Z) (n : dict Q) : Prop :=
  is_tabu history n = Some false
  /\ (((excess_demand < 0)%Z /\ n = set prices course 0)
      \/ ((0 < excess_demand)%Z
          /\ (exists q q',
                 get prices course = Some q
                 /\ q <= q'
                 /\ n = set prices course q')
          /\ exists new_allocations new_allocation,
              (if use_threads
               then student_best_bundles_with_threads n instance initial_budgets
               else student_best_bundles n instance initial_budgets)
              = Some new_allocations
              /\ In new_allocation new_allocations
              /\ differ_in_one_value allocation new_allocation course = true)).

(** * Facts about the embedding *)

Local Open Scope string_scope.
Local Open Scope list_scope.

(** ** The doctests of the two files *)

Example doctest_excess_demand :
  excess_demand ami_tami [("ami", ["x"; "y"]); ("tami", ["x"; "y"])]
  = [("x", 0%Z); ("y", 1%Z); ("z", (-3)%Z)].
Proof. reflexivity. Qed.

Example doctest_clipped_excess_demand :
  clipped_excess_demand ami_tami_wide [("x", 0); ("y", 2); ("z", 0)]
                        [("ami", ["x"; "y"]); ("tami", ["x"; "y"])]
  = Some [("x", 0%Z); ("y", 1%Z); ("z", 0%Z)].
Proof. reflexivity. Qed.

Example doctest_student_best_bundles :
  student_best_bundles [("x", 1); ("y", 2); ("z", 1)] alice_bob_eve
                       [("Alice", 5); ("Bob", 4); ("Eve", 3)]
  = Some [[("Alice", ["x"; "y"]); ("Bob", ["x"; "y"]); ("Eve", ["y"; "z"])]].
Proof. vm_compute. reflexivity. Qed.

Example doctest_student_best_bundles_ties :
  student_best_bundles
    [("x", 2.6124658024539347); ("y", 0); ("z", 1.1604071365185367);
     ("w", 5.930224022321449)]
    alice_bob_eve_four [("Alice", 4); ("Bob", 5); ("Eve", 2)]
  = Some
      [[("Alice", ["x"; "y"]); ("Bob", ["x"; "y"]); ("Eve", ["y"; "z"])];
       [("Alice", ["x"; "y"]); ("Bob", ["x"; "z"]); ("Eve", ["y"; "z"])];
       [("Alice", ["x"; "y"]); ("Bob", ["y"; "z"]); ("Eve", ["y"; "z"])];
       [("Alice", ["x"; "z"]); ("Bob", ["x"; "y"]); ("Eve", ["y"; "z"])];
       [("Alice", ["x"; "z"]); ("Bob", ["x"; "z"]); ("Eve", ["y"; "z"])];
       [("Alice", ["x"; "z"]); ("Bob", ["y"; "z"]); ("Eve", ["y"; "z"])];
       [("Alice", ["y"; "z"]); ("Bob", ["x"; "y"]); ("Eve", ["y"; "z"])];
       [("Alice", ["y"; "z"]); ("Bob", ["x"; "z"]); ("Eve", ["y"; "z"])];
       [("Alice", ["y"; "z"]); ("Bob", ["y"; "z"]); ("Eve", ["y"; "z"])]].
Proof. vm_compute. reflexivity. Qed.

Example doctest_student_best_bundles_with_threads :
  student_best_bundles_with_threads [("x", 1); ("y", 2); ("z", 1)] alice_bob_eve
                                    [("Alice", 5); ("Bob", 4); ("Eve", 3)]
  = Some [[("Alice", ["x"; "y"]); ("Bob", ["x"; "y"]); ("Eve", ["y"; "z"])]].
Proof. vm_compute. reflexivity. Qed.

Example doctest_find_all_equivalent_prices :
  (equivalent_prices <-
     find_all_equivalent_prices
       alice_bob_eve [("Alice", 5); ("Bob", 4); ("Eve", 3)]
       [("Alice", ["x"; "y"]); ("Bob", ["x"; "y"]); ("Eve", ["y"; "z"])] ;;
   here <- eval_all [("Alice", 5); ("Bob", 4); ("Eve", 3)] equivalent_prices
                    [("x", 1); ("y", 2); ("z", 1)] ;;
   there <- eval_all [("Alice", 5); ("Bob", 4); ("Eve", 3)] equivalent_prices
                     [("x", 5); ("y", 5); ("z", 5)] ;;
   ret (forallb (fun b => b) here, forallb (fun b => b) there))
  = Some (true, false).
Proof. vm_compute. reflexivity. Qed.

Example doctest_find_gradient_neighbors :
  find_gradient_neighbors [("x", 1); ("y", 2); ("z", 1)] [1]
                          [("x", 0%Z); ("y", 2%Z); ("z", (-2)%Z)] []
  = Some [[("x", 1); ("y", 4); ("z", 0)]]
  /\ find_gradient_neighbors
       [("x", 1); ("y", 4); ("z", 0)] [1]
       [("x", 1%Z); ("y", 0%Z); ("z", 0%Z)]
       [[total_at_most ["x"; "y"] 6; total_at_most ["x"; "y"] 8;
         total_at_most ["y"; "z"] 5]]
     = Some []
  /\ find_gradient_neighbors [("x", 1); ("y", 4); ("z", 0)] [1 # 2; 1]
                             [("x", 1%Z); ("y", 0%Z); ("z", 2%Z)] []
     = Some [[("x", 3 # 2); ("y", 8 # 2); ("z", 2 # 2)];
             [("x", 2); ("y", 4); ("z", 2)]].
Proof. repeat split. Qed.

Example doctest_differ_in_one_value :
  differ_in_one_value
    [("ami", ["x"; "y"]); ("tami", ["x"; "z"]); ("tzumi", ["x"; "z"])]
    [("ami", ["x"; "y"]); ("tami", ["x"; "z"]); ("tzumi", ["x"; "t"])] "z"
  = true
  /\ differ_in_one_value
       [("ami", ["x"; "y"]); ("tami", ["x"; "z"]); ("tzumi", ["x"; "z"])]
       [("ami", ["x"; "y"]); ("tami", ["h"; "z"]); ("tzumi", ["x"; "t"])] "x"
     = false
  /\ differ_in_one_value
       [("ami", ["x"; "y"]); ("tami", ["x"; "z"]); ("tzumi", ["x"; "z"])]
       [("ami", ["x"; "y"]); ("tami", ["x"; "z"]); ("tzumi", ["x"; "z"])] "z"
     = false
  /\ differ_in_one_value
       [("ami", ["x"; "y"]); ("tami", ["x"; "z"]); ("tzumi", ["x"; "z"])]
       [("ami", ["y"; "z"]); ("tami", ["x"; "z"]); ("tzumi", ["x"; "z"])] "x"
     = true.
Proof. repeat split. Qed.

(** The sums below are exact; the doctests of lines 682 and 697 print their
    binary64 roundings (2.7071067811865475, 1.7071067811865475 and
    2.414213562373095). *)
Example doctest_find_individual_price_adjustment_neighbors :
  find_individual_price_adjustment_neighbors
    ami_tami_tzumi
    [[total_at_most ["x"; "y"] 5; total_at_most ["x"; "y"] 4;
      total_at_most ["y"; "z"] 3]]
    [("x", 1); ("y", 2); ("z", 1)]
    [("x", 0%Z); ("y", 2%Z); ("z", (-2)%Z)]
    [("ami", 5); ("tami", 4); ("tzumi", 3)]
    [("ami", ["x"; "y"]); ("tami", ["x"; "y"]); ("tzumi", ["y"; "z"])] false
  = Some [[("x", 1); ("y", 2 + sqrt_half); ("z", 1)]]
  /\ find_individual_price_adjustment_neighbors
       ami_tami_tzumi
       [[total_at_most ["x"; "y"] 5; total_at_most ["x"; "y"] 4;
         total_at_most ["y"; "z"] 3; total_at_most ["x"; "z"] 4;
         total_at_most ["x"; "z"] 3; total_at_least ["y"; "z"] 3;
         total_at_least ["x"; "y"] 4]]
       [("x", 1); ("y", 4); ("z", 0)]
       [("x", 1%Z); ("y", 0%Z); ("z", 0%Z)]
       [("ami", 5); ("tami", 4); ("tzumi", 3)]
       [("ami", ["x"; "y"]); ("tami", ["x"; "z"]); ("tzumi", ["x"; "z"])] false
     = Some [[("x", 1 + sqrt_half); ("y", 4); ("z", 0)];
             [("x", 1 + sqrt_half + sqrt_half); ("y", 4); ("z", 0)]].
Proof. split; vm_compute; reflexivity. Qed.

Example doctest_student_best_bundle_per_budget :
  student_best_bundle_per_budget [("x", 5 # 2); ("y", 0); ("z", 0)] alice_bob 2
                                 [("Alice", 5); ("Bob", 4)]
  = Some [("Alice", [(5 - 2, ["x"; "y"])]);
          ("Bob", [(0 + (5 # 2) + 0, ["x"; "y"]); (4 - 2, ["y"; "z"])])]
  /\ student_best_bundle_per_budget [("x", 2); ("y", 2); ("z", 5)] alice_alone
                                    (1 # 10) [("Alice", 5)]
     = Some [("Alice", [(5 - (1 # 10), ["x"; "y"])])].
Proof. split; vm_compute; reflexivity. Qed.

(** ** The error monad *)

Lemma bind_some {A B : Type} (m : option A) (k : A -> option B) (b : B) :
  bind m k = Some b -> exists a, m = Some a /\ k a = Some b.
Proof.
  destruct m as [a|]; simpl; intros H; [exists a; auto | discriminate].
Qed.

Ltac inv_bind H :=
  let a := fresh "a" in
  let Ha := fresh "Hbind" in
  apply bind_some in H; destruct H as (a & Ha & H).

(** ** Dictionaries *)

Lemma mem_In (x : string) (l : list string) : mem x l = true <-> In x l.
Proof.
  induction l as [|y l IH]; simpl.
  - split; [discriminate | tauto].
  - destruct (String.eqb_spec y x) as [->|Hne].
    + split; auto.
    + rewrite IH. split; [auto | intros [H|H]; [contradiction | exact H]].
Qed.

Lemma mem_false (x : string) (l : list string) : mem x l = false <-> ~ In x l.
Proof.
  rewrite <- mem_In. destruct (mem x l); intuition congruence.
Qed.

Section DictFacts.
Context {V : Type}.
Implicit Types (d : dict V) (k : string) (v : V).

Lemma get_set_same d k v : get (set d k v) k = Some v.
Proof.
  induction d as [|[k' v'] d IH]; simpl.
  - now rewrite String.eqb_refl.
  - destruct (String.eqb_spec k' k) as [->|Hne]; simpl.
    + now rewrite String.eqb_refl.
    + destruct (String.eqb_spec k' k); [contradiction | exact IH].
Qed.

Lemma get_set_other d k k' v : k <> k' -> get (set d k v) k' = get d k'.
Proof.
  intros Hne. induction d as [|[k0 v0] d IH]; simpl.
  - destruct (String.eqb_spec k k'); [contradiction | reflexivity].
  - destruct (String.eqb_spec k0 k) as [->|Hk0]; simpl.
    + destruct (String.eqb_spec k k'); [contradiction | reflexivity].
    + now rewrite IH.
Qed.

Lemma get_In_keys d k : get d k <> None <-> In k (keys d).
Proof.
  induction d as [|[k0 v0] d IH]; simpl.
  - split; [congruence | tauto].
  - destruct (String.eqb_spec k0 k) as [->|Hne].
    + split; [auto | congruence].
    + rewrite IH. split; [auto | intros [H|H]; [contradiction | exact H]].
Qed.

Lemma get_None_keys d k : get d k = None <-> ~ In k (keys d).
Proof.
  rewrite <- get_In_keys. destruct (get d k); intuition congruence.
Qed.

Lemma get_Some_In d k v : get d k = Some v -> In (k, v) d.
Proof.
  induction d as [|[k0 v0] d IH]; simpl; [discriminate|].
  destruct (String.eqb_spec k0 k) as [->|Hne].
  - intros [= ->]. now left.
  - intros H. right. now apply IH.
Qed.

(** Setting a fresh key appends the entry. *)
Lemma set_fresh d k v : get d k = None -> set d k v = d ++ [(k, v)].
Proof.
  induction d as [|[k0 v0] d IH]; simpl; [reflexivity|].
  destruct (String.eqb_spec k0 k) as [->|Hne]; [discriminate|].
  intros H. now rewrite IH.
Qed.

(** Setting a present key keeps the length. *)
Lemma set_present_length d k v :
  get d k <> None -> length (set d k v) = length d.
Proof.
  induction d as [|[k0 v0] d IH]; simpl; [congruence|].
  destruct (String.eqb_spec k0 k) as [->|Hne]; simpl; [reflexivity|].
  intros H. now rewrite IH.
Qed.

Lemma set_length_le d k v : (length (set d k v) <= S (length d))%nat.
Proof.
  destruct (get d k) eqn:E.
  - rewrite set_present_length by congruence. lia.
  - rewrite set_fresh by exact E. rewrite length_app. simpl. lia.
Qed.

Lemma In_set_values d k v (x : string * V) :
  In x (set d k v) -> x = (k, v) \/ In x d.
Proof.
  induction d as [|[k0 v0] d IH]; simpl.
  - intros [<-|[]]. now left.
  - destruct (String.eqb_spec k0 k) as [->|Hne]; simpl.
    + intros [<-|H]; auto.
    + intros [<-|H]; auto. destruct (IH H); auto.
Qed.

(** A dictionary filled key by key. *)
Lemma get_fold_set (f : string -> V) (ks : list string) d k :
  get (fold_left (fun z c => set z c (f c)) ks d) k
  = if mem k ks then Some (f k) else get d k.
Proof.
  revert d. induction ks as [|c ks IH]; intros d; simpl; [reflexivity|].
  rewrite IH. destruct (String.eqb_spec c k) as [->|Hne].
  - destruct (mem k ks); [reflexivity | apply get_set_same].
  - destruct (mem k ks); [reflexivity | now apply get_set_other].
Qed.

Lemma comprehension_get (f : string -> option V) (ks : list string) d :
  (forall k, In k ks -> f k <> None) ->
  exists d', comprehension ks f d = Some d'
             /\ forall k, get d' k = if mem k ks then f k else get d k.
Proof.
  revert d. induction ks as [|c ks IH]; intros d Hf; simpl.
  - exists d. split; reflexivity.
  - destruct (f c) as [v|] eqn:Efc; [|exfalso; now apply (Hf c); [left|]].
    simpl. destruct (IH (set d c v)) as (d' & Hd' & Hget).
    { intros k Hk. apply Hf. now right. }
    exists d'. split; [exact Hd'|]. intros k. rewrite Hget.
    destruct (String.eqb_spec c k) as [->|Hne].
    + destruct (mem k ks); [reflexivity|]. now rewrite get_set_same.
    + destruct (mem k ks); [reflexivity|]. now apply get_set_other.
Qed.
End DictFacts.

(** ** Excess demand *)

Lemma count_demand_acc (course : string) (allocation : dict (list string)) (acc : Z) :
  fold_left (fun sum_allocation '(student, bundle) =>
               if mem course bundle then (sum_allocation + 1)%Z
               else sum_allocation)
            allocation acc
  = (acc + Z.of_nat (length (filter (demands course) allocation)))%Z.
Proof.
  revert acc. induction allocation as [|[s b] l IH]; intros acc; simpl.
  - lia.
  - rewrite IH. unfold demands at 2. simpl. destruct (mem course b); simpl; lia.
Qed.

Lemma count_demand_filter (course : string) (allocation : dict (list string)) :
  count_demand course allocation
  = Z.of_nat (length (filter (demands course) allocation)).
Proof.
  unfold count_demand. now rewrite count_demand_acc.
Qed.

Lemma filter_length_perm {A : Type} (f : A -> bool) (l l' : list A) :
  Permutation l l' -> length (filter f l) = length (filter f l').
Proof.
  induction 1 as [|x l l' _ IH|x y l|l l' l'' _ IH1 _ IH2]; simpl.
  - reflexivity.
  - destruct (f x); simpl; congruence.
  - destruct (f x), (f y); reflexivity.
  - congruence.
Qed.

Lemma excess_demand_get (instance : Instance) (allocation : dict (list string))
      (item : string) :
  get (excess_demand instance allocation) item
  = if mem item (items instance)
    then Some (count_demand item allocation - item_capacity instance item)%Z
    else None.
Proof.
  unfold excess_demand.
  rewrite (get_fold_set
             (fun c => (count_demand c allocation - item_capacity instance c)%Z)).
  reflexivity.
Qed.

Lemma fold_set_ext {V : Type} (f g : string -> V) (ks : list string) (d : dict V) :
  (forall k, f k = g k) ->
  fold_left (fun z c => set z c (f c)) ks d
  = fold_left (fun z c => set z c (g c)) ks d.
Proof.
  intros Hfg. revert d. induction ks as [|c ks IH]; intros d; simpl; [reflexivity|].
  now rewrite Hfg, IH.
Qed.

(** C8. [excess_demand] maps every item of the instance (and nothing else) to
    the number of agents whose bundle contains it minus the item's capacity;
    the result does not depend on the order in which the agents of the
    allocation are visited; and on the allocation {ami:(x,y), tami:(x,y)}
    with capacities {x:2, y:1, z:3} it is {x:0, y:1, z:-3}. *)
Theorem excess_demand_counts_agents :
  (forall instance allocation item,
      In item (items instance) ->
      get (excess_demand instance allocation) item
      = Some (Z.of_nat (length (filter (demands item) allocation))
              - item_capacity instance item)%Z)
  /\ (forall instance allocation item,
         ~ In item (items instance) ->
         get (excess_demand instance allocation) item = None)
  /\ (forall instance allocation allocation',
         Permutation allocation allocation' ->
         excess_demand instance allocation' = excess_demand instance allocation)
  /\ excess_demand ami_tami [("ami", ["x"; "y"]); ("tami", ["x"; "y"])]
     = [("x", 0%Z); ("y", 1%Z); ("z", (-3)%Z)].
Proof.
  repeat split.
  - intros instance allocation item Hin.
    rewrite excess_demand_get.
    apply mem_In in Hin. rewrite Hin. now rewrite count_demand_filter.
  - intros instance allocation item Hout.
    rewrite excess_demand_get.
    apply mem_false in Hout. now rewrite Hout.
  - intros instance allocation allocation' Hperm.
    unfold excess_demand. apply fold_set_ext. intros k.
    rewrite !count_demand_filter.
    now rewrite (filter_length_perm (demands k) allocation allocation').
Qed.

Lemma excess_demand_counts_agents_witness :
  get (excess_demand ami_tami [("ami", ["x"; "y"]); ("tami", ["x"; "y"])]) "y"
  = Some 1%Z
  /\ get (excess_demand ami_tami [("ami", ["x"; "y"]); ("tami", ["x"; "y"])]) "w"
     = None
  /\ excess_demand ami_tami [("tami", ["x"; "y"]); ("ami", ["x"; "y"])]
     = excess_demand ami_tami [("ami", ["x"; "y"]); ("tami", ["x"; "y"])].
Proof.
  destruct excess_demand_counts_agents as (Hcount & Hout & Hperm & _).
  split; [|split].
  - apply (Hcount ami_tami [("ami", ["x"; "y"]); ("tami", ["x"; "y"])] "y").
    simpl. right. left. reflexivity.
  - apply (Hout ami_tami). simpl. intros [H|[H|[H|[]]]]; discriminate H.
  - apply (Hperm ami_tami). apply perm_swap.
Defined.

(** ** Clipped excess demand *)

Lemma excess_demand_keys (instance : Instance) (allocation : dict (list string))
      (item : string) :
  In item (keys (excess_demand instance allocation)) <-> In item (items instance).
Proof.
  rewrite <- get_In_keys, excess_demand_get, <- mem_In.
  destruct (mem item (items instance)); intuition congruence.
Qed.

(** C7. Where every item has a price, [clipped_excess_demand] returns a
    dictionary over the items of the instance that agrees with
    [excess_demand] on every item whose price is not zero and holds
    [max(0, excess_demand)] on every item priced exactly zero; hence it is
    non-negative on every item priced zero. *)
Theorem clipped_excess_demand_floors_free_items
        (instance : Instance) (prices : dict Q) (allocation : dict (list string))
        (Hpriced : forall item, In item (items instance) -> get prices item <> None) :
  exists clipped_z,
    clipped_excess_demand instance prices allocation = Some clipped_z
    /\ (forall item,
           In item (items instance) ->
           exists p z c,
             get prices item = Some p
             /\ get (excess_demand instance allocation) item = Some z
             /\ get clipped_z item = Some c
             /\ (~ p == 0 -> c = z)
             /\ (p == 0 -> c = Z.max 0 z /\ (0 <= c)%Z))
    /\ forall item,
      ~ In item (items instance) -> get clipped_z item = None.
Proof.
  unfold clipped_excess_demand.
  set (z := excess_demand instance allocation).
  set (f := fun course : string =>
              p <- get prices course ;;
              zc <- get z course ;;
              ret (if Qeq_bool p 0 then Z.max 0 zc else zc)).
  assert (Hf : forall k, In k (items instance) ->
                         exists p zc, get prices k = Some p /\ get z k = Some zc
                                      /\ f k = Some (if Qeq_bool p 0 then Z.max 0 zc else zc)).
  { intros k Hk. specialize (Hpriced k Hk).
    destruct (get prices k) as [p|] eqn:Ep; [|congruence].
    assert (Hz : get z k <> None).
    { apply get_In_keys. now apply excess_demand_keys. }
    destruct (get z k) as [zc|] eqn:Ez; [|congruence].
    exists p, zc. repeat split. unfold f. now rewrite Ep, Ez. }
  destruct (comprehension_get f (keys z) []) as (d & Hd & Hget).
  { intros k Hk. apply excess_demand_keys in Hk.
    destruct (Hf k Hk) as (p & zc & _ & _ & E). congruence. }
  exists d. split; [exact Hd|]. split.
  - intros item Hitem. destruct (Hf item Hitem) as (p & zc & Ep & Ez & Ef).
    exists p, zc, (if Qeq_bool p 0 then Z.max 0 zc else zc).
    repeat split; try assumption.
    + rewrite Hget.
      assert (Hm : mem item (keys z) = true).
      { apply mem_In. now apply excess_demand_keys. }
      now rewrite Hm.
    + intros Hnz. destruct (Qeq_bool p 0) eqn:E; [|reflexivity].
      apply Qeq_bool_iff in E. contradiction.
    + apply Qeq_bool_iff in H. now rewrite H.
    + apply Qeq_bool_iff in H. rewrite H. lia.
  - intros item Hout. rewrite Hget.
    assert (Hm : mem item (keys z) = false).
    { apply mem_false. intros Hin. apply Hout. now apply excess_demand_keys in Hin. }
    now rewrite Hm.
Qed.

Lemma clipped_excess_demand_floors_free_items_witness :
  exists clipped_z,
    clipped_excess_demand ami_tami [("x", 0); ("y", 2); ("z", 0)]
                          [("ami", ["x"; "y"]); ("tami", ["x"; "y"])]
    = Some clipped_z.
Proof.
  destruct (clipped_excess_demand_floors_free_items
              ami_tami [("x", 0); ("y", 2); ("z", 0)]
              [("ami", ["x"; "y"]); ("tami", ["x"; "y"])]) as (cz & Hcz & _).
  - simpl. intros item [<-|[<-|[<-|[]]]]; simpl; discriminate.
  - exists cz. exact Hcz.
Defined.

(** ** Ranking the combinations *)

Section SortedDesc.
Context {A : Type} (key : A -> Q).

Lemma insert_desc_perm (x : A) (l : list A) :
  Permutation (x :: l) (insert_desc key x l).
Proof.
  induction l as [|y l IH]; simpl.
  - apply Permutation_refl.
  - destruct (Qle_bool (key y) (key x)).
    + apply Permutation_refl.
    + eapply perm_trans; [apply perm_swap|]. now apply perm_skip.
Qed.

Lemma sorted_desc_perm (l : list A) : Permutation l (sorted_desc key l).
Proof.
  induction l as [|x l IH]; simpl.
  - apply perm_nil.
  - eapply perm_trans; [apply perm_skip, IH|]. apply insert_desc_perm.
Qed.

Lemma insert_desc_descending (x : A) (l : list A) :
  descending key l -> descending key (insert_desc key x l).
Proof.
  unfold descending. induction 1 as [|y l Hl IH Hy]; simpl.
  - constructor; constructor.
  - destruct (Qle_bool (key y) (key x)) eqn:E.
    + apply Qle_bool_iff in E. constructor.
      * now constructor.
      * constructor; [exact E|].
        eapply Forall_impl; [|exact Hy]. intros z Hz. simpl in Hz.
        now apply Qle_trans with (key y).
    + constructor; [exact IH|].
      assert (Hxy : key x <= key y).
      { apply Qlt_le_weak, Qnot_le_lt. intros H.
        apply Qle_bool_iff in H. congruence. }
      apply Forall_forall. intros z Hz.
      apply (Permutation_in z (Permutation_sym (insert_desc_perm x l))) in Hz.
      destruct Hz as [<-|Hz]; [exact Hxy|].
      rewrite Forall_forall in Hy. now apply Hy.
Qed.

Lemma sorted_desc_descending (l : list A) : descending key (sorted_desc key l).
Proof.
  induction l as [|x l IH]; simpl.
  - constructor.
  - now apply insert_desc_descending.
Qed.
End SortedDesc.

(** C3, as the code has it.  In window mode
    ([student_best_bundle_per_budget]) the combinations of every agent are
    ranked in descending order of the bundle value plus the bonus of a full
    bundle; in fixed-budget mode ([student_best_bundles] and
    [compute_best_bundles_for_student]) they are ranked in descending order of
    the plain bundle value, without the bonus.  Both rankings rearrange the
    combinations of size 1..capacity. *)
Theorem combinations_ranked_by_mode (instance : Instance) (student : string) :
  (Permutation (combinations_courses_list instance student)
               (window_combinations_sorted instance student)
   /\ descending (bonus_key instance student)
                 (window_combinations_sorted instance student))
  /\ (Permutation (combinations_courses_list instance student)
                  (combinations_courses_sorted instance student)
      /\ descending (agent_bundle_value instance student)
                    (combinations_courses_sorted instance student)).
Proof.
  split; split.
  - apply sorted_desc_perm.
  - apply (sorted_desc_descending (window_valuation instance student)).
  - apply sorted_desc_perm.
  - apply sorted_desc_descending.
Qed.

(** C3 fails in fixed-budget mode: with values x:5, y:3, z:1 and two seats the
    ranking is (x,y), (x,z), (x), (y,z), (y), (z), whose keys with the bonus
    are 16, 14, 5, 12, 3, 1. *)
Lemma fixed_mode_ignores_bonus :
  ~ descending (bonus_key three_courses "A")
      (combinations_courses_sorted three_courses "A").
Proof.
  assert (E : combinations_courses_sorted three_courses "A"
              = [["x"; "y"]; ["x"; "z"]; ["x"]; ["y"; "z"]; ["y"]; ["z"]])
    by (vm_compute; reflexivity).
  rewrite E. unfold descending. intros H.
  inversion H as [|c1 l1 H1 _]; subst.
  inversion H1 as [|c2 l2 H2 _]; subst.
  inversion H2 as [|c3 l3 _ F3]; subst.
  inversion F3 as [|c4 l4 Hle _]; subst.
  vm_compute in Hle. apply Hle. reflexivity.
Qed.

(** ** The shared dictionary of [student_best_bundles] *)

Section DictUpdates.
Context {V : Type}.
Implicit Types (d pre post : dict V) (k : string) (v : V).

Lemma set_get_same d k v : get d k = Some v -> set d k v = d.
Proof.
  induction d as [|[k0 v0] d IH]; simpl; [discriminate|].
  destruct (String.eqb_spec k0 k) as [->|Hne].
  - now intros [= ->].
  - intros H. now rewrite IH.
Qed.

Lemma set_set d k v v' : set (set d k v) k v' = set d k v'.
Proof.
  induction d as [|[k0 v0] d IH]; simpl.
  - now rewrite String.eqb_refl.
  - destruct (String.eqb_spec k0 k) as [->|Hne]; simpl.
    + now rewrite String.eqb_refl.
    + destruct (String.eqb_spec k0 k); [contradiction|]. now rewrite IH.
Qed.

Lemma get_app_fresh pre post k :
  ~ In k (keys pre) -> get (pre ++ post) k = get post k.
Proof.
  induction pre as [|[k0 v0] pre IH]; simpl; [reflexivity|].
  intros H. destruct (String.eqb_spec k0 k) as [->|Hne]; [tauto|].
  apply IH. tauto.
Qed.

Lemma set_app_fresh pre post k v :
  ~ In k (keys pre) -> set (pre ++ post) k v = pre ++ set post k v.
Proof.
  induction pre as [|[k0 v0] pre IH]; simpl; [reflexivity|].
  intros H. destruct (String.eqb_spec k0 k) as [->|Hne]; [tauto|].
  rewrite IH by tauto. reflexivity.
Qed.

Lemma set_head post k v v' : set ((k, v) :: post) k v' = (k, v') :: post.
Proof. simpl. now rewrite String.eqb_refl. Qed.

Lemma keys_app pre post : keys (pre ++ post) = keys pre ++ keys post.
Proof. apply map_app. Qed.

Lemma fold_set_fresh (f : string -> V) (ks : list string) pre :
  NoDup ks ->
  (forall k, In k ks -> ~ In k (keys pre)) ->
  fold_left (fun d k => set d k (f k)) ks pre
  = pre ++ map (fun k => (k, f k)) ks.
Proof.
  revert pre. induction ks as [|k ks IH]; intros pre Hnd Hfresh; simpl.
  - now rewrite app_nil_r.
  - inversion Hnd as [|? ? Hk Hnd']; subst.
    rewrite set_fresh.
    + rewrite IH; [now rewrite <- app_assoc | exact Hnd' |].
      intros k' Hk' Hin. rewrite keys_app in Hin. apply in_app_or in Hin.
      destruct Hin as [Hin|[<-|[]]].
      * apply (Hfresh k'); [now right | exact Hin].
      * contradiction.
    + apply get_None_keys. apply Hfresh. now left.
Qed.
End DictUpdates.

Section FixedMode.
Variables (prices initial_budgets : dict Q) (instance : Instance).

(** The loop on the shared dictionary does to the student's entry what the
    loop of [compute_best_bundles_for_student] does to its local list. *)
Lemma scan_best_shared_local (student : string) (combs : list (list string)) :
  forall (max_valuation : Q) (d : dict (list (list string)))
         (l : list (list string)),
    get d student = Some l ->
    scan_best_shared prices initial_budgets instance student combs
                     max_valuation d
    = '(m, l') <- scan_best prices initial_budgets instance student combs
                            max_valuation l ;;
      ret (m, set d student l').
Proof.
  induction combs as [|c combs IH]; intros mx d l Hget; simpl.
  - unfold ret. now rewrite set_get_same.
  - destruct (bundle_price prices c) as [pc|]; simpl; [|reflexivity].
    destruct (get initial_budgets student) as [b|]; simpl; [|reflexivity].
    destruct (Qle_bool pc b); [|now apply IH].
    destruct (Qle_bool mx (agent_bundle_value instance student c));
      [|now apply IH].
    destruct (Qlt_bool mx (agent_bundle_value instance student c)).
    + rewrite get_set_same. simpl.
      rewrite (IH _ _ ([] ++ [c])) by apply get_set_same.
      simpl app.
      destruct (scan_best prices initial_budgets instance student combs
                          (agent_bundle_value instance student c) [c])
        as [[m l']|]; simpl; [|reflexivity].
      now rewrite !set_set.
    + rewrite Hget. simpl.
      rewrite (IH _ _ (l ++ [c])) by apply get_set_same.
      destruct (scan_best prices initial_budgets instance student combs
                          (agent_bundle_value instance student c) (l ++ [c]))
        as [[m l']|]; simpl; [|reflexivity].
      now rewrite set_set.
Qed.

Lemma compute_best_key (student : string) (entry : string * list (list string)) :
  compute_best_bundles_for_student student instance prices initial_budgets
  = Some entry ->
  fst entry = student.
Proof.
  unfold compute_best_bundles_for_student. intros H.
  inv_bind H. destruct a as [m l]. unfold ret in H.
  injection H as <-. reflexivity.
Qed.

(** The sequential loop, started on the dictionary that maps every student
    to the empty list. *)
Lemma best_bundles_loop_entries (students : list string) :
  forall pre : dict (list (list string)),
    NoDup students ->
    (forall s, In s students -> ~ In s (keys pre)) ->
    best_bundles_loop prices initial_budgets instance students
                      (pre ++ map (fun s => (s, [])) students)
    = entries <- best_combinations_of prices initial_budgets instance students ;;
      ret (pre ++ entries).
Proof.
  induction students as [|s students IH]; intros pre Hnd Hfresh; simpl.
  - reflexivity.
  - inversion Hnd as [|? ? Hs Hnd']; subst.
    assert (Hpre : ~ In s (keys pre)) by (apply Hfresh; now left).
    rewrite (scan_best_shared_local s _ _ _ []).
    2:{ rewrite get_app_fresh by exact Hpre. simpl.
        now rewrite String.eqb_refl. }
    unfold compute_best_bundles_for_student.
    destruct (scan_best prices initial_budgets instance s
                        (combinations_courses_sorted instance s) (-1 # 1) [])
      as [[m l]|]; simpl; [|reflexivity].
    rewrite get_set_same. simpl.
    assert (Hfix :
              match l with
              | [] => set (set (pre ++ (s, []) :: map (fun s0 => (s0, [])) students)
                               s l) s [[]]
              | _ :: _ => set (pre ++ (s, []) :: map (fun s0 => (s0, [])) students) s l
              end
              = (pre ++ [(s, match l with [] => [[]] | _ => l end)])
                  ++ map (fun s0 => (s0, [])) students).
    { destruct l; rewrite ?set_set, set_app_fresh, set_head by exact Hpre;
        now rewrite <- app_assoc. }
    rewrite Hfix, IH.
    + destruct (best_combinations_of prices initial_budgets instance students);
        simpl; [|reflexivity].
      unfold ret. now rewrite <- app_assoc.
    + exact Hnd'.
    + intros s' Hs' Hin. rewrite keys_app in Hin. apply in_app_or in Hin.
      destruct Hin as [Hin|[<-|[]]].
      * apply (Hfresh s'); [now right | exact Hin].
      * contradiction.
Qed.

(** Joining the futures in submission order. *)
Lemma join_futures_entries (students : list string) :
  forall pre : dict (list (list string)),
    NoDup students ->
    (forall s, In s students -> ~ In s (keys pre)) ->
    join_futures
      (map (fun student =>
              compute_best_bundles_for_student student instance prices
                                               initial_budgets)
           students) pre
    = entries <- best_combinations_of prices initial_budgets instance students ;;
      ret (pre ++ entries).
Proof.
  induction students as [|s students IH]; intros pre Hnd Hfresh; simpl.
  - unfold ret. now rewrite app_nil_r.
  - inversion Hnd as [|? ? Hs Hnd']; subst.
    destruct (compute_best_bundles_for_student s instance prices initial_budgets)
      as [[k l]|] eqn:E; simpl; [|reflexivity].
    apply compute_best_key in E. simpl in E. subst k.
    rewrite set_fresh by (apply get_None_keys, Hfresh; now left).
    rewrite IH.
    + destruct (best_combinations_of prices initial_budgets instance students);
        simpl; [|reflexivity].
      unfold ret. now rewrite <- app_assoc.
    + exact Hnd'.
    + intros s' Hs' Hin. rewrite keys_app in Hin. apply in_app_or in Hin.
      destruct Hin as [Hin|[<-|[]]].
      * apply (Hfresh s'); [now right | exact Hin].
      * contradiction.
Qed.

Lemma student_best_bundles_entries :
  NoDup (agents instance) ->
  student_best_bundles prices instance initial_budgets
  = entries <- best_combinations_of prices initial_budgets instance
                                    (agents instance) ;;
    collect_valid_allocations prices initial_budgets instance entries.
Proof.
  intros Hnd. unfold student_best_bundles.
  rewrite (fold_set_fresh (fun _ => []) (agents instance) []) by (auto; intros ? ? []).
  rewrite (best_bundles_loop_entries (agents instance) []) by (auto; intros ? ? []).
  destruct (best_combinations_of prices initial_budgets instance (agents instance));
    reflexivity.
Qed.

Lemma student_best_bundles_with_threads_entries :
  NoDup (agents instance) ->
  student_best_bundles_with_threads prices instance initial_budgets
  = entries <- best_combinations_of prices initial_budgets instance
                                    (agents instance) ;;
    collect_valid_allocations prices initial_budgets instance entries.
Proof.
  intros Hnd. unfold student_best_bundles_with_threads.
  rewrite (join_futures_entries (agents instance) []) by (auto; intros ? ? []).
  destruct (best_combinations_of prices initial_budgets instance (agents instance));
    reflexivity.
Qed.
End FixedMode.

(** ** Valid allocations *)

Section ValidAllocations.
Variables (prices initial_budgets : dict Q).

Lemma build_valid_allocation_spec (pairs : list (string * list string)) :
  forall acc d : dict (list string),
    build_valid_allocation prices initial_budgets pairs acc = Some d ->
    (length d <= length acc + length pairs)%nat
    /\ (length d = (length acc + length pairs)%nat ->
        (forall k v, get acc k = Some v -> get d k = Some v)
        /\ forall s b,
          In (s, b) pairs ->
          get d s = Some b
          /\ exists p bud,
              bundle_price prices b = Some p
              /\ get initial_budgets s = Some bud
              /\ p <= bud).
Proof.
  induction pairs as [|[s b] pairs IH]; intros acc d H; simpl in H.
  - injection H as <-. split; [lia|]. intros _. split; [auto | intros ? ? []].
  - inv_bind H. rename a into p. inv_bind H. rename a into bud.
    destruct (IH _ _ H) as [Hlen Heq]. clear IH.
    destruct (Qle_bool p bud) eqn:Ele.
    + pose proof (set_length_le acc s b) as Hset. simpl. split; [lia|].
      intros Hfull.
      assert (Hfresh : get acc s = None).
      { destruct (get acc s) eqn:E; [|reflexivity].
        rewrite set_present_length in Hlen by congruence. lia. }
      rewrite set_fresh, length_app in Hlen, Heq by exact Hfresh.
      simpl in Hlen, Heq.
      destruct Heq as [Hkeep Hrest]; [lia|].
      split.
      * intros k v Hk. apply Hkeep.
        rewrite <- set_fresh by exact Hfresh.
        rewrite get_set_other; [exact Hk | congruence].
      * intros s' b' [[= <- <-]|Hin]; [|now apply Hrest].
        split.
        -- apply Hkeep. rewrite <- set_fresh by exact Hfresh.
           apply get_set_same.
        -- exists p, bud. repeat split; try assumption.
           now apply Qle_bool_iff.
    + simpl. split; [lia|]. intros Hfull. lia.
Qed.

Lemma combine_covers {A B : Type} (l : list A) (t : list B) :
  length (combine l t) = length l ->
  forall a, In a l -> exists b, In (a, b) (combine l t).
Proof.
  revert t. induction l as [|x l IH]; intros t Hlen a Hin; [destruct Hin|].
  destruct t as [|y t]; simpl in Hlen; [discriminate|].
  destruct Hin as [<-|Hin].
  - exists y. now left.
  - destruct (IH t) with (a := a) as (b & Hb); [lia | exact Hin |].
    exists b. now right.
Qed.

Lemma filter_valid_spec (instance : Instance)
      (l : list (list (list string))) :
  forall acc res,
    filter_valid prices initial_budgets instance l acc = Some res ->
    forall a,
      In a res ->
      In a acc
      \/ exists t,
          In t l
          /\ build_valid_allocation prices initial_budgets
                                    (combine (agents instance) t) [] = Some a
          /\ length a = length (agents instance).
Proof.
  induction l as [|t l IH]; intros acc res H a Ha; simpl in H.
  - injection H as <-. now left.
  - inv_bind H. rename a0 into va.
    destruct (IH _ _ H a Ha) as [Hacc|(t' & Ht' & Hb & Hl)].
    + destruct (Nat.eqb_spec (length va) (length (agents instance))) as [E|E].
      * apply in_app_or in Hacc. destruct Hacc as [Hacc|[<-|[]]]; [now left|].
        right. exists t. repeat split; auto. now left.
      * now left.
    + right. exists t'. repeat split; auto. now right.
Qed.

(** What the filter keeps is a valid allocation, built from one tuple of
    the product. *)
Lemma kept_allocation_valid (instance : Instance) (t : list (list string))
      (a : dict (list string)) :
  build_valid_allocation prices initial_budgets
                         (combine (agents instance) t) [] = Some a ->
  length a = length (agents instance) ->
  valid prices initial_budgets instance a
  /\ forall s b, In (s, b) (combine (agents instance) t) -> get a s = Some b.
Proof.
  intros Hb Hlen.
  destruct (build_valid_allocation_spec _ _ _ Hb) as [Hle Hfull].
  simpl in Hle, Hfull.
  pose proof (length_combine (agents instance) t) as Hc.
  assert (Hcl : length (combine (agents instance) t) = length (agents instance))
    by lia.
  destruct Hfull as [_ Hpairs]; [lia|].
  split.
  - intros s Hs.
    destruct (combine_covers _ _ Hcl s Hs) as (b & Hin).
    destruct (Hpairs s b Hin) as (Hget & p & bud & Hp & Hbud & Hle').
    exists b, p, bud. auto.
  - intros s b Hin. now apply Hpairs.
Qed.

Lemma collect_valid_allocations_valid (instance : Instance)
      (all_combinations : dict (list (list string)))
      (allocations : list (dict (list string))) :
  collect_valid_allocations prices initial_budgets instance all_combinations
  = Some allocations ->
  forall a, In a allocations -> valid prices initial_budgets instance a.
Proof.
  unfold collect_valid_allocations. intros H a Ha.
  destruct (filter_valid_spec _ _ _ _ H a Ha) as [[]|(t & _ & Hb & Hl)].
  now destruct (kept_allocation_valid instance t a Hb Hl).
Qed.
End ValidAllocations.

(** ** No lookup fails where every item has a price and every agent a budget *)

Lemma sum_prices_total (prices : dict Q) (bundle : list string) :
  (forall item, In item bundle -> get prices item <> None) ->
  forall acc, sum_prices prices bundle acc <> None.
Proof.
  induction bundle as [|x bundle IH]; intros Hp acc; simpl; [discriminate|].
  destruct (get prices x) eqn:E; simpl.
  - apply IH. intros item Hitem. apply Hp. now right.
  - exfalso. apply (Hp x); [now left | exact E].
Qed.

Lemma combinations_incl {A : Type} (l : list A) :
  forall r c, In c (combinations l r) -> incl c l.
Proof.
  induction l as [|x l IH]; intros [|r] c Hc; simpl in Hc.
  - destruct Hc as [<-|[]]. intros ? [].
  - destruct Hc.
  - destruct Hc as [<-|[]]. intros ? [].
  - apply in_app_or in Hc. destruct Hc as [Hc|Hc].
    + apply in_map_iff in Hc. destruct Hc as (c' & <- & Hc').
      intros y [<-|Hy]; [now left|]. right. now apply (IH r c').
    + intros y Hy. right. now apply (IH (S r) c).
Qed.

Lemma combinations_courses_list_incl (instance : Instance) (student : string)
      (c : list string) :
  In c (combinations_courses_list instance student) -> incl c (items instance).
Proof.
  unfold combinations_courses_list. intros H.
  apply in_flat_map in H. destruct H as (r & _ & Hc).
  now apply combinations_incl with r.
Qed.

Lemma product_In {A : Type} (ls : list (list A)) :
  forall t, In t (product ls) ->
            forall b, In b t -> exists l, In l ls /\ In b l.
Proof.
  induction ls as [|l ls IH]; intros t Ht b Hb; simpl in Ht.
  - destruct Ht as [<-|[]]. destruct Hb.
  - apply in_flat_map in Ht. destruct Ht as (x & Hx & Ht).
    apply in_map_iff in Ht. destruct Ht as (t' & <- & Ht').
    destruct Hb as [<-|Hb].
    + exists l. split; [now left | exact Hx].
    + destruct (IH t' Ht' b Hb) as (l' & Hl' & Hbl').
      exists l'. split; [now right | exact Hbl'].
Qed.

Section Totality.
Variables (prices initial_budgets : dict Q) (instance : Instance).
Hypothesis Hcovered : covered prices initial_budgets instance.

Lemma sorted_combination_priced (student : string) (c : list string) :
  In c (combinations_courses_sorted instance student) -> priced prices c.
Proof.
  intros Hc. unfold combinations_courses_sorted in Hc.
  apply (Permutation_in c (Permutation_sym (sorted_desc_perm _ _))) in Hc.
  apply combinations_courses_list_incl in Hc.
  apply sum_prices_total. intros item Hitem.
  apply (proj1 Hcovered). now apply Hc.
Qed.

Lemma scan_best_total (student : string) (combs : list (list string)) :
  In student (agents instance) ->
  (forall c, In c combs -> priced prices c) ->
  forall m l,
  exists m' l',
    scan_best prices initial_budgets instance student combs m l = Some (m', l')
    /\ forall b, In b l' -> In b l \/ In b combs.
Proof.
  intros Hs. pose proof (proj2 Hcovered student Hs) as Hbud.
  induction combs as [|c combs IH]; intros Hp m l; simpl.
  - exists m, l. split; [reflexivity | auto].
  - assert (Hrest : forall c', In c' combs -> priced prices c')
      by (intros c' Hc'; apply Hp; now right).
    assert (Hc : priced prices c) by (apply Hp; now left).
    unfold priced in Hc.
    destruct (bundle_price prices c) as [pc|]; [simpl | congruence].
    destruct (get initial_budgets student) as [bud|]; [simpl | congruence].
    assert (Hskip : exists m' l',
               scan_best prices initial_budgets instance student combs m l
               = Some (m', l')
               /\ forall b, In b l' -> In b l \/ In b (c :: combs)).
    { destruct (IH Hrest m l) as (m' & l' & E & Hin).
      exists m', l'. split; [exact E|].
      intros b Hb. destruct (Hin b Hb); [now left | right; now right]. }
    destruct (Qle_bool pc bud); [|exact Hskip].
    destruct (Qle_bool m (agent_bundle_value instance student c)); [|exact Hskip].
    match goal with
    | |- context [scan_best _ _ _ _ _ ?m1 ?l1] =>
        destruct (IH Hrest m1 l1) as (m' & l' & E & Hin)
    end.
    exists m', l'. split; [exact E|].
    intros b Hb. destruct (Hin b Hb) as [Hb'|Hb']; [|right; now right].
    apply in_app_or in Hb'. destruct Hb' as [Hb'|[<-|[]]].
    + destruct (Qlt_bool m (agent_bundle_value instance student c));
        [destruct Hb' | now left].
    + right. now left.
Qed.

Lemma all_priced_set (d : dict (list (list string))) (s : string)
      (l : list (list string)) :
  all_priced prices d ->
  (forall b, In b l -> priced prices b) ->
  all_priced prices (set d s l).
Proof.
  intros Hd Hl s' l' b Hin Hb.
  apply In_set_values in Hin. destruct Hin as [[= -> ->]|Hin].
  - now apply Hl.
  - now apply (Hd s' l').
Qed.

Lemma get_set_defined {V : Type} (d : dict V) (k k' : string) (v : V) :
  get d k <> None -> get (set d k' v) k <> None.
Proof.
  intros H. destruct (String.eqb_spec k' k) as [->|Hne].
  - rewrite get_set_same. discriminate.
  - now rewrite get_set_other.
Qed.

Lemma best_bundles_loop_total (students : list string) :
  forall d,
    (forall s, In s students -> In s (agents instance)) ->
    (forall s, In s students -> get d s <> None) ->
    all_priced prices d ->
    exists d',
      best_bundles_loop prices initial_budgets instance students d = Some d'
      /\ all_priced prices d'.
Proof.
  induction students as [|s students IH]; intros d Hag Hkeys Hd; simpl.
  - exists d. split; [reflexivity | exact Hd].
  - assert (Hs : get d s <> None) by (apply Hkeys; now left).
    destruct (get d s) as [l|] eqn:El; [clear Hs | congruence].
    rewrite (scan_best_shared_local _ _ _ _ _ _ _ l El).
    destruct (scan_best_total s (combinations_courses_sorted instance s))
      with (m := -1 # 1) (l := l) as (m' & l' & E & Hin).
    { apply Hag. now left. }
    { apply sorted_combination_priced. }
    rewrite E. simpl. rewrite get_set_same. simpl.
    assert (Hl' : forall b, In b l' -> priced prices b).
    { intros b Hb. destruct (Hin b Hb) as [Hb'|Hb'].
      - apply (Hd s l b); [now apply get_Some_In | exact Hb'].
      - now apply sorted_combination_priced with s. }
    apply IH.
    + intros s' Hs'. apply Hag. now right.
    + intros s' Hs'. destruct l'; repeat apply get_set_defined;
        apply Hkeys; now right.
    + destruct l'; repeat apply all_priced_set; auto.
      * intros b [<-|[]]. unfold priced. discriminate.
Qed.

Lemma build_valid_allocation_total (pairs : list (string * list string)) :
  (forall s b, In (s, b) pairs -> In s (agents instance) /\ priced prices b) ->
  forall acc,
    build_valid_allocation prices initial_budgets pairs acc <> None.
Proof.
  induction pairs as [|[s b] pairs IH]; intros Hp acc; simpl; [discriminate|].
  destruct (Hp s b) as [Hs Hb]; [now left|].
  unfold priced in Hb. apply (proj2 Hcovered) in Hs.
  destruct (bundle_price prices b); [simpl | congruence].
  destruct (get initial_budgets s); [simpl | congruence].
  apply IH. intros s' b' Hin. apply Hp. now right.
Qed.

Lemma filter_valid_total (l : list (list (list string))) :
  (forall t b, In t l -> In b t -> priced prices b) ->
  forall acc, filter_valid prices initial_budgets instance l acc <> None.
Proof.
  induction l as [|t l IH]; intros Hp acc; simpl; [discriminate|].
  destruct (build_valid_allocation prices initial_budgets
                                   (combine (agents instance) t) [])
    as [va|] eqn:E; simpl.
  - apply IH. intros t' b Ht' Hb. apply (Hp t' b); [now right | exact Hb].
  - exfalso. revert E. apply build_valid_allocation_total.
    intros s b Hin. split.
    + now apply in_combine_l in Hin.
    + apply in_combine_r in Hin. apply (Hp t b); [now left | exact Hin].
Qed.

Lemma collect_valid_allocations_total (d : dict (list (list string))) :
  all_priced prices d ->
  collect_valid_allocations prices initial_budgets instance d <> None.
Proof.
  intros Hd. unfold collect_valid_allocations. apply filter_valid_total.
  intros t b Ht Hb.
  destruct (product_In _ t Ht b Hb) as (l & Hl & Hbl).
  unfold values in Hl. apply in_map_iff in Hl.
  destruct Hl as ([s l'] & <- & Hin). now apply (Hd s l').
Qed.

Lemma initial_lists_empty (ks : list string) :
  forall d0 : dict (list (list string)),
    (forall s l, In (s, l) d0 -> l = []) ->
    forall s l,
      In (s, l) (fold_left (fun d student => set d student []) ks d0) ->
      l = [].
Proof.
  induction ks as [|k ks IH]; intros d0 H0 s l Hin; simpl in Hin.
  - now apply (H0 s).
  - apply (IH (set d0 k [])) with s; [|exact Hin].
    intros s1 l1 H1. apply In_set_values in H1.
    destruct H1 as [[= _ ->]|H1]; [reflexivity | now apply (H0 s1)].
Qed.

Lemma student_best_bundles_total :
  student_best_bundles prices instance initial_budgets <> None.
Proof.
  unfold student_best_bundles.
  destruct (best_bundles_loop_total
              (agents instance)
              (fold_left (fun d student => set d student []) (agents instance) []))
    as (d' & E & Hd').
  - auto.
  - intros s Hs. rewrite (get_fold_set (fun _ => [])).
    apply mem_In in Hs. rewrite Hs. discriminate.
  - intros s l b Hin Hb.
    apply initial_lists_empty in Hin; [|intros ? ? []].
    subst l. destruct Hb.
  - rewrite E. simpl. now apply collect_valid_allocations_total.
Qed.
End Totality.

Ltac solve_covered :=
  split; intros k Hk; simpl in Hk;
  repeat (destruct Hk as [<-|Hk]; [vm_compute; discriminate|]);
  destruct Hk.

(** C9. Every allocation in the list returned by [student_best_bundles] is
    valid: it gives every agent of the instance a bundle whose total price is
    at most the agent's initial budget.  The list is returned whenever every
    item has a price and every agent a budget. *)
Theorem student_best_bundles_returns_valid_allocations
        (prices : dict Q) (instance : Instance) (initial_budgets : dict Q) :
  (covered prices initial_budgets instance ->
   exists allocations,
     student_best_bundles prices instance initial_budgets = Some allocations)
  /\ forall allocations,
    student_best_bundles prices instance initial_budgets = Some allocations ->
    forall a, In a allocations -> valid prices initial_budgets instance a.
Proof.
  split.
  - intros Hcov.
    pose proof (student_best_bundles_total _ _ _ Hcov) as H.
    destruct (student_best_bundles prices instance initial_budgets) as [l|];
      [now exists l | congruence].
  - unfold student_best_bundles. intros allocations H a Ha.
    inv_bind H. now apply (collect_valid_allocations_valid _ _ _ _ _ H).
Qed.

Lemma student_best_bundles_returns_valid_allocations_witness :
  exists allocations,
    student_best_bundles [("x", 1); ("y", 2); ("z", 1)] alice_bob_eve
                         [("Alice", 5); ("Bob", 4); ("Eve", 3)]
    = Some allocations
    /\ forall a, In a allocations ->
                 valid [("x", 1); ("y", 2); ("z", 1)]
                       [("Alice", 5); ("Bob", 4); ("Eve", 3)] alice_bob_eve a.
Proof.
  destruct (student_best_bundles_returns_valid_allocations
              [("x", 1); ("y", 2); ("z", 1)] alice_bob_eve
              [("Alice", 5); ("Bob", 4); ("Eve", 3)]) as [Htotal Hvalid].
  destruct Htotal as (allocations & E); [solve_covered|].
  exists allocations. split; [exact E|]. now apply Hvalid.
Defined.

Ltac solve_nodup :=
  simpl; repeat constructor; simpl; intuition discriminate.

(** ** Agents listed more than once *)

(** When an agent is listed twice the dictionary [valid_allocation] has fewer
    keys than [instance.agents] has entries: no allocation is kept. *)

Lemma product_length {A : Type} (ls : list (list A)) :
  forall t, In t (product ls) -> length t = length ls.
Proof.
  induction ls as [|l ls IH]; intros t Ht; simpl in Ht.
  - destruct Ht as [<-|[]]. reflexivity.
  - apply in_flat_map in Ht. destruct Ht as (x & _ & Ht).
    apply in_map_iff in Ht. destruct Ht as (t' & <- & Ht').
    simpl. now rewrite (IH t').
Qed.

Lemma product_inhabited {A : Type} (ls : list (list A)) :
  (forall l, In l ls -> l <> []) -> product ls <> [].
Proof.
  induction ls as [|l ls IH]; intros Hl; simpl; [discriminate|].
  destruct l as [|x l]; [exfalso; now apply (Hl []); [left|]|].
  simpl. destruct (product ls) as [|t ts] eqn:E.
  - exfalso. apply IH; [|reflexivity]. intros l' Hl'. apply Hl. now right.
  - discriminate.
Qed.

Lemma map_fst_combine {A B : Type} (l : list A) (t : list B) :
  (length t <= length l)%nat -> map fst (combine l t) = firstn (length t) l.
Proof.
  revert t. induction l as [|x l IH]; intros [|y t] Hlen; simpl in *;
    try reflexivity; try lia.
  rewrite IH by lia. reflexivity.
Qed.

Section DictKeys.
Context {V : Type}.
Implicit Types (d : dict V) (k : string) (v : V).

Lemma keys_set_cases d k v :
  keys (set d k v) = if mem k (keys d) then keys d else keys d ++ [k].
Proof.
  induction d as [|[k0 v0] d IH]; simpl; [reflexivity|].
  destruct (String.eqb_spec k0 k) as [->|Hne]; simpl; [reflexivity|].
  rewrite IH. now destruct (mem k (keys d)).
Qed.

Lemma keys_set_NoDup d k v : NoDup (keys d) -> NoDup (keys (set d k v)).
Proof.
  intros Hnd. rewrite keys_set_cases. destruct (mem k (keys d)) eqn:E.
  - exact Hnd.
  - apply mem_false in E. apply NoDup_app; [exact Hnd | now repeat constructor |].
    intros x Hx [<-|[]]. contradiction.
Qed.

Lemma In_set_unique d k v (k' : string) (v' : V) :
  NoDup (keys d) ->
  In (k', v') (set d k v) ->
  (k', v') = (k, v) \/ (k' <> k /\ In (k', v') d).
Proof.
  induction d as [|[k0 v0] d IH]; simpl; intros Hnd Hin.
  - destruct Hin as [<-|[]]. now left.
  - inversion Hnd as [|? ? Hk0 Hnd']; subst.
    destruct (String.eqb_spec k0 k) as [->|Hne]; simpl in Hin.
    + destruct Hin as [<-|Hin]; [now left|]. right. split; [|now right].
      intros ->. apply Hk0. apply in_map_iff. now exists (k, v').
    + destruct Hin as [[= <- <-]|Hin]; [right; split; [exact Hne | now left]|].
      destruct (IH Hnd' Hin) as [E|[Hk Hin']]; [now left | right; auto].
Qed.
End DictKeys.

Lemma keys_set_same_keys {V W : Type} (d1 : dict V) (d2 : dict W)
      (k : string) (v : V) (w : W) :
  keys d1 = keys d2 -> keys (set d1 k v) = keys (set d2 k w).
Proof. intros E. now rewrite !keys_set_cases, E. Qed.

Section AnyAgents.
Variables (prices initial_budgets : dict Q) (instance : Instance).

(** Whether the scan raises does not depend on the list it extends. *)
Lemma scan_best_raises (student : string) (combs : list (list string)) :
  forall m l m' l',
    scan_best prices initial_budgets instance student combs m l = None ->
    scan_best prices initial_budgets instance student combs m' l' = None.
Proof.
  induction combs as [|c combs IH]; intros m l m' l' H; simpl in H |- *.
  - discriminate.
  - destruct (bundle_price prices c) as [pc|]; simpl in *; [|reflexivity].
    destruct (get initial_budgets student) as [bud|]; simpl in *; [|reflexivity].
    destruct (Qle_bool pc bud).
    + destruct (Qle_bool m (agent_bundle_value instance student c));
        destruct (Qle_bool m' (agent_bundle_value instance student c));
        eapply IH; exact H.
    + eapply IH; exact H.
Qed.

Lemma scan_best_result (student : string) (combs : list (list string)) :
  forall m l m' l',
    scan_best prices initial_budgets instance student combs m l = Some (m', l') ->
    forall b, In b l' -> In b l \/ priced prices b.
Proof.
  induction combs as [|c combs IH]; intros m l m' l' H b Hb; simpl in H.
  - injection H as <- <-. now left.
  - inv_bind H. rename a into pc. inv_bind H. rename a into bud.
    destruct (Qle_bool pc bud); [|now apply (IH _ _ _ _ H b Hb)].
    destruct (Qle_bool m (agent_bundle_value instance student c));
      [|now apply (IH _ _ _ _ H b Hb)].
    destruct (IH _ _ _ _ H b Hb) as [Hin|Hp]; [|now right].
    apply in_app_or in Hin. destruct Hin as [Hin|[<-|[]]].
    + destruct (Qlt_bool m (agent_bundle_value instance student c));
        [destruct Hin | now left].
    + right. unfold priced. congruence.
Qed.

Lemma empty_bundle_priced : priced prices [].
Proof. unfold priced. discriminate. Qed.

(** The sequential loop and the tasks raise together; where they do not, the
    loop keeps the keys of the dictionary and leaves no empty list behind. *)
Lemma best_bundles_loop_outcome (students : list string) :
  forall d,
    NoDup (keys d) ->
    (forall s, In s students -> get d s <> None) ->
    all_priced prices d ->
    match best_bundles_loop prices initial_budgets instance students d,
          best_combinations_of prices initial_budgets instance students with
    | Some d', Some _ =>
        keys d' = keys d
        /\ all_priced prices d'
        /\ forall s l, In (s, l) d' ->
                       l <> [] \/ (~ In s students /\ In (s, l) d)
    | None, None => True
    | _, _ => False
    end.
Proof.
  induction students as [|s students IH]; intros d Hnd Hkeys Hd; simpl.
  - repeat split; auto.
  - assert (Hs : get d s <> None) by (apply Hkeys; now left).
    destruct (get d s) as [l|] eqn:El; [clear Hs | congruence].
    rewrite (scan_best_shared_local _ _ _ _ _ _ _ l El).
    unfold compute_best_bundles_for_student.
    destruct (scan_best prices initial_budgets instance s
                        (combinations_courses_sorted instance s) (-1 # 1) l)
      as [[m l']|] eqn:E; simpl.
    2:{ now rewrite (scan_best_raises _ _ _ _ (-1 # 1) [] E). }
    destruct (scan_best prices initial_budgets instance s
                        (combinations_courses_sorted instance s) (-1 # 1) [])
      as [[m0 l0]|] eqn:E0; simpl.
    2:{ now rewrite (scan_best_raises _ _ _ _ (-1 # 1) l E0) in E. }
    rewrite get_set_same. simpl.
    set (fixed := match l' with [] => [[]] | _ => l' end).
    assert (Hfix : match l' with
                   | [] => set (set d s l') s [[]]
                   | _ :: _ => set d s l'
                   end = set d s fixed).
    { unfold fixed. destruct l'; [apply set_set | reflexivity]. }
    rewrite Hfix.
    assert (Hfixed : fixed <> [] /\ forall b, In b fixed -> priced prices b).
    { unfold fixed. destruct l' as [|b0 l'].
      - split; [discriminate|]. intros b [<-|[]]. apply empty_bundle_priced.
      - split; [discriminate|]. intros b Hb.
        destruct (scan_best_result _ _ _ _ _ _ E b Hb) as [Hin|Hp]; [|exact Hp].
        apply (Hd s l b); [now apply get_Some_In | exact Hin]. }
    assert (Hkeys' : keys (set d s fixed) = keys d).
    { rewrite keys_set_cases.
      assert (Hm : mem s (keys d) = true).
      { apply mem_In, get_In_keys. congruence. }
      now rewrite Hm. }
    specialize (IH (set d s fixed)).
    destruct (best_bundles_loop prices initial_budgets instance students
                                (set d s fixed)) as [d'|];
      destruct (best_combinations_of prices initial_budgets instance students)
      as [entries|]; simpl;
      try (apply IH;
           [now apply keys_set_NoDup
           | intros s' Hs'; apply get_set_defined, Hkeys; now right
           | apply all_priced_set; [exact Hd | apply Hfixed]]).
    destruct IH as (Ek & Hp & Hent).
    + now apply keys_set_NoDup.
    + intros s' Hs'. apply get_set_defined, Hkeys. now right.
    + apply all_priced_set; [exact Hd | apply Hfixed].
    + repeat split; [congruence | exact Hp |].
      intros s0 l1 Hin. destruct (Hent s0 l1 Hin) as [Hne|[Hout Hin']];
        [now left|].
      apply In_set_unique in Hin'; [|exact Hnd].
      destruct Hin' as [[= -> ->]|[Hne Hin']]; [left; apply Hfixed|].
      right. split; [|exact Hin']. intros [<-|Hs0]; [now apply Hne | contradiction].
Qed.

Lemma compute_best_outcome (student : string)
      (entry : string * list (list string)) :
  compute_best_bundles_for_student student instance prices initial_budgets
  = Some entry ->
  fst entry = student
  /\ snd entry <> []
  /\ forall b, In b (snd entry) -> priced prices b.
Proof.
  intros H. split; [now apply (compute_best_key _ _ _ _ _ H)|].
  unfold compute_best_bundles_for_student in H.
  inv_bind H. destruct a as [m l']. injection H as <-. simpl.
  destruct l' as [|b0 l'].
  - split; [discriminate|]. intros b [<-|[]]. apply empty_bundle_priced.
  - split; [discriminate|]. intros b Hb.
    destruct (scan_best_result _ _ _ _ _ _ Hbind b Hb) as [[]|Hp]. exact Hp.
Qed.

(** Joining the futures fills a dictionary with the same keys. *)
Lemma join_futures_outcome (students : list string) :
  forall (d : dict (list (list string))) (d0 : dict (list (list string))),
    keys d = keys d0 ->
    all_priced prices d ->
    all_inhabited d ->
    match join_futures
            (map (fun student =>
                    compute_best_bundles_for_student student instance prices
                                                     initial_budgets)
                 students) d,
          best_combinations_of prices initial_budgets instance students with
    | Some d', Some _ =>
        keys d' = keys (fold_left (fun d1 student => set d1 student [])
                                  students d0)
        /\ all_priced prices d'
        /\ all_inhabited d'
    | None, None => True
    | _, _ => False
    end.
Proof.
  induction students as [|s students IH]; intros d d0 Ek Hd Hne; simpl.
  - repeat split; auto.
  - destruct (compute_best_bundles_for_student s instance prices initial_budgets)
      as [[k l]|] eqn:E; simpl; [|exact I].
    apply compute_best_outcome in E. simpl in E. destruct E as (-> & Hl & Hp).
    specialize (IH (set d s l) (set d0 s [])).
    destruct (join_futures
                (map (fun student =>
                        compute_best_bundles_for_student student instance prices
                                                         initial_budgets)
                     students) (set d s l)) as [d'|];
      destruct (best_combinations_of prices initial_budgets instance students)
      as [entries|]; simpl; apply IH;
      try (now apply keys_set_same_keys);
      try (apply all_priced_set; [exact Hd | exact Hp]);
      try (intros s0 l0 Hin; apply In_set_values in Hin;
           destruct Hin as [[= _ ->]|Hin]; [exact Hl | now apply (Hne s0)]).
Qed.

Lemma build_valid_allocation_raises (pairs : list (string * list string)) :
  (forall s b, In (s, b) pairs -> priced prices b) ->
  forall acc,
    if forallb (has_budget initial_budgets) (map fst pairs)
    then build_valid_allocation prices initial_budgets pairs acc <> None
    else build_valid_allocation prices initial_budgets pairs acc = None.
Proof.
  induction pairs as [|[s b] pairs IH]; intros Hp acc; simpl; [discriminate|].
  assert (Hb : priced prices b) by (apply (Hp s); now left). unfold priced in Hb.
  destruct (bundle_price prices b) as [p|]; [simpl | congruence].
  unfold has_budget at 1.
  destruct (get initial_budgets s) as [bud|]; simpl; [|reflexivity].
  apply IH. intros s' b' Hin. apply (Hp s'). now right.
Qed.

(** Tuples shorter than the list of agents are all dropped. *)
Lemma filter_valid_short (m : nat) (l : list (list (list string))) :
  (m < length (agents instance))%nat ->
  (forall t, In t l -> length t = m /\ forall b, In b t -> priced prices b) ->
  forall acc,
    filter_valid prices initial_budgets instance l acc
    = if forallb (has_budget initial_budgets) (firstn m (agents instance))
      then Some acc
      else match l with [] => Some acc | _ => None end.
Proof.
  intros Hm. induction l as [|t l IH]; intros Hl acc; simpl.
  - now destruct (forallb _ _).
  - destruct (Hl t) as [Hlen Hpriced]; [now left|].
    pose proof (build_valid_allocation_raises
                  (combine (agents instance) t)) as Hraise.
    rewrite map_fst_combine, Hlen in Hraise by lia.
    specialize (Hraise (fun s b Hin => Hpriced b (in_combine_r _ _ _ _ Hin)) []).
    destruct (forallb (has_budget initial_budgets) (firstn m (agents instance)))
      eqn:Eb.
    + destruct (build_valid_allocation prices initial_budgets
                                       (combine (agents instance) t) [])
        as [va|] eqn:Eva; [simpl | congruence].
      destruct (build_valid_allocation_spec _ _ _ _ _ Eva) as [Hle _].
      simpl in Hle. pose proof (length_combine (agents instance) t) as Hc.
      destruct (Nat.eqb_spec (length va) (length (agents instance))); [lia|].
      rewrite IH; [reflexivity|].
      intros t' Ht'. apply Hl. now right.
    + now rewrite Hraise.
Qed.

Lemma collect_valid_allocations_short (d : dict (list (list string))) :
  (length d < length (agents instance))%nat ->
  all_priced prices d ->
  all_inhabited d ->
  collect_valid_allocations prices initial_budgets instance d
  = if forallb (has_budget initial_budgets) (firstn (length d) (agents instance))
    then Some []
    else None.
Proof.
  intros Hlen Hp Hne. unfold collect_valid_allocations.
  rewrite (filter_valid_short (length d)); [|exact Hlen|].
  - destruct (forallb _ _); [reflexivity|].
    destruct (product (values d)) eqn:E; [|reflexivity].
    exfalso. revert E. apply product_inhabited.
    intros l Hl. unfold values in Hl. apply in_map_iff in Hl.
    destruct Hl as ([s l'] & <- & Hin). now apply (Hne s).
  - intros t Ht. split.
    + rewrite (product_length _ t Ht). unfold values. apply length_map.
    + intros b Hb. destruct (product_In _ t Ht b Hb) as (l & Hl & Hbl).
      unfold values in Hl. apply in_map_iff in Hl.
      destruct Hl as ([s l'] & <- & Hin). now apply (Hp s l').
Qed.

Lemma initial_keys (students : list string) :
  forall d : dict (list (list string)),
    NoDup (keys d) ->
    NoDup (keys (fold_left (fun d1 student => set d1 student []) students d))
    /\ forall k, In k (keys (fold_left (fun d1 student => set d1 student [])
                                       students d)) ->
                 In k (keys d) \/ In k students.
Proof.
  induction students as [|s students IH]; intros d Hnd; simpl.
  - split; [exact Hnd | now left].
  - destruct (IH (set d s [])) as [Hnd' Hin]; [now apply keys_set_NoDup|].
    split; [exact Hnd'|]. intros k Hk.
    destruct (Hin k Hk) as [Hk'|Hk']; [|right; now right].
    rewrite keys_set_cases in Hk'. destruct (mem s (keys d)); [now left|].
    apply in_app_or in Hk'. destruct Hk' as [Hk'|[<-|[]]]; [now left|].
    right. now left.
Qed.

(** The dictionary of the sequential function after its loop over all the
    agents. *)
Lemma sequential_candidates :
  match best_bundles_loop prices initial_budgets instance (agents instance)
                          (fold_left (fun d student => set d student [])
                                     (agents instance) []),
        best_combinations_of prices initial_budgets instance (agents instance)
  with
  | Some d, Some _ =>
      keys d = keys (fold_left (fun d student => set d student [])
                               (agents instance)
                               (@nil (string * list (list string))))
      /\ all_priced prices d
      /\ all_inhabited d
  | None, None => True
  | _, _ => False
  end.
Proof.
  set (d0 := fold_left (fun d student => set d student []) (agents instance) []).
  destruct (initial_keys (agents instance) []) as [Hnd0 Hin0]; [constructor|].
  fold d0 in Hnd0, Hin0.
  pose proof (best_bundles_loop_outcome (agents instance) d0 Hnd0) as Hseq.
  assert (Hkeys : forall s, In s (agents instance) -> get d0 s <> None).
  { intros s Hs. unfold d0. rewrite (get_fold_set (fun _ => [])).
    apply mem_In in Hs. rewrite Hs. discriminate. }
  assert (Hp0 : all_priced prices d0).
  { intros s l b Hin Hb. unfold d0 in Hin.
    apply initial_lists_empty in Hin; [subst l; destruct Hb | intros ? ? []]. }
  specialize (Hseq Hkeys Hp0).
  destruct (best_bundles_loop prices initial_budgets instance (agents instance) d0)
    as [d|];
    destruct (best_combinations_of prices initial_budgets instance
                                   (agents instance)) as [entries|];
    try exact Hseq.
  destruct Hseq as (Ek & Hp & Hent). repeat split; auto.
  intros s l Hin. destruct (Hent s l Hin) as [Hne|[Hout Hin']]; [exact Hne|].
  exfalso. apply Hout.
  assert (Hk : In s (keys d0)) by (apply in_map_iff; now exists (s, l)).
  destruct (Hin0 s Hk) as [[]|Hs]. exact Hs.
Qed.

(** An agent listed twice leaves fewer keys than agents. *)
Lemma repeated_agents_fewer_keys :
  ~ NoDup (agents instance) ->
  (length (keys (fold_left (fun d student => set d student [])
                           (agents instance)
                           (@nil (string * list (list string)))))
   < length (agents instance))%nat.
Proof.
  intros Hdup.
  set (d0 := fold_left (fun d student => set d student []) (agents instance) []).
  destruct (initial_keys (agents instance) []) as [Hnd0 Hin0]; [constructor|].
  fold d0 in Hnd0, Hin0.
  assert (Hincl : incl (keys d0) (agents instance)).
  { intros k Hk. destruct (Hin0 k Hk) as [[]|Hk']. exact Hk'. }
  pose proof (NoDup_incl_length Hnd0 Hincl) as Hle.
  destruct (Nat.eq_dec (length (keys d0)) (length (agents instance)))
    as [E|E]; [|lia].
  exfalso. apply Hdup.
  apply (NoDup_incl_NoDup Hnd0); [lia | exact Hincl].
Qed.

(** With an agent listed twice the sequential function keeps no allocation. *)
Lemma repeated_agents_no_allocation (allocations : list (dict (list string))) :
  ~ NoDup (agents instance) ->
  student_best_bundles prices instance initial_budgets = Some allocations ->
  allocations = [].
Proof.
  intros Hdup H. unfold student_best_bundles in H.
  pose proof sequential_candidates as Hseq.
  pose proof (repeated_agents_fewer_keys Hdup) as Hshort.
  inv_bind H. rename a into d. rewrite Hbind in Hseq.
  destruct (best_combinations_of prices initial_budgets instance (agents instance));
    [|destruct Hseq].
  destruct Hseq as (Ek & Hp & Hne).
  rewrite collect_valid_allocations_short in H; auto.
  - destruct (forallb _ _); [now injection H | discriminate H].
  - rewrite <- (length_map fst d). change (map fst d) with (keys d).
    now rewrite Ek.
Qed.

(** With an agent listed twice, both functions drop every allocation or
    raise, together. *)
Lemma repeated_agents_same_outcome :
  ~ NoDup (agents instance) ->
  student_best_bundles_with_threads prices instance initial_budgets
  = student_best_bundles prices instance initial_budgets.
Proof.
  intros Hdup.
  unfold student_best_bundles_with_threads, student_best_bundles.
  pose proof sequential_candidates as Hseq.
  pose proof (repeated_agents_fewer_keys Hdup) as Hshort.
  pose proof (join_futures_outcome (agents instance) [] [] eq_refl) as Hthr.
  destruct (best_bundles_loop prices initial_budgets instance (agents instance) _)
    as [dseq|];
    destruct (join_futures
                (map (fun student =>
                        compute_best_bundles_for_student student instance prices
                                                         initial_budgets)
                     (agents instance)) []) as [dthr|];
    destruct (best_combinations_of prices initial_budgets instance
                                   (agents instance)) as [entries|];
    simpl;
    try reflexivity;
    try (exfalso; exact Hseq);
    try (exfalso; apply Hthr; [intros ? ? ? [] | intros ? ? []]).
  destruct Hseq as (Ekseq & Hpseq & Hneseq).
  destruct Hthr as (Ekthr & Hpthr & Hnethr);
    [intros ? ? ? [] | intros ? ? [] |].
  assert (Hlseq : length dseq = length (keys dseq))
    by (symmetry; apply length_map).
  assert (Hlthr : length dthr = length (keys dthr))
    by (symmetry; apply length_map).
  rewrite (collect_valid_allocations_short dthr),
    (collect_valid_allocations_short dseq); auto.
  - now rewrite Hlthr, Hlseq, Ekthr, Ekseq.
  - now rewrite Hlseq, Ekseq.
  - now rewrite Hlthr, Ekthr.
Qed.
End AnyAgents.

(** C10. [student_best_bundles_with_threads] and [student_best_bundles]
    compute the same function: on the same prices, instance and initial
    budgets they return the same list of allocations, or both raise. *)
Theorem threads_return_the_same_allocations
        (prices : dict Q) (instance : Instance) (initial_budgets : dict Q) :
  student_best_bundles_with_threads prices instance initial_budgets
  = student_best_bundles prices instance initial_budgets.
Proof.
  destruct (NoDup_dec string_dec (agents instance)) as [Hagents|Hrepeated].
  - rewrite student_best_bundles_entries by exact Hagents.
    now apply student_best_bundles_with_threads_entries.
  - now apply repeated_agents_same_outcome.
Qed.

(** ** An agent who can afford nothing *)

Lemma product_combine {B : Type} (d : dict (list B)) :
  forall t s b,
    In t (product (values d)) ->
    In (s, b) (combine (keys d) t) ->
    exists l, In (s, l) d /\ In b l.
Proof.
  induction d as [|[k l] d IH]; intros t s b Ht Hin; simpl in *.
  - destruct Hin.
  - apply in_flat_map in Ht. destruct Ht as (x & Hx & Ht).
    apply in_map_iff in Ht. destruct Ht as (t' & <- & Ht').
    simpl in Hin. destruct Hin as [[= <- <-]|Hin].
    + exists l. split; [now left | exact Hx].
    + destruct (IH t' s b Ht' Hin) as (l' & Hl' & Hb).
      exists l'. split; [now right | exact Hb].
Qed.

Section Unaffordable.
Variables (prices initial_budgets : dict Q) (instance : Instance).

Lemma best_combinations_of_entries (students : list string) :
  forall entries,
    best_combinations_of prices initial_budgets instance students = Some entries ->
    keys entries = students
    /\ forall s l, In (s, l) entries ->
                   best_of prices initial_budgets instance s = Some l.
Proof.
  induction students as [|s students IH]; intros entries H; simpl in H.
  - injection H as <-. split; [reflexivity | intros ? ? []].
  - inv_bind H. rename a into entry. inv_bind H. rename a into rest.
    injection H as <-. destruct (IH rest Hbind0) as [Hk Hl].
    pose proof (compute_best_key _ _ _ _ _ Hbind) as Hfst.
    split.
    + simpl. now rewrite Hfst, Hk.
    + intros s' l' [E|Hin]; [|now apply Hl].
      subst entry. simpl in Hfst. subst s'. unfold best_of. now rewrite Hbind.
Qed.

(** A bundle of a returned allocation comes from its agent's candidates. *)
Lemma allocation_from_candidates (allocations : list (dict (list string)))
      (a : dict (list string)) (student : string) :
  NoDup (agents instance) ->
  student_best_bundles prices instance initial_budgets = Some allocations ->
  In a allocations ->
  In student (agents instance) ->
  exists l b,
    best_of prices initial_budgets instance student = Some l
    /\ In b l
    /\ get a student = Some b.
Proof.
  intros Hnd H Ha Hs.
  rewrite student_best_bundles_entries in H by exact Hnd.
  inv_bind H. rename a0 into entries.
  destruct (best_combinations_of_entries _ _ Hbind) as [Hkeys Hbest].
  unfold collect_valid_allocations in H.
  destruct (filter_valid_spec _ _ _ _ _ _ H a Ha) as [[]|(t & Ht & Hb & Hl)].
  destruct (kept_allocation_valid _ _ _ _ _ Hb Hl) as [_ Hpairs].
  assert (Hcl : length (combine (agents instance) t) = length (agents instance)).
  { destruct (build_valid_allocation_spec _ _ _ _ _ Hb) as [Hle _].
    simpl in Hle. pose proof (length_combine (agents instance) t). lia. }
  destruct (combine_covers _ _ Hcl student Hs) as (b & Hin).
  rewrite <- Hkeys in Hin.
  destruct (product_combine entries t student b Ht Hin) as (l & Hl' & Hbl).
  exists l, b. repeat split; auto.
  apply Hpairs. now rewrite <- Hkeys.
Qed.

(** Nothing is kept when no combination is within the budget. *)
Lemma scan_best_nothing_affordable (student : string)
      (combs : list (list string)) (budget : Q) :
  get initial_budgets student = Some budget ->
  (forall c, In c combs ->
             exists p, bundle_price prices c = Some p /\ ~ p <= budget) ->
  forall m l,
    scan_best prices initial_budgets instance student combs m l = Some (m, l).
Proof.
  intros Hbud. induction combs as [|c combs IH]; intros Hc m l; simpl.
  - reflexivity.
  - destruct (Hc c) as (p & Hp & Hle); [now left|].
    rewrite Hp, Hbud. simpl.
    destruct (Qle_bool p budget) eqn:E.
    + apply Qle_bool_iff in E. contradiction.
    + apply IH. intros c' Hc'. apply Hc. now right.
Qed.

Lemma best_of_nothing_affordable (student : string) (budget : Q) :
  get initial_budgets student = Some budget ->
  (forall c, In c (combinations_courses_list instance student) ->
             exists p, bundle_price prices c = Some p /\ ~ p <= budget) ->
  best_of prices initial_budgets instance student = Some [[]].
Proof.
  intros Hbud Hc. unfold best_of, compute_best_bundles_for_student.
  rewrite (scan_best_nothing_affordable student _ budget Hbud).
  - reflexivity.
  - intros c Hin. apply Hc. unfold combinations_courses_sorted in Hin.
    now apply (Permutation_in c (Permutation_sym (sorted_desc_perm _ _))) in Hin.
Qed.
End Unaffordable.

(** ** The window walk *)

Lemma Qlt_bool_iff (x y : Q) : Qlt_bool x y = true <-> x < y.
Proof.
  unfold Qlt_bool. split.
  - intros H. apply Qnot_le_lt. intros Hle. apply Qle_bool_iff in Hle.
    rewrite Hle in H. discriminate.
  - intros H. destruct (Qle_bool y x) eqn:E; [|reflexivity].
    apply Qle_bool_iff in E. exfalso. now apply (Qlt_not_le x y).
Qed.

Lemma Qle_bool_false (x y : Q) : Qle_bool x y = false <-> ~ x <= y.
Proof.
  rewrite <- Qle_bool_iff. destruct (Qle_bool x y); intuition congruence.
Qed.

Lemma qset_fresh {V : Type} (d : qdict V) (k : Q) (v : V) :
  (forall k' v', In (k', v') d -> ~ k' == k) ->
  qset d k v = d ++ [(k, v)].
Proof.
  induction d as [|[k0 v0] d IH]; intros H; simpl; [reflexivity|].
  destruct (Qeq_bool k0 k) eqn:E.
  - apply Qeq_bool_iff in E. exfalso. apply (H k0 v0); [now left | exact E].
  - rewrite IH; [reflexivity|]. intros k' v' Hin. apply (H k' v'). now right.
Qed.

Lemma below_trans (p q : Q) (min_price : price_bound) :
  p < q -> below q min_price = true -> below p min_price = true.
Proof.
  destruct min_price as [|m]; simpl; [reflexivity|].
  rewrite !Qlt_bool_iff. intros Hpq Hqm. now apply Qlt_trans with q.
Qed.

Section WindowWalk.
Variables (prices : dict Q) (min_budget max_budget : Q).

Lemma walk_invariant_start : walk_invariant min_budget Infinity [].
Proof. intros k c []. Qed.

(** Recording a new price point appends it and keeps the invariant. *)
Lemma walk_invariant_record (min_price : price_bound)
      (best : qdict (list string)) (p : Q) (c : list string) :
  walk_invariant min_budget min_price best ->
  ~ p <= min_budget ->
  below p min_price = true ->
  qset best p c = best ++ [(p, c)]
  /\ walk_invariant min_budget (Finite p) (best ++ [(p, c)]).
Proof.
  intros Hinv Hmin Hbelow. split.
  - apply qset_fresh. intros k' c' Hin Heq.
    destruct (Hinv k' c' Hin) as [_ Hp].
    specialize (Hp p Hbelow). rewrite Heq in Hp. now apply (Qlt_irrefl p).
  - intros k c' Hin. apply in_app_or in Hin.
    destruct Hin as [Hin|[[= <- <-]|[]]].
    + destruct (Hinv k c' Hin) as [Hk Hp]. split; [exact Hk|].
      intros q Hq. simpl in Hq. apply Qlt_bool_iff in Hq.
      apply Qlt_trans with p; [exact Hq | now apply Hp].
    + split; [now apply Qnot_le_lt|].
      intros q Hq. simpl in Hq. now apply Qlt_bool_iff in Hq.
Qed.

(** Recording the stop entry appends it. *)
Lemma walk_stop_record (min_price : price_bound)
      (best : qdict (list string)) (c : list string) :
  walk_invariant min_budget min_price best ->
  qset best min_budget c = best ++ [(min_budget, c)].
Proof.
  intros Hinv. apply qset_fresh. intros k' c' Hin Heq.
  destruct (Hinv k' c' Hin) as [Hk _].
  rewrite Heq in Hk. now apply (Qlt_irrefl min_budget).
Qed.

(** What the walk adds to the student's dictionary, entry by entry. *)
Lemma window_walk_entries (combs : list (list string)) :
  forall min_price best w,
    walk_invariant min_budget min_price best ->
    window_walk prices min_budget max_budget combs min_price best = Some w ->
    exists t,
      w = best ++ t
      /\ forall t1 k c t2,
        t = t1 ++ (k, c) :: t2 ->
        In c combs
        /\ exists pc,
            bundle_price prices c = Some pc
            /\ ((k = min_budget /\ pc <= min_budget /\ t2 = [])
                \/ (k = pc /\ min_budget < pc /\ pc <= max_budget
                    /\ below pc min_price = true
                    /\ forall k' c', In (k', c') t1 -> pc < k')).
Proof.
  induction combs as [|c combs IH]; intros mp best w Hinv H; simpl in H.
  - injection H as <-. exists []. split; [now rewrite app_nil_r|].
    intros [|? ?] ? ? ? E; discriminate E.
  - inv_bind H. rename a into pc.
    assert (Hskip :
              window_walk prices min_budget max_budget combs mp best = Some w ->
              exists t,
                w = best ++ t
                /\ forall t1 k c0 t2,
                  t = t1 ++ (k, c0) :: t2 ->
                  In c0 (c :: combs)
                  /\ exists pc0,
                      bundle_price prices c0 = Some pc0
                      /\ ((k = min_budget /\ pc0 <= min_budget /\ t2 = [])
                          \/ (k = pc0 /\ min_budget < pc0 /\ pc0 <= max_budget
                              /\ below pc0 mp = true
                              /\ forall k' c', In (k', c') t1 -> pc0 < k'))).
    { intros H'. destruct (IH _ _ _ Hinv H') as (t & Et & Ht).
      exists t. split; [exact Et|]. intros t1 k c0 t2 E.
      destruct (Ht t1 k c0 t2 E) as [Hin Hrest]. split; [now right | exact Hrest]. }
    destruct (Qle_bool pc max_budget) eqn:Emax; [|exact (Hskip H)].
    destruct (Qle_bool pc min_budget) eqn:Emin.
    + injection H as <-. rewrite (walk_stop_record mp) by exact Hinv.
      exists [(min_budget, c)]. split; [reflexivity|].
      intros [|x [|y t1]] k c0 t2 E; try discriminate E.
      injection E as <- <- <-. split; [now left|].
      exists pc. split; [exact Hbind|]. left.
      repeat split. now apply Qle_bool_iff.
    + destruct (below pc mp) eqn:Ebelow; [|exact (Hskip H)].
      apply Qle_bool_false in Emin. apply Qle_bool_iff in Emax.
      destruct (walk_invariant_record mp best pc c Hinv Emin Ebelow)
        as [Eset Hinv'].
      rewrite Eset in H.
      destruct (IH _ _ _ Hinv' H) as (t & Et & Ht).
      exists ((pc, c) :: t). split; [now rewrite Et, <- app_assoc|].
      intros [|x t1] k c0 t2 E; simpl in E.
      * injection E as <- <- <-. split; [now left|].
        exists pc. split; [exact Hbind|]. right.
        repeat split; auto; [now apply Qnot_le_lt | intros ? ? []].
      * injection E as <- E.
        destruct (Ht t1 k c0 t2 E) as [Hin (pc0 & Hp0 & Hcase)].
        split; [now right|]. exists pc0. split; [exact Hp0|].
        destruct Hcase as [Hstop|(Hk & Hlo & Hhi & Hb & Hprev)]; [now left|].
        right. simpl in Hb. apply Qlt_bool_iff in Hb.
        repeat split; auto.
        -- now apply below_trans with pc.
        -- intros k' c' [[= <- <-]|Hin']; [exact Hb | now apply (Hprev k' c')].
Qed.

(** The first combination at or below the lower end stops the walk. *)
Lemma window_walk_stops (l1 : list (list string)) (c : list string)
      (l2 : list (list string)) (pc : Q) :
  min_budget <= max_budget ->
  (forall c', In c' l1 ->
              exists p', bundle_price prices c' = Some p' /\ ~ p' <= min_budget) ->
  bundle_price prices c = Some pc ->
  pc <= min_budget ->
  forall min_price best,
    walk_invariant min_budget min_price best ->
    exists w1,
      window_walk prices min_budget max_budget l1 min_price best = Some w1
      /\ window_walk prices min_budget max_budget (l1 ++ c :: l2) min_price best
         = Some (w1 ++ [(min_budget, c)]).
Proof.
  intros Hwin Hl1 Hc Hpc.
  induction l1 as [|c' l1 IH]; intros mp best Hinv; simpl.
  - exists best. split; [reflexivity|]. rewrite Hc. simpl.
    assert (E1 : Qle_bool pc max_budget = true).
    { apply Qle_bool_iff. now apply Qle_trans with min_budget. }
    assert (E2 : Qle_bool pc min_budget = true) by now apply Qle_bool_iff.
    rewrite E1, E2. now rewrite (walk_stop_record mp).
  - destruct (Hl1 c') as (p' & Hp' & Hlo); [now left|].
    assert (Hrest : forall c0, In c0 l1 ->
                               exists p0, bundle_price prices c0 = Some p0
                                          /\ ~ p0 <= min_budget)
      by (intros c0 Hc0; apply Hl1; now right).
    rewrite Hp'. simpl.
    apply Qle_bool_false in Hlo. rewrite Hlo.
    destruct (Qle_bool p' max_budget); [|now apply IH].
    destruct (below p' mp) eqn:Eb; [|now apply IH].
    apply Qle_bool_false in Hlo.
    destruct (walk_invariant_record mp best p' c' Hinv Hlo Eb) as [Eset Hinv'].
    rewrite Eset. now apply IH.
Qed.

(** Nothing is recorded when every combination is above the window. *)
Lemma window_walk_nothing_affordable (combs : list (list string)) :
  (forall c, In c combs ->
             exists p, bundle_price prices c = Some p /\ ~ p <= max_budget) ->
  forall min_price best,
    window_walk prices min_budget max_budget combs min_price best = Some best.
Proof.
  induction combs as [|c combs IH]; intros Hc mp best; simpl; [reflexivity|].
  destruct (Hc c) as (p & Hp & Hhi); [now left|].
  rewrite Hp. simpl. apply Qle_bool_false in Hhi. rewrite Hhi.
  apply IH. intros c' Hc'. apply Hc. now right.
Qed.

Lemma window_walk_total (combs : list (list string)) :
  (forall c, In c combs -> priced prices c) ->
  forall min_price best,
    window_walk prices min_budget max_budget combs min_price best <> None.
Proof.
  induction combs as [|c combs IH]; intros Hc mp best; simpl; [discriminate|].
  assert (Hp : priced prices c) by (apply Hc; now left). unfold priced in Hp.
  assert (Hrest : forall c', In c' combs -> priced prices c')
    by (intros c' Hc'; apply Hc; now right).
  destruct (bundle_price prices c) as [p|]; [simpl | congruence].
  destruct (Qle_bool p max_budget); [|now apply IH].
  destruct (Qle_bool p min_budget); [discriminate|].
  destruct (below p mp); now apply IH.
Qed.
End WindowWalk.

Section WindowLoop.
Variables (prices : dict Q) (instance : Instance) (epsilon : Q)
          (initial_budgets : dict Q).

Lemma window_loop_get (students : list string) :
  forall d d' : dict (qdict (list string)),
    NoDup students ->
    (forall s, In s students -> get d s = Some []) ->
    window_loop prices instance epsilon initial_budgets students d = Some d' ->
    (forall s, In s students ->
               exists w, window_of prices instance epsilon initial_budgets s = Some w
                         /\ get d' s = Some w)
    /\ (forall s, ~ In s students -> get d' s = get d s).
Proof.
  induction students as [|s students IH]; intros d d' Hnd Hd H; simpl in H.
  - injection H as <-. split; [intros ? [] | reflexivity].
  - inversion Hnd as [|? ? Hs Hnd']; subst.
    inv_bind H. rename a into budget. inv_bind H. rename a into best.
    unfold get_default in Hbind0. rewrite (Hd s) in Hbind0 by now left.
    destruct (IH (set d s best) d' Hnd') as [Hin Hout]; [|exact H|].
    { intros s' Hs'. rewrite get_set_other; [apply Hd; now right|].
      intros ->. contradiction. }
    split.
    + intros s' [<-|Hs'].
      * exists best. split.
        -- unfold window_of. now rewrite Hbind.
        -- rewrite (Hout s Hs). apply get_set_same.
      * now apply Hin.
    + intros s' Hs'. rewrite Hout by (intros Hin'; apply Hs'; now right).
      apply get_set_other. intros ->. apply Hs'. now left.
Qed.

Lemma student_best_bundle_per_budget_get
      (result : dict (qdict (list string))) (student : string) :
  NoDup (agents instance) ->
  student_best_bundle_per_budget prices instance epsilon initial_budgets
  = Some result ->
  In student (agents instance) ->
  exists w,
    window_of prices instance epsilon initial_budgets student = Some w
    /\ get result student = Some w.
Proof.
  unfold student_best_bundle_per_budget. intros Hnd H Hs.
  eapply window_loop_get in H; [|exact Hnd|].
  - now apply (proj1 H).
  - intros s Hin.
    pose proof (get_fold_set (fun _ : string => @nil (Q * list string))
                             (agents instance) [] s) as E.
    apply mem_In in Hin. rewrite Hin in E. exact E.
Qed.

Lemma window_combination_priced (student : string) (c : list string) :
  covered prices initial_budgets instance ->
  In c (window_combinations_sorted instance student) -> priced prices c.
Proof.
  intros Hcov Hc. unfold window_combinations_sorted in Hc.
  apply (Permutation_in c (Permutation_sym (sorted_desc_perm _ _))) in Hc.
  apply combinations_courses_list_incl in Hc.
  apply sum_prices_total. intros item Hitem.
  apply (proj1 Hcov). now apply Hc.
Qed.

Lemma window_loop_total (students : list string) :
  covered prices initial_budgets instance ->
  (forall s, In s students -> In s (agents instance)) ->
  forall d,
    window_loop prices instance epsilon initial_budgets students d <> None.
Proof.
  intros Hcov. induction students as [|s students IH]; intros Hs d; simpl.
  - discriminate.
  - assert (Hb : get initial_budgets s <> None)
      by (apply (proj2 Hcov), Hs; now left).
    destruct (get initial_budgets s) as [budget|]; [simpl | congruence].
    match goal with
    | |- context [window_walk ?p ?lo ?hi ?cs ?mp ?b] =>
        pose proof (window_walk_total p lo hi cs
                      (fun c Hc => window_combination_priced s c Hcov Hc) mp b)
          as Hw;
        destruct (window_walk p lo hi cs mp b); [simpl | congruence]
    end.
    apply IH. intros s' Hs'. apply Hs. now right.
Qed.

Lemma student_best_bundle_per_budget_total :
  covered prices initial_budgets instance ->
  student_best_bundle_per_budget prices instance epsilon initial_budgets <> None.
Proof.
  intros Hcov. unfold student_best_bundle_per_budget.
  now apply window_loop_total.
Qed.
(** The dictionary of a student who affords nothing stays empty. *)
Lemma window_loop_keeps_empty (student : string) (budget : Q)
      (students : list string) :
  get initial_budgets student = Some budget ->
  (forall c, In c (window_combinations_sorted instance student) ->
             exists p, bundle_price prices c = Some p
                       /\ ~ p <= budget + epsilon) ->
  forall d d' : dict (qdict (list string)),
    get d student = Some [] ->
    window_loop prices instance epsilon initial_budgets students d = Some d' ->
    get d' student = Some [].
Proof.
  intros Hbudget Hnone.
  induction students as [|s students IH]; intros d d' Hd H; simpl in H.
  - now injection H as <-.
  - inv_bind H. rename a into budget_s. inv_bind H. rename a into best.
    apply (IH _ _) in H; [exact H|].
    destruct (String.eqb_spec s student) as [->|Hne].
    + rewrite Hbudget in Hbind. injection Hbind as <-.
      unfold get_default in Hbind0. rewrite Hd in Hbind0.
      rewrite window_walk_nothing_affordable in Hbind0 by exact Hnone.
      injection Hbind0 as <-. apply get_set_same.
    + now rewrite get_set_other.
Qed.
End WindowLoop.

(** C4, as the code has it.  In window mode the walk over an agent's ranked
    combinations records the first combination priced at or below b-eps under
    the key b-eps, after what the combinations before it recorded, and stops;
    every other recorded entry carries its combination's price as key, a price
    strictly above b-eps, at most b+eps (the upper end included), and strictly
    below every key recorded before it. *)
Theorem window_walk_records
        (prices : dict Q) (instance : Instance) (epsilon : Q)
        (initial_budgets : dict Q) (result : dict (qdict (list string)))
        (student : string) (budget : Q)
        (Hagents : NoDup (agents instance))
        (Hepsilon : 0 <= epsilon)
        (Hresult : student_best_bundle_per_budget prices instance epsilon
                                                  initial_budgets = Some result)
        (Hstudent : In student (agents instance))
        (Hbudget : get initial_budgets student = Some budget) :
  exists w,
    get result student = Some w
    /\ (forall l1 c l2 pc,
           window_combinations_sorted instance student = l1 ++ c :: l2 ->
           (forall c', In c' l1 ->
                       exists p', bundle_price prices c' = Some p'
                                  /\ ~ p' <= budget - epsilon) ->
           bundle_price prices c = Some pc ->
           pc <= budget - epsilon ->
           exists w1,
             w = w1 ++ [(budget - epsilon, c)]
             /\ window_walk prices (budget - epsilon) (budget + epsilon) l1
                            Infinity [] = Some w1)
    /\ (forall w1 k c w2,
           w = w1 ++ (k, c) :: w2 ->
           In c (window_combinations_sorted instance student)
           /\ exists pc,
               bundle_price prices c = Some pc
               /\ ((k = budget - epsilon /\ pc <= budget - epsilon /\ w2 = [])
                   \/ (k = pc
                       /\ budget - epsilon < pc
                       /\ pc <= budget + epsilon
                       /\ forall k' c', In (k', c') w1 -> pc < k'))).
Proof.
  destruct (student_best_bundle_per_budget_get _ _ _ _ _ _ Hagents Hresult Hstudent)
    as (w & Hw & Hget).
  exists w. split; [exact Hget|].
  unfold window_of in Hw. rewrite Hbudget in Hw. simpl in Hw.
  split.
  - intros l1 c l2 pc Hsplit Hl1 Hc Hpc.
    destruct (window_walk_stops prices (budget - epsilon) (budget + epsilon)
                                l1 c l2 pc) with (min_price := Infinity)
                                                 (best := @nil (Q * list string))
      as (w1 & Hw1 & Hfull); auto.
    + apply Qplus_le_r.
      apply Qle_trans with 0; [|exact Hepsilon].
      apply (Qopp_le_compat 0 epsilon) in Hepsilon. exact Hepsilon.
    + apply walk_invariant_start.
    + exists w1. split; [|exact Hw1].
      rewrite <- Hsplit in Hfull. congruence.
  - intros w1 k c w2 Hsplit.
    destruct (window_walk_entries prices (budget - epsilon) (budget + epsilon)
                                  _ _ _ _ (walk_invariant_start _) Hw)
      as (t & Et & Ht).
    simpl in Et. subst t.
    destruct (Ht w1 k c w2 Hsplit) as [Hin (pc & Hpc & Hcase)].
    split; [exact Hin|]. exists pc. split; [exact Hpc|].
    destruct Hcase as [Hstop|(Hk & Hlo & Hhi & _ & Hprev)]; [now left|].
    right. auto.
Qed.

Lemma window_walk_records_witness :
  exists result w,
    student_best_bundle_per_budget [("x", 5 # 2); ("y", 0); ("z", 0)] alice_bob 2
                                   [("Alice", 5); ("Bob", 4)] = Some result
    /\ get result "Bob" = Some w.
Proof.
  destruct (student_best_bundle_per_budget [("x", 5 # 2); ("y", 0); ("z", 0)]
                                           alice_bob 2 [("Alice", 5); ("Bob", 4)])
    as [result|] eqn:E; [|vm_compute in E; discriminate E].
  destruct (window_walk_records [("x", 5 # 2); ("y", 0); ("z", 0)] alice_bob 2
                                [("Alice", 5); ("Bob", 4)] result "Bob" 4)
    as (w & Hget & _).
  - solve_nodup.
  - discriminate.
  - exact E.
  - simpl. auto.
  - reflexivity.
  - exists result, w. split; [reflexivity | exact Hget].
Defined.

(** C4 fails at the upper end of the window: with budget 1 and eps 1/5, the
    course priced 6/5 = b+eps is recorded under its price. *)
Lemma window_upper_end_is_recorded :
  exists result w k c,
    student_best_bundle_per_budget [("x", 6 # 5)] beni_alone (1 # 5) [("beni", 1)]
    = Some result
    /\ get result "beni" = Some w
    /\ In (k, c) w
    /\ bundle_price [("x", 6 # 5)] c = Some k
    /\ ~ k <= 1 - (1 # 5)
    /\ ~ k < 1 + (1 # 5).
Proof.
  exists [("beni", [(0 + (6 # 5), ["x"])])], [(0 + (6 # 5), ["x"])],
         (0 + (6 # 5)), ["x"].
  repeat split.
  - now left.
  - intros H. vm_compute in H. now apply H.
  - intros H. vm_compute in H. discriminate H.
Qed.

(** ** Degraded agents *)

Lemma combination_priced (prices initial_budgets : dict Q) (instance : Instance)
      (student : string) (c : list string) :
  covered prices initial_budgets instance ->
  In c (combinations_courses_list instance student) ->
  exists p, bundle_price prices c = Some p.
Proof.
  intros Hcov Hc. apply combinations_courses_list_incl in Hc.
  assert (H : bundle_price prices c <> None).
  { apply sum_prices_total. intros item Hitem. apply (proj1 Hcov). now apply Hc. }
  destruct (bundle_price prices c) as [p|]; [now exists p | congruence].
Qed.


(** ** The cap on individual-adjustment neighbours *)

Section Adjustment.
Variables (instance : Instance) (history : list (list constraint))
          (initial_budgets : dict Q) (allocation : dict (list string))
          (use_threads : bool).

(** The price steps of one course only append to the list. *)
Lemma raise_price_appends (course : string) (n : nat) :
  forall updated_prices new_neighbors,
    raise_price n instance history initial_budgets allocation use_threads
                course updated_prices new_neighbors
    = option_map (app new_neighbors)
                 (raise_price n instance history initial_budgets allocation
                              use_threads course updated_prices []).
Proof.
  induction n as [|n IH]; intros up nn; simpl.
  - now rewrite app_nil_r.
  - destruct (get up course) as [price|]; simpl; [|reflexivity].
    destruct (is_tabu history (set up course (price + sqrt_half)))
      as [[|]|]; simpl; [apply IH | | reflexivity].
    destruct (if use_threads
              then student_best_bundles_with_threads
                     (set up course (price + sqrt_half)) instance initial_budgets
              else student_best_bundles
                     (set up course (price + sqrt_half)) instance initial_budgets)
      as [new_allocations|]; simpl; [|reflexivity].
    rewrite IH. symmetry. rewrite IH.
    destruct (raise_price n instance history initial_budgets allocation
                          use_threads course
                          (set up course (price + sqrt_half)) [])
      as [batch|]; simpl; [|reflexivity].
    now rewrite app_assoc.
Qed.

Lemma adjust_course_appends (prices : dict Q) (course : string)
      (excess_demand : Z) (new_neighbors : list (dict Q)) :
  adjust_course instance history prices initial_budgets allocation use_threads
                course excess_demand new_neighbors
  = option_map (app new_neighbors)
               (adjust_course instance history prices initial_budgets
                              allocation use_threads course excess_demand []).
Proof.
  unfold adjust_course.
  destruct (Z.eqb excess_demand 0); [simpl; now rewrite app_nil_r|].
  destruct (Z.ltb 0 excess_demand); [apply raise_price_appends|].
  destruct (is_tabu history (set prices course 0)) as [[|]|]; simpl;
    [now rewrite app_nil_r | reflexivity | reflexivity].
Qed.

(** An item in deficit contributes at most one neighbour. *)
Lemma adjust_course_deficit (prices : dict Q) (course : string)
      (excess_demand : Z) (batch : list (dict Q)) :
  (excess_demand < 0)%Z ->
  adjust_course instance history prices initial_budgets allocation use_threads
                course excess_demand [] = Some batch ->
  (length batch <= 1)%nat.
Proof.
  unfold adjust_course. intros Hneg H.
  destruct (Z.eqb_spec excess_demand 0); [lia|].
  destruct (Z.ltb_spec 0 excess_demand); [lia|].
  inv_bind H. injection H as <-. destruct a; simpl; lia.
Qed.

(** The list returned by the loop: either nothing was added, or fewer than
    35 neighbours were there when the last examined entry added its own. *)
Lemma adjustment_loop_last_batch (prices : dict Q) (entries : list (string * Z)) :
  forall new_neighbors res,
    adjustment_loop instance history prices entries initial_budgets allocation
                    use_threads new_neighbors = Some res ->
    res = new_neighbors
    \/ exists before course excess_demand batch,
        In (course, excess_demand) entries
        /\ res = before ++ batch
        /\ (length before < 35)%nat
        /\ adjust_course instance history prices initial_budgets allocation
                         use_threads course excess_demand [] = Some batch.
Proof.
  induction entries as [|[course ed] entries IH]; intros nn res H;
    cbn [adjustment_loop] in H.
  - injection H as <-. now left.
  - destruct (Nat.leb_spec 35 (length nn)) as [Hfull|Hroom].
    + injection H as <-. now left.
    + inv_bind H. rename a into nn1.
      rewrite adjust_course_appends in Hbind.
      destruct (adjust_course instance history prices initial_budgets allocation
                              use_threads course ed []) as [batch|] eqn:E;
        [|discriminate].
      simpl in Hbind. injection Hbind as <-.
      destruct (IH _ _ H) as [->|(before & c & e & b & Hin & -> & Hlen & Hb)].
      * right. exists nn, course, ed, batch. repeat split; auto. now left.
      * right. exists before, c, e, b. repeat split; auto. now right.
Qed.
End Adjustment.

(** C5, as the code has it.  The length of the list is compared with 35 only
    when an entry of the excess-demand vector is about to be examined: the
    list returned by [find_individual_price_adjustment_neighbors] is empty,
    or it is a list of fewer than 35 neighbours followed by the neighbours of
    the last examined entry, at most one if that item is in deficit. *)
Theorem cap_is_tested_between_items
        (instance : Instance) (history : list (list constraint))
        (prices : dict Q) (excess_demand_vector : dict Z)
        (initial_budgets : dict Q) (allocation : dict (list string))
        (use_threads : bool) :
  forall neighbors,
    find_individual_price_adjustment_neighbors
      instance history prices excess_demand_vector initial_budgets allocation
      use_threads = Some neighbors ->
    neighbors = []
    \/ exists before course excess_demand batch,
        In (course, excess_demand) excess_demand_vector
        /\ neighbors = before ++ batch
        /\ (length before < 35)%nat
        /\ adjust_course instance history prices initial_budgets allocation
                         use_threads course excess_demand [] = Some batch
        /\ ((excess_demand < 0)%Z -> (length batch <= 1)%nat).
Proof.
  unfold find_individual_price_adjustment_neighbors. intros neighbors H.
  destruct (adjustment_loop_last_batch _ _ _ _ _ _ _ _ _ H)
    as [->|(before & c & e & b & Hin & -> & Hlen & Hb)]; [now left|].
  right. exists before, c, e, b. repeat split; auto.
  intros Hneg. now apply adjust_course_deficit in Hb.
Qed.

Lemma cap_is_tested_between_items_witness :
  exists neighbors,
    find_individual_price_adjustment_neighbors
      four_courses four_history four_prices four_demand four_budgets
      four_allocation false = Some neighbors
    /\ (neighbors = []
        \/ exists before batch,
            neighbors = before ++ batch /\ (length before < 35)%nat).
Proof.
  destruct (find_individual_price_adjustment_neighbors
              four_courses four_history four_prices four_demand four_budgets
              four_allocation false) as [neighbors|] eqn:E;
    [|vm_compute in E; discriminate E].
  exists neighbors. split; [reflexivity|].
  destruct (cap_is_tested_between_items _ _ _ _ _ _ _ _ E)
    as [->|(before & c & e & b & _ & -> & Hlen & _)]; [now left|].
  right. exists before, b. split; [reflexivity | exact Hlen].
Defined.

(** C5 fails on a state the tabu driver reaches: at unit prices both students
    of [four_courses] take the four courses, every course is over-demanded,
    and each of the four courses contributes ten neighbours. *)
Lemma more_than_35_neighbors :
  student_best_bundles four_prices four_courses four_budgets
  = Some [four_allocation]
  /\ clipped_excess_demand four_courses four_prices four_allocation
     = Some four_demand
  /\ exists neighbors,
      find_individual_price_adjustment_neighbors
        four_courses four_history four_prices four_demand four_budgets
        four_allocation false = Some neighbors
      /\ length neighbors = 40%nat.
Proof.
  split; [vm_compute; reflexivity|]. split; [vm_compute; reflexivity|].
  assert (H : option_map (@length _)
                         (find_individual_price_adjustment_neighbors
                            four_courses four_history four_prices four_demand
                            four_budgets four_allocation false)
              = Some 40%nat) by (vm_compute; reflexivity).
  destruct (find_individual_price_adjustment_neighbors
              four_courses four_history four_prices four_demand four_budgets
              four_allocation false) as [neighbors|]; [|discriminate H].
  exists neighbors. split; [reflexivity|]. injection H as H. exact H.
Qed.

(** ** Prices stay non-negative *)

Lemma max0_non_negative (x : Q) : 0 <= max0 x.
Proof.
  unfold max0. destruct (Qlt_bool 0 x) eqn:E.
  - apply Qlt_bool_iff in E. now apply Qlt_le_weak.
  - apply Qle_refl.
Qed.

Lemma non_negative_set (prices : dict Q) (item : string) (price : Q) :
  non_negative prices -> 0 <= price -> non_negative (set prices item price).
Proof.
  intros Hp Hprice k v Hin. apply In_set_values in Hin.
  destruct Hin as [[= -> ->]|Hin]; [exact Hprice | now apply (Hp k)].
Qed.

Lemma gradient_step_non_negative (d : Q) (prices : dict Q)
      (excess_demand_vector : dict Z) :
  forall updated_prices,
    non_negative updated_prices ->
    non_negative (gradient_step d prices excess_demand_vector updated_prices).
Proof.
  unfold gradient_step.
  induction prices as [|[course price] prices IH]; intros up Hup; simpl.
  - exact Hup.
  - apply IH. apply non_negative_set; [exact Hup | apply max0_non_negative].
Qed.

Lemma gradient_loop_non_negative (prices : dict Q) (excess_demand_vector : dict Z)
      (history : list (list constraint)) (delta : list Q) :
  forall updated_prices new_neighbors res,
    non_negative updated_prices ->
    Forall non_negative new_neighbors ->
    gradient_loop prices delta excess_demand_vector history updated_prices
                  new_neighbors = Some res ->
    Forall non_negative res.
Proof.
  induction delta as [|d delta IH]; intros up nn res Hup Hnn H; simpl in H.
  - now injection H as <-.
  - inv_bind H. rename a into tabu.
    pose proof (gradient_step_non_negative d prices excess_demand_vector up Hup)
      as Hstep.
    apply (IH _ _ _ Hstep) in H; [exact H|].
    destruct tabu; [exact Hnn|].
    apply Forall_app. split; [exact Hnn|]. now constructor.
Qed.

Section AdjustmentPrices.
Variables (instance : Instance) (history : list (list constraint))
          (initial_budgets : dict Q) (allocation : dict (list string))
          (use_threads : bool).

Lemma sqrt_half_non_negative : 0 <= sqrt_half.
Proof. discriminate. Qed.

Lemma raise_price_non_negative (course : string) (n : nat) :
  forall updated_prices new_neighbors res,
    non_negative updated_prices ->
    Forall non_negative new_neighbors ->
    raise_price n instance history initial_budgets allocation use_threads
                course updated_prices new_neighbors = Some res ->
    Forall non_negative res.
Proof.
  induction n as [|n IH]; intros up nn res Hup Hnn H; simpl in H.
  - now injection H as <-.
  - inv_bind H. rename a into price.
    assert (Hup' : non_negative (set up course (price + sqrt_half))).
    { apply non_negative_set; [exact Hup|].
      apply get_Some_In in Hbind. apply Hup in Hbind.
      rewrite <- (Qplus_0_r 0).
      apply Qplus_le_compat; [exact Hbind | apply sqrt_half_non_negative]. }
    inv_bind H. rename a into tabu.
    destruct tabu; [now apply (IH _ _ _ Hup' Hnn H)|].
    inv_bind H. rename a into new_allocations.
    apply (IH _ _ _ Hup') in H; [exact H|].
    apply Forall_app. split; [exact Hnn|].
    apply Forall_forall. intros x Hx. apply in_map_iff in Hx.
    now destruct Hx as (_ & <- & _).
Qed.

Lemma adjustment_loop_non_negative (prices : dict Q)
      (entries : list (string * Z)) :
  non_negative prices ->
  forall new_neighbors res,
    Forall non_negative new_neighbors ->
    adjustment_loop instance history prices entries initial_budgets allocation
                    use_threads new_neighbors = Some res ->
    Forall non_negative res.
Proof.
  intros Hp. induction entries as [|[course ed] entries IH];
    intros nn res Hnn H; cbn [adjustment_loop] in H.
  - now injection H as <-.
  - destruct (Nat.leb 35 (length nn)); [now injection H as <-|].
    inv_bind H. rename a into nn1.
    apply (IH nn1); [|exact H]. clear H IH.
    unfold adjust_course in Hbind.
    destruct (Z.eqb ed 0); [now injection Hbind as <-|].
    destruct (Z.ltb 0 ed).
    + now apply (raise_price_non_negative _ _ _ _ _ Hp Hnn Hbind).
    + inv_bind Hbind. injection Hbind as <-.
      destruct a; [exact Hnn|].
      apply Forall_app. split; [exact Hnn|]. constructor; [|constructor].
      apply non_negative_set; [exact Hp | apply Qle_refl].
Qed.
End AdjustmentPrices.

Lemma update_prices_non_negative (delta : Q) (excess_demand_per_course : dict Q)
      (ks : list string) :
  0 <= delta ->
  non_negative excess_demand_per_course ->
  forall prices prices',
    non_negative prices ->
    update_prices ks prices delta excess_demand_per_course = Some prices' ->
    non_negative prices'.
Proof.
  intros Hd Hz. induction ks as [|k ks IH]; intros prices prices' Hp H; simpl in H.
  - now injection H as <-.
  - inv_bind H. rename a into p. inv_bind H. rename a into z.
    apply (IH _ _) in H; [exact H|].
    apply non_negative_set; [exact Hp|].
    apply get_Some_In in Hbind, Hbind0. apply Hp in Hbind. apply Hz in Hbind0.
    rewrite <- (Qplus_0_r 0). apply Qplus_le_compat; [exact Hbind|].
    now apply Qmult_le_0_compat.
Qed.

(** C2, as the code has it.  Every price vector produced by
    [find_gradient_neighbors] is non-negative (each price is clamped at zero);
    every price vector produced by [find_individual_price_adjustment_neighbors]
    from non-negative prices is non-negative; the ACEEI update
    [price += delta * excess_demand] carries no clamp: it keeps non-negative
    prices non-negative when [delta] and the excess demand of every item are
    non-negative. *)
Theorem price_vectors_stay_non_negative :
  (forall prices delta excess_demand_vector history neighbors,
      find_gradient_neighbors prices delta excess_demand_vector history
      = Some neighbors ->
      Forall non_negative neighbors)
  /\ (forall instance history prices excess_demand_vector initial_budgets
             allocation use_threads neighbors,
         non_negative prices ->
         find_individual_price_adjustment_neighbors
           instance history prices excess_demand_vector initial_budgets
           allocation use_threads = Some neighbors ->
         Forall non_negative neighbors)
  /\ (forall prices delta excess_demand_per_course prices',
         non_negative prices ->
         0 <= delta ->
         non_negative excess_demand_per_course ->
         price_update prices delta excess_demand_per_course = Some prices' ->
         non_negative prices').
Proof.
  split; [|split].
  - intros prices delta edv history neighbors H.
    unfold find_gradient_neighbors in H.
    apply (gradient_loop_non_negative _ _ _ _ _ _ _) in H; auto.
    intros k v [].
  - intros instance history prices edv budgets allocation use_threads neighbors
           Hp H.
    unfold find_individual_price_adjustment_neighbors in H.
    now apply (adjustment_loop_non_negative _ _ _ _ _ _ _ Hp []) in H.
  - intros prices delta z prices' Hp Hd Hz H.
    unfold price_update in H.
    now apply (update_prices_non_negative delta z _ Hd Hz prices prices' Hp H).
Qed.

Lemma price_vectors_stay_non_negative_witness :
  (exists neighbors,
      find_gradient_neighbors [("x", 1); ("y", 2); ("z", 1)] [1]
                              [("x", 0%Z); ("y", 2%Z); ("z", (-2)%Z)] []
      = Some neighbors
      /\ Forall non_negative neighbors)
  /\ (exists neighbors,
         find_individual_price_adjustment_neighbors
           four_courses four_history four_prices four_demand four_budgets
           four_allocation false = Some neighbors
         /\ Forall non_negative neighbors)
  /\ (exists prices',
         price_update [("x", 0)] (1 # 2) [("x", 1)] = Some prices'
         /\ non_negative prices').
Proof.
  destruct price_vectors_stay_non_negative as (Hgradient & Hadjust & Hupdate).
  split; [|split].
  - eexists. split; [vm_compute; reflexivity|].
    apply (Hgradient [("x", 1); ("y", 2); ("z", 1)] [1]
                     [("x", 0%Z); ("y", 2%Z); ("z", (-2)%Z)] []).
    vm_compute. reflexivity.
  - destruct (find_individual_price_adjustment_neighbors
                four_courses four_history four_prices four_demand four_budgets
                four_allocation false) as [neighbors|] eqn:E;
      [|vm_compute in E; discriminate E].
    exists neighbors. split; [reflexivity|].
    apply (Hadjust _ _ _ _ _ _ _ _) in E; [exact E|].
    intros k v Hin. simpl in Hin.
    repeat (destruct Hin as [[= <- <-]|Hin]; [discriminate|]). destruct Hin.
  - eexists. split; [vm_compute; reflexivity|].
    apply (Hupdate [("x", 0)] (1 # 2) [("x", 1)]).
    + intros k v [[= <- <-]|[]]. discriminate.
    + discriminate.
    + intros k v [[= <- <-]|[]]. discriminate.
    + vm_compute. reflexivity.
Defined.

(** C2 fails for the ACEEI update: a course priced 1/2 with excess demand -2
    and step 1/2 ends at price -1/2. *)
Lemma aceei_update_goes_negative :
  non_negative [("x", 1 # 2)]
  /\ exists prices',
    price_update [("x", 1 # 2)] (1 # 2) [("x", -2 # 1)] = Some prices'
    /\ ~ non_negative prices'.
Proof.
  split.
  - intros k v [[= <- <-]|[]]. discriminate.
  - eexists. split; [vm_compute; reflexivity|].
    intros H. specialize (H "x" _ (or_introl eq_refl)).
    vm_compute in H. now apply H.
Qed.

(** ** The predicates of [find_all_equivalent_prices] *)

Section EquivalentPrices.
Variables (instance : Instance) (initial_budgets : dict Q)
          (allocation : dict (list string)).

Lemma budget_constraints_spec (students : list string) :
  forall acc fs,
    budget_constraints allocation students acc = Some fs ->
    exists ks,
      fs = acc ++ ks
      /\ forall s, In s students ->
                   exists keys,
                     get allocation s = Some keys
                     /\ In {| pred_agent := s; pred_keys := keys;
                              pred_kind := AtMost |} ks.
Proof.
  induction students as [|s students IH]; intros acc fs H; simpl in H.
  - injection H as <-. exists []. split; [now rewrite app_nil_r | intros ? []].
  - inv_bind H. rename a into keys.
    destruct (IH _ _ H) as (ks & -> & Hks).
    eexists. split; [now rewrite <- app_assoc|].
    intros s' [<-|Hs'].
    + exists keys. split; [exact Hbind | now left].
    + destruct (Hks s' Hs') as (keys' & Hget & Hin).
      exists keys'. split; [exact Hget | now right].
Qed.

(** Every predicate added for a student is the same one: "the price of the
    student's own bundle is above the budget". *)
Lemma scan_alternatives_spec (student : string) (alloc_student : list string)
      (original_utility : Q) (combs : list (list string)) :
  forall current_alloc acc,
  exists n,
    scan_alternatives instance student alloc_student original_utility combs
                      current_alloc acc
    = acc ++ repeat {| pred_agent := student; pred_keys := alloc_student;
                       pred_kind := Above |} n.
Proof.
  induction combs as [|c combs IH]; intros cur acc; simpl.
  - exists 0%nat. simpl. now rewrite app_nil_r.
  - destruct (bundle_eqb (sorted_str c) (sorted_str alloc_student)); [apply IH|].
    destruct (cur && Nat.eqb (length (sorted_str c))
                             (length (sorted_str alloc_student)));
      [apply IH|].
    destruct (Qle_bool original_utility (agent_bundle_value instance student c));
      [|apply IH].
    match goal with
    | |- context [scan_alternatives _ _ _ _ _ ?c0 ?a0] =>
        destruct (IH c0 a0) as (n & ->)
    end.
    exists (S n). now rewrite <- app_assoc.
Qed.

Lemma improvement_constraints_spec (students : list string) :
  forall acc fs,
    improvement_constraints instance allocation students acc = Some fs ->
    exists ks,
      fs = acc ++ ks
      /\ forall f, In f ks ->
                   pred_kind f = Above
                   /\ In (pred_agent f) students
                   /\ get allocation (pred_agent f) = Some (pred_keys f).
Proof.
  induction students as [|s students IH]; intros acc fs H; simpl in H.
  - injection H as <-. exists []. split; [now rewrite app_nil_r | intros ? []].
  - inv_bind H. rename a into keys.
    match type of H with
    | context [scan_alternatives _ _ _ ?u ?cs ?cur ?a0] =>
        destruct (scan_alternatives_spec s keys u cs cur a0) as (n & E)
    end.
    rewrite E in H. destruct (IH _ _ H) as (ks & -> & Hks).
    eexists. split; [now rewrite <- app_assoc|].
    intros f Hf. apply in_app_or in Hf. destruct Hf as [Hf|Hf].
    + apply repeat_spec in Hf. subst f. simpl.
      repeat split; [now left | exact Hbind].
    + destruct (Hks f Hf) as (Hk & Hin & Hget).
      repeat split; [exact Hk | now right | exact Hget].
Qed.

Lemma eval_all_In (fs : list predicate) (p : dict Q) :
  forall bs,
    eval_all initial_budgets fs p = Some bs ->
    forall f, In f fs ->
              exists b, eval_predicate initial_budgets f p = Some b /\ In b bs.
Proof.
  induction fs as [|f0 fs IH]; intros bs H f Hf; simpl in H; [destruct Hf|].
  inv_bind H. rename a into b0. inv_bind H. rename a into bs0.
  injection H as <-. destruct Hf as [<-|Hf].
  - exists b0. split; [exact Hbind | now left].
  - destruct (IH _ Hbind0 f Hf) as (b & Hb & Hin).
    exists b. split; [exact Hb | now right].
Qed.

(** Once a predicate of the second family is generated, no price vector
    makes all the generated predicates true: it is the negation of the
    student's predicate of the first family. *)
Lemma second_family_contradicts_first (fs : list predicate) (f : predicate)
      (p : dict Q) (bs : list bool) :
  find_all_equivalent_prices instance initial_budgets allocation = Some fs ->
  In f fs ->
  pred_kind f = Above ->
  eval_all initial_budgets fs p = Some bs ->
  In false bs.
Proof.
  unfold find_all_equivalent_prices. intros H Hf Hkind Heval.
  inv_bind H. rename a into first.
  destruct (budget_constraints_spec _ _ _ Hbind) as (ks1 & E1 & Hks1).
  simpl in E1. subst ks1.
  destruct (improvement_constraints_spec _ _ _ H) as (ks2 & -> & Hks2).
  assert (Hf2 : In f ks2).
  { apply in_app_or in Hf. destruct Hf as [Hf|Hf]; [|exact Hf].
    exfalso. clear - Hbind Hf Hkind.
    assert (G : forall students acc fs0,
               budget_constraints allocation students acc = Some fs0 ->
               (forall g, In g acc -> pred_kind g = AtMost) ->
               forall g, In g fs0 -> pred_kind g = AtMost).
    { induction students as [|s students IHs]; intros acc fs0 H0 Hacc g Hg;
        simpl in H0.
      - injection H0 as <-. now apply Hacc.
      - inv_bind H0. apply (IHs _ _ H0); [|exact Hg].
        intros g' Hg'. apply in_app_or in Hg'.
        destruct Hg' as [Hg'|[<-|[]]]; [now apply Hacc | reflexivity]. }
    rewrite (G _ _ _ Hbind (fun g (Hg : In g []) => match Hg with end) f Hf)
      in Hkind.
    discriminate. }
  destruct (Hks2 f Hf2) as (_ & Hagent & Hget).
  destruct (Hks1 _ Hagent) as (keys & Hget' & Hg).
  rewrite Hget in Hget'. injection Hget' as <-.
  destruct (eval_all_In _ _ _ Heval f Hf) as (bf & Ebf & Hbf).
  destruct (eval_all_In _ _ _ Heval _ (in_or_app _ _ _ (or_introl Hg)))
    as (bg & Ebg & Hbg).
  unfold eval_predicate in Ebf, Ebg. simpl in Ebg. rewrite Hkind in Ebf.
  destruct (bundle_price p (pred_keys f)) as [total|]; [|discriminate].
  destruct (get initial_budgets (pred_agent f)) as [budget|]; [|discriminate].
  simpl in Ebf, Ebg. injection Ebf as <-. injection Ebg as <-.
  unfold Qlt_bool in Hbf. destruct (Qle_bool total budget); assumption.
Qed.
End EquivalentPrices.

(** C1 on a state the tabu driver reaches.  With one seat, values x:5 y:3,
    budget 2 and prices x:3 y:1, the best affordable bundle of A is (y).  For
    the alternative (x), of higher value, the code generates "price of (y) >
    budget" instead of "price of (x) > budget": fed the same prices, the
    generated predicates evaluate to [true; false], while the predicate on
    the alternative's own price holds. *)
Theorem equivalent_prices_reject_their_own_prices :
  student_best_bundles [("x", 3); ("y", 1)] one_student [("A", 2)]
  = Some [[("A", ["y"])]]
  /\ find_all_equivalent_prices one_student [("A", 2)] [("A", ["y"])]
     = Some [{| pred_agent := "A"; pred_keys := ["y"]; pred_kind := AtMost |};
             {| pred_agent := "A"; pred_keys := ["y"]; pred_kind := Above |}]
  /\ eval_all [("A", 2)]
              [{| pred_agent := "A"; pred_keys := ["y"]; pred_kind := AtMost |};
               {| pred_agent := "A"; pred_keys := ["y"]; pred_kind := Above |}]
              [("x", 3); ("y", 1)]
     = Some [true; false]
  /\ eval_predicate [("A", 2)]
                    {| pred_agent := "A"; pred_keys := ["x"]; pred_kind := Above |}
                    [("x", 3); ("y", 1)]
     = Some true.
Proof.
  repeat split.
Qed.


(** * Further properties of the code *)

(** ** [differ_in_one_value] *)

Lemma bundle_eqb_eq (b1 b2 : list string) : bundle_eqb b1 b2 = true <-> b1 = b2.
Proof.
  revert b2. induction b1 as [|x b1 IH]; intros [|y b2]; simpl;
    try (split; [discriminate | discriminate]); [tauto|].
  rewrite andb_true_iff, IH, String.eqb_eq. split.
  - intros [-> ->]. reflexivity.
  - intros [= -> ->]. auto.
Qed.

Lemma differ_scan_spec (original_allocation new_allocation : dict (list string))
      (course : string) (ks : list string) :
  (forall diff_course,
      differ_scan original_allocation new_allocation course ks 0 diff_course = true
      <-> exists key,
        filter (changed original_allocation new_allocation) ks = [key]
        /\ mem course (get_default original_allocation key []) = true
        /\ mem course (get_default new_allocation key []) = false)
  /\ (forall key,
         differ_scan original_allocation new_allocation course ks 1 (Some key)
         = true
         <-> filter (changed original_allocation new_allocation) ks = []
             /\ mem course (get_default original_allocation key []) = true
             /\ mem course (get_default new_allocation key []) = false).
Proof.
  induction ks as [|k ks [IH0 IH1]]; simpl.
  - split.
    + intros dc. split; [discriminate | intros (key & E & _); discriminate E].
    + intros key. rewrite andb_true_iff, negb_true_iff. tauto.
  - assert (Hc : changed original_allocation new_allocation k
                 = match get original_allocation k, get new_allocation k with
                   | Some b_old, Some b_new => negb (bundle_eqb b_old b_new)
                   | _, _ => false
                   end) by reflexivity.
    destruct (get original_allocation k) as [bo|];
      [destruct (get new_allocation k) as [bn|]|];
      try (rewrite Hc; split; [intros dc; apply IH0 | intros key; apply IH1]).
    rewrite Hc. destruct (negb (bundle_eqb bo bn)); simpl.
    + split.
      * intros dc. rewrite IH1. split.
        -- intros (E & H1 & H2). exists k. now rewrite E.
        -- intros (key & [= <- E] & H1 & H2). auto.
      * intros key. split; [discriminate | intros (E & _); discriminate E].
    + split; [intros dc; apply IH0 | intros key; apply IH1].
Qed.

(** X1. [differ_in_one_value] answers [True] exactly when one single agent
    of the original allocation has a different bundle in the new one, the
    course is in that agent's original bundle and is not in its new bundle;
    agents missing from the new allocation do not count.  In particular an
    allocation never differs in one value from itself. *)
Theorem differ_in_one_value_spec
        (original_allocation new_allocation : dict (list string))
        (course : string) :
  (differ_in_one_value original_allocation new_allocation course = true
   <-> exists key,
      filter (changed original_allocation new_allocation)
             (keys original_allocation) = [key]
      /\ mem course (get_default original_allocation key []) = true
      /\ mem course (get_default new_allocation key []) = false)
  /\ differ_in_one_value original_allocation original_allocation course = false.
Proof.
  split.
  - apply (proj1 (differ_scan_spec _ _ _ _)).
  - destruct (differ_in_one_value original_allocation original_allocation course)
      eqn:E; [|reflexivity].
    apply (proj1 (differ_scan_spec _ _ _ _)) in E.
    destruct E as (key & E & _). exfalso.
    assert (Hin : In key (filter (changed original_allocation original_allocation)
                                 (keys original_allocation)))
      by (rewrite E; now left).
    apply filter_In in Hin. destruct Hin as [_ Hc]. unfold changed in Hc.
    destruct (get original_allocation key) as [b|]; [|discriminate].
    assert (Hb : bundle_eqb b b = true) by now apply bundle_eqb_eq.
    rewrite Hb in Hc. discriminate.
Qed.

(** ** The best bundles of one student *)

Lemma Qlt_bool_false (x y : Q) : Qlt_bool x y = false <-> y <= x.
Proof.
  unfold Qlt_bool. rewrite negb_false_iff. apply Qle_bool_iff.
Qed.

Lemma Qeq_bool_false_lt (x y : Q) : x < y -> Qeq_bool x y = false.
Proof.
  intros H. destruct (Qeq_bool x y) eqn:E; [|reflexivity].
  apply Qeq_bool_iff in E. rewrite E in H. now apply Qlt_irrefl in H.
Qed.

Section BestBundles.
Variables (prices initial_budgets : dict Q) (instance : Instance)
          (student : string).

(** The scan keeps the running maximum of the values of the affordable
    combinations, and the affordable combinations that reach it. *)
Lemma scan_best_filter (combs : list (list string)) :
  forall m l m' l',
    scan_best prices initial_budgets instance student combs m l = Some (m', l') ->
    m <= m'
    /\ (forall c, In c combs ->
                  affordable prices initial_budgets student c = true ->
                  agent_bundle_value instance student c <= m')
    /\ (m' == m
        \/ exists c, In c combs
                     /\ affordable prices initial_budgets student c = true
                     /\ agent_bundle_value instance student c == m')
    /\ l' = (if Qlt_bool m m' then [] else l)
              ++ best_at prices initial_budgets instance student m' combs.
Proof.
  induction combs as [|c combs IH]; intros m l m' l' H; simpl in H.
  - injection H as <- <-. repeat split.
    + apply Qle_refl.
    + intros c [].
    + left. reflexivity.
    + assert (E : Qlt_bool m m = false) by (apply Qlt_bool_false, Qle_refl).
      rewrite E. simpl. now rewrite app_nil_r.
  - inv_bind H. rename a into pc. inv_bind H. rename a into bud.
    assert (Haff : affordable prices initial_budgets student c = Qle_bool pc bud).
    { unfold affordable. now rewrite Hbind, Hbind0. }
    unfold best_at. simpl. rewrite Haff. fold (best_at prices initial_budgets
                                                       instance student m' combs).
    set (v := agent_bundle_value instance student c) in *.
    destruct (Qle_bool pc bud) eqn:Epc.
    + destruct (Qle_bool m v) eqn:Emv.
      * apply Qle_bool_iff in Emv.
        apply IH in H. destruct H as (Hle & Hbound & Hatt & ->).
        assert (Hmm' : m <= m') by now apply Qle_trans with v.
        split; [exact Hmm'|]. split.
        { intros c' [<-|Hc'] Hc'a; [exact Hle | now apply Hbound]. }
        split.
        { right. destruct Hatt as [E|(c' & Hin & Ha & E)].
          - exists c. repeat split; [now left | now rewrite Haff | now symmetry].
          - exists c'. repeat split; [now right | exact Ha | exact E]. }
        destruct (Qlt_bool v m') eqn:Evm'.
        -- apply Qlt_bool_iff in Evm'.
           rewrite (Qeq_bool_false_lt _ _ Evm'). simpl.
           assert (E : Qlt_bool m m' = true).
           { apply Qlt_bool_iff. now apply Qle_lt_trans with v. }
           now rewrite E.
        -- apply Qlt_bool_false in Evm'.
           assert (Eq : v == m') by now apply Qle_antisym.
           assert (E : Qeq_bool v m' = true) by now apply Qeq_bool_iff.
           rewrite E. simpl.
           assert (E2 : Qlt_bool m m' = Qlt_bool m v).
           { unfold Qlt_bool. f_equal.
             destruct (Qle_bool v m) eqn:E1, (Qle_bool m' m) eqn:E2;
               try reflexivity.
             - apply Qle_bool_iff in E1. apply Qle_bool_false in E2.
               exfalso. apply E2. now rewrite <- Eq.
             - apply Qle_bool_iff in E2. apply Qle_bool_false in E1.
               exfalso. apply E1. now rewrite Eq. }
           rewrite E2. now rewrite <- app_assoc.
      * apply Qle_bool_false in Emv. apply Qnot_le_lt in Emv.
        apply IH in H. destruct H as (Hle & Hbound & Hatt & ->).
        assert (Hvm' : v < m') by now apply Qlt_le_trans with m.
        split; [exact Hle|]. split.
        { intros c' [<-|Hc'] Hc'a; [now apply Qlt_le_weak | now apply Hbound]. }
        split.
        { destruct Hatt as [E|(c' & Hin & Ha & E)]; [now left|].
          right. exists c'. repeat split; [now right | exact Ha | exact E]. }
        now rewrite (Qeq_bool_false_lt _ _ Hvm').
    + simpl. apply IH in H. destruct H as (Hle & Hbound & Hatt & ->).
      split; [exact Hle|]. split.
      { intros c' [<-|Hc'] Hc'a; [congruence | now apply Hbound]. }
      split; [|reflexivity].
      destruct Hatt as [E|(c' & Hin & Ha & E)]; [now left|].
      right. exists c'. repeat split; [now right | exact Ha | exact E].
Qed.

Lemma best_at_In (m : Q) (combs : list (list string)) (c : list string) :
  In c (best_at prices initial_budgets instance student m combs)
  <-> In c combs
      /\ affordable prices initial_budgets student c = true
      /\ agent_bundle_value instance student c == m.
Proof.
  unfold best_at. rewrite filter_In, andb_true_iff, Qeq_bool_iff. tauto.
Qed.
End BestBundles.

(** When it returns, [compute_best_bundles_for_student] returns the
    student with a maximum [M] >= -1 of the values of the affordable
    combinations: the list holds, in ranking order, exactly the affordable
    combinations of value [M], all the ties; when there is none, no affordable
    combination has a value of -1 or more and the list is the single empty
    bundle. *)
Lemma best_candidates_spec
        (student : string) (instance : Instance) (prices initial_budgets : dict Q)
        (entry : string * list (list string))
        (Hentry : compute_best_bundles_for_student student instance prices
                                                   initial_budgets = Some entry) :
  fst entry = student
  /\ exists M,
    -1 <= M
    /\ (forall c, In c (combinations_courses_list instance student) ->
                  affordable prices initial_budgets student c = true ->
                  agent_bundle_value instance student c <= M)
    /\ ((best_at prices initial_budgets instance student M
                 (combinations_courses_sorted instance student) <> []
         /\ snd entry = best_at prices initial_budgets instance student M
                                (combinations_courses_sorted instance student))
        \/ (snd entry = [[]]
            /\ forall c, In c (combinations_courses_list instance student) ->
                         affordable prices initial_budgets student c = true ->
                         agent_bundle_value instance student c < -1)).
Proof.
  split; [now apply (compute_best_key _ _ _ _ _ Hentry)|].
  unfold compute_best_bundles_for_student in Hentry.
  inv_bind Hentry. destruct a as [M l]. injection Hentry as <-. simpl.
  apply scan_best_filter in Hbind. destruct Hbind as (Hle & Hbound & Hatt & ->).
  assert (Hsorted : forall c, In c (combinations_courses_list instance student) ->
                              In c (combinations_courses_sorted instance student)).
  { intros c Hc. unfold combinations_courses_sorted.
    now apply (Permutation_in c (sorted_desc_perm _ _)). }
  exists M. split; [exact Hle|]. split; [intros c Hc; apply Hbound; auto|].
  assert (El : (if Qlt_bool (-1 # 1) M then [] else [])
                 ++ best_at prices initial_budgets instance student M
                            (combinations_courses_sorted instance student)
               = best_at prices initial_budgets instance student M
                         (combinations_courses_sorted instance student))
    by now destruct (Qlt_bool (-1 # 1) M).
  rewrite El.
  destruct (best_at prices initial_budgets instance student M
                    (combinations_courses_sorted instance student))
    as [|b bs] eqn:Eb.
  - right. split; [reflexivity|]. intros c Hc Ha.
    apply Qnot_le_lt. intros Hge.
    assert (Hin : In c (best_at prices initial_budgets instance student M
                                (combinations_courses_sorted instance student))).
    { apply best_at_In. split; [now apply Hsorted|]. split; [exact Ha|].
      destruct Hatt as [E|(c' & Hc' & Ha' & E)].
      - apply Qle_antisym; [now apply Hbound; auto | now rewrite E].
      - exfalso. assert (Hin' : In c' (best_at prices initial_budgets instance
                                              student M
                                              (combinations_courses_sorted
                                                 instance student)))
          by (apply best_at_In; auto).
        rewrite Eb in Hin'. destruct Hin'. }
    rewrite Eb in Hin. destruct Hin.
  - left. split; [discriminate | reflexivity].
Qed.

(** X2. When it returns, [compute_best_bundles_for_student] returns the
    student with a list of bundles.  Where some affordable combination has a
    value of -1 or more, the list is not empty and holds, in ranking order,
    exactly the affordable combinations whose value is the greatest
    affordable value [M], all the ties.  Where every affordable combination
    has a value below -1, and so where none is affordable, the list is the
    single empty bundle. *)
Theorem compute_best_bundles_keeps_all_maximal
        (student : string) (instance : Instance) (prices initial_budgets : dict Q)
        (entry : string * list (list string))
        (Hentry : compute_best_bundles_for_student student instance prices
                                                   initial_budgets = Some entry) :
  fst entry = student
  /\ ((exists c, In c (combinations_courses_list instance student)
                 /\ affordable prices initial_budgets student c = true
                 /\ -1 <= agent_bundle_value instance student c) ->
      exists M,
        (forall c, In c (combinations_courses_list instance student) ->
                   affordable prices initial_budgets student c = true ->
                   agent_bundle_value instance student c <= M)
        /\ snd entry <> []
        /\ snd entry = best_at prices initial_budgets instance student M
                               (combinations_courses_sorted instance student))
  /\ ((forall c, In c (combinations_courses_list instance student) ->
                 affordable prices initial_budgets student c = true ->
                 agent_bundle_value instance student c < -1) ->
      snd entry = [[]]).
Proof.
  destruct (best_candidates_spec student instance prices initial_budgets entry
                                 Hentry)
    as (Hfst & M & HM & Hbound & Hcase).
  split; [exact Hfst|]. split.
  - intros (c & Hc & Ha & Hv).
    destruct Hcase as [[Hne El]|[_ Hnone]].
    + exists M. split; [exact Hbound|]. split; [now rewrite El | exact El].
    + exfalso. apply (Qlt_not_le _ _ (Hnone c Hc Ha)). exact Hv.
  - intros Hnone. destruct Hcase as [[Hne _]|[El _]]; [|exact El].
    exfalso.
    destruct (best_at prices initial_budgets instance student M
                      (combinations_courses_sorted instance student))
      as [|b bs] eqn:Eb; [now apply Hne|].
    assert (Hb : In b (best_at prices initial_budgets instance student M
                               (combinations_courses_sorted instance student)))
      by (rewrite Eb; now left).
    apply best_at_In in Hb. destruct Hb as (Hin & Ha & Ev).
    unfold combinations_courses_sorted in Hin.
    apply (Permutation_in b (Permutation_sym (sorted_desc_perm _ _))) in Hin.
    apply (Qlt_not_le _ _ (Hnone b Hin Ha)). now rewrite Ev.
Qed.

Lemma compute_best_bundles_keeps_all_maximal_witness :
  (exists entry M,
      compute_best_bundles_for_student
        "Eve" alice_bob_eve [("x", 1); ("y", 2); ("z", 1)]
        [("Alice", 5); ("Bob", 4); ("Eve", 3)] = Some entry
      /\ snd entry <> []
      /\ snd entry = best_at [("x", 1); ("y", 2); ("z", 1)]
                             [("Alice", 5); ("Bob", 4); ("Eve", 3)]
                             alice_bob_eve "Eve" M
                             (combinations_courses_sorted alice_bob_eve "Eve"))
  /\ exists entry,
      compute_best_bundles_for_student "beni" beni_alone [("x", 2)] [("beni", 1)]
      = Some entry
      /\ snd entry = [[]].
Proof.
  split.
  - destruct (compute_best_bundles_for_student
                "Eve" alice_bob_eve [("x", 1); ("y", 2); ("z", 1)]
                [("Alice", 5); ("Bob", 4); ("Eve", 3)]) as [entry|] eqn:E;
      [|vm_compute in E; discriminate E].
    destruct (compute_best_bundles_keeps_all_maximal _ _ _ _ _ E)
      as (_ & Hbest & _).
    destruct Hbest as (M & _ & Hne & El).
    + exists ["y"; "z"]. split; [simpl; auto 10|].
      split; [reflexivity | vm_compute; discriminate].
    + exists entry, M. split; [reflexivity|]. split; [exact Hne | exact El].
  - destruct (compute_best_bundles_for_student "beni" beni_alone [("x", 2)]
                                               [("beni", 1)]) as [entry|] eqn:E;
      [|vm_compute in E; discriminate E].
    destruct (compute_best_bundles_keeps_all_maximal _ _ _ _ _ E)
      as (_ & _ & Hnone).
    exists entry. split; [reflexivity|]. apply Hnone.
    intros c [<-|[]] Ha. vm_compute in Ha. discriminate Ha.
Defined.

(** ** The bundles of the returned allocations *)

Lemma combinations_length {A : Type} (l : list A) :
  forall r c, In c (combinations l r) -> length c = r.
Proof.
  induction l as [|x l IH]; intros [|r] c Hc; simpl in Hc.
  - destruct Hc as [<-|[]]. reflexivity.
  - destruct Hc.
  - destruct Hc as [<-|[]]. reflexivity.
  - apply in_app_or in Hc. destruct Hc as [Hc|Hc].
    + apply in_map_iff in Hc. destruct Hc as (c' & <- & Hc').
      simpl. now rewrite (IH r c').
    + now apply (IH (S r)).
Qed.

Lemma combinations_NoDup {A : Type} (l : list A) :
  NoDup l -> forall r c, In c (combinations l r) -> NoDup c.
Proof.
  induction l as [|x l IH]; intros Hnd [|r] c Hc; simpl in Hc.
  - destruct Hc as [<-|[]]. constructor.
  - destruct Hc.
  - destruct Hc as [<-|[]]. constructor.
  - inversion Hnd as [|? ? Hx Hl]; subst.
    apply in_app_or in Hc. destruct Hc as [Hc|Hc].
    + apply in_map_iff in Hc. destruct Hc as (c' & <- & Hc').
      constructor; [|now apply (IH Hl r)].
      intros Hin. apply Hx. now apply (combinations_incl l r c').
    + now apply (IH Hl (S r)).
Qed.

(** A combination is a bundle: at least one and at most [capacity] items of
    the instance, each once when the items are distinct. *)
Lemma combination_is_bundle (instance : Instance) (student : string)
      (c : list string) :
  In c (combinations_courses_list instance student) ->
  (1 <= length c <= agent_capacity instance student)%nat
  /\ incl c (items instance)
  /\ (NoDup (items instance) -> NoDup c).
Proof.
  intros Hc. split; [|split].
  - unfold combinations_courses_list in Hc. apply in_flat_map in Hc.
    destruct Hc as (r & Hr & Hc). apply in_seq in Hr.
    rewrite (combinations_length _ _ _ Hc). lia.
  - now apply combinations_courses_list_incl in Hc.
  - intros Hnd. unfold combinations_courses_list in Hc. apply in_flat_map in Hc.
    destruct Hc as (r & _ & Hc). now apply (combinations_NoDup _ Hnd r).
Qed.

(** The bundle an allocation of [student_best_bundles] gives an agent is one
    of the candidates of [compute_best_bundles_for_student]. *)
Lemma allocation_bundle_candidate
      (prices initial_budgets : dict Q) (instance : Instance)
      (allocations : list (dict (list string))) (a : dict (list string))
      (student : string) :
  student_best_bundles prices instance initial_budgets = Some allocations ->
  In a allocations ->
  In student (agents instance) ->
  exists entry b,
    compute_best_bundles_for_student student instance prices initial_budgets
    = Some entry
    /\ In b (snd entry)
    /\ get a student = Some b.
Proof.
  intros H Ha Hs.
  destruct (NoDup_dec string_dec (agents instance)) as [Hnd|Hrep].
  - destruct (allocation_from_candidates _ _ _ _ _ _ Hnd H Ha Hs)
      as (l & b & Hl & Hb & Hget).
    unfold best_of in Hl. inv_bind Hl. injection Hl as <-.
    exists a0, b. auto.
  - apply (repeated_agents_no_allocation _ _ _ _ Hrep) in H. subst. destruct Ha.
Qed.

(** X3. In every allocation returned by [student_best_bundles] every agent
    has a bundle.  Where some combination of size 1..capacity that the agent
    affords has a value of -1 or more, the bundle is itself such a
    combination, affordable, and no affordable combination is worth more to
    the agent.  Where every affordable combination has a value below -1, and
    so where the agent affords none, the bundle is the empty bundle. *)
Theorem student_best_bundles_are_value_maximal
        (prices : dict Q) (instance : Instance) (initial_budgets : dict Q)
        (allocations : list (dict (list string))) (a : dict (list string))
        (student : string)
        (Hreturned : student_best_bundles prices instance initial_budgets
                     = Some allocations)
        (Hallocation : In a allocations)
        (Hstudent : In student (agents instance)) :
  exists b,
    get a student = Some b
    /\ ((exists c, In c (combinations_courses_list instance student)
                   /\ affordable prices initial_budgets student c = true
                   /\ -1 <= agent_bundle_value instance student c) ->
        In b (combinations_courses_list instance student)
        /\ affordable prices initial_budgets student b = true
        /\ forall c,
          In c (combinations_courses_list instance student) ->
          affordable prices initial_budgets student c = true ->
          agent_bundle_value instance student c
          <= agent_bundle_value instance student b)
    /\ ((forall c, In c (combinations_courses_list instance student) ->
                   affordable prices initial_budgets student c = true ->
                   agent_bundle_value instance student c < -1) ->
        b = []).
Proof.
  destruct (allocation_bundle_candidate _ _ _ _ _ _ Hreturned Hallocation Hstudent)
    as (entry & b & Hentry & Hb & Hget).
  exists b. split; [exact Hget|].
  destruct (best_candidates_spec _ _ _ _ _ Hentry)
    as (_ & M & HM & Hbound & Hcase).
  assert (Hsorted : forall c,
             In c (combinations_courses_sorted instance student) ->
             In c (combinations_courses_list instance student)).
  { intros c Hc. unfold combinations_courses_sorted in Hc.
    now apply (Permutation_in c (Permutation_sym (sorted_desc_perm _ _))) in Hc. }
  split.
  - intros (c & Hc & Ha & Hv).
    destruct Hcase as [[_ El]|[_ Hnone]].
    + rewrite El in Hb. apply best_at_In in Hb. destruct Hb as (Hin & Hab & Ev).
      split; [now apply Hsorted|]. split; [exact Hab|].
      intros c' Hc' Ha'. rewrite Ev. now apply Hbound.
    + exfalso. apply (Qlt_not_le _ _ (Hnone c Hc Ha)). exact Hv.
  - intros Hnone. destruct Hcase as [[_ El]|[El _]].
    + exfalso. rewrite El in Hb. apply best_at_In in Hb.
      destruct Hb as (Hin & Hab & Ev).
      apply (Qlt_not_le _ _ (Hnone b (Hsorted b Hin) Hab)). now rewrite Ev.
    + rewrite El in Hb. destruct Hb as [<-|[]]. reflexivity.
Qed.

Lemma student_best_bundles_are_value_maximal_witness :
  (exists b,
      get [("Alice", ["x"; "y"]); ("Bob", ["x"; "y"]); ("Eve", ["y"; "z"])] "Eve"
      = Some b
      /\ In b (combinations_courses_list alice_bob_eve "Eve")
      /\ affordable [("x", 1); ("y", 2); ("z", 1)]
                    [("Alice", 5); ("Bob", 4); ("Eve", 3)] "Eve" b = true)
  /\ get [("beni", @nil string)] "beni" = Some [].
Proof.
  split.
  - destruct (student_best_bundles_are_value_maximal
                [("x", 1); ("y", 2); ("z", 1)] alice_bob_eve
                [("Alice", 5); ("Bob", 4); ("Eve", 3)]
                [[("Alice", ["x"; "y"]); ("Bob", ["x"; "y"]); ("Eve", ["y"; "z"])]]
                [("Alice", ["x"; "y"]); ("Bob", ["x"; "y"]); ("Eve", ["y"; "z"])]
                "Eve") as (b & Hb & Hbest & _).
    + vm_compute. reflexivity.
    + now left.
    + simpl. auto.
    + destruct Hbest as (Hin & Ha & _).
      * exists ["y"; "z"]. split; [simpl; auto 10|].
        split; [reflexivity | vm_compute; discriminate].
      * exists b. split; [exact Hb|]. split; [exact Hin | exact Ha].
  - destruct (student_best_bundles_are_value_maximal
                [("x", 2)] beni_alone [("beni", 1)]
                [[("beni", [])]] [("beni", [])] "beni") as (b & Hb & _ & Hnone).
    + vm_compute. reflexivity.
    + now left.
    + simpl. auto.
    + rewrite Hb. f_equal. apply Hnone.
      intros c [<-|[]] Ha. vm_compute in Ha. discriminate Ha.
Defined.

(** X4. In every allocation returned by [student_best_bundles], the bundle
    of an agent holds at most [agent_capacity] items, all of them items of the
    instance, and no item twice when the items of the instance are
    distinct. *)
Theorem student_best_bundles_respect_capacity
        (prices : dict Q) (instance : Instance) (initial_budgets : dict Q)
        (allocations : list (dict (list string))) (a : dict (list string))
        (student : string)
        (Hreturned : student_best_bundles prices instance initial_budgets
                     = Some allocations)
        (Hallocation : In a allocations)
        (Hstudent : In student (agents instance)) :
  exists b,
    get a student = Some b
    /\ (length b <= agent_capacity instance student)%nat
    /\ incl b (items instance)
    /\ (NoDup (items instance) -> NoDup b).
Proof.
  destruct (allocation_bundle_candidate _ _ _ _ _ _ Hreturned Hallocation Hstudent)
    as (entry & b & Hentry & Hb & Hget).
  exists b. split; [exact Hget|].
  destruct (best_candidates_spec _ _ _ _ _ Hentry)
    as (_ & M & _ & _ & [[_ El]|[El _]]).
  - rewrite El in Hb. apply best_at_In in Hb. destruct Hb as (Hin & _).
    unfold combinations_courses_sorted in Hin.
    apply (Permutation_in b (Permutation_sym (sorted_desc_perm _ _))) in Hin.
    destruct (combination_is_bundle _ _ _ Hin) as (Hlen & Hincl & Hnd).
    repeat split; [lia | exact Hincl | exact Hnd].
  - rewrite El in Hb. destruct Hb as [<-|[]].
    repeat split; [simpl; lia | intros ? [] | constructor].
Qed.

Lemma student_best_bundles_respect_capacity_witness :
  exists b,
    get [("Alice", ["x"; "y"]); ("Bob", ["x"; "y"]); ("Eve", ["y"; "z"])] "Bob"
    = Some b
    /\ (length b <= 2)%nat.
Proof.
  destruct (student_best_bundles_respect_capacity
              [("x", 1); ("y", 2); ("z", 1)] alice_bob_eve
              [("Alice", 5); ("Bob", 4); ("Eve", 3)]
              [[("Alice", ["x"; "y"]); ("Bob", ["x"; "y"]); ("Eve", ["y"; "z"])]]
              [("Alice", ["x"; "y"]); ("Bob", ["x"; "y"]); ("Eve", ["y"; "z"])]
              "Bob") as (b & Hb & Hlen & _).
  - vm_compute. reflexivity.
  - now left.
  - simpl. auto.
  - exists b. split; [exact Hb | exact Hlen].
Defined.

(** ** The filter of [student_best_bundles] where budgets are not negative *)

Lemma get_app_None {V : Type} (d1 d2 : dict V) (k : string) :
  get d1 k = None -> get (d1 ++ d2) k = get d2 k.
Proof.
  intros H. apply get_app_fresh. now apply get_None_keys.
Qed.

Section NothingDropped.
Variables (prices initial_budgets : dict Q) (instance : Instance).

Lemma build_valid_allocation_all (pairs : list (string * list string)) :
  forall acc,
    NoDup (map fst pairs) ->
    (forall s, In s (map fst pairs) -> get acc s = None) ->
    (forall s b, In (s, b) pairs ->
                 affordable prices initial_budgets s b = true) ->
    build_valid_allocation prices initial_budgets pairs acc = Some (acc ++ pairs).
Proof.
  induction pairs as [|[s b] pairs IH]; intros acc Hnd Hfresh Haff; simpl.
  - now rewrite app_nil_r.
  - inversion Hnd as [|? ? Hs Hnd']; subst.
    assert (Hb : affordable prices initial_budgets s b = true)
      by (apply Haff; now left).
    unfold affordable in Hb.
    destruct (bundle_price prices b) as [p|]; [simpl | discriminate].
    destruct (get initial_budgets s) as [bud|]; [simpl | discriminate].
    rewrite Hb, set_fresh by (apply Hfresh; now left).
    rewrite IH.
    + now rewrite <- app_assoc.
    + exact Hnd'.
    + intros s' Hs'. rewrite get_app_None by (apply Hfresh; now right).
      simpl. destruct (String.eqb_spec s s') as [->|Hne];
        [contradiction | reflexivity].
    + intros s' b' Hin. apply Haff. now right.
Qed.

Lemma filter_valid_all (l : list (list (list string))) :
  NoDup (agents instance) ->
  (forall t, In t l ->
             length t = length (agents instance)
             /\ forall s b, In (s, b) (combine (agents instance) t) ->
                            affordable prices initial_budgets s b = true) ->
  forall acc,
    filter_valid prices initial_budgets instance l acc
    = Some (acc ++ map (combine (agents instance)) l).
Proof.
  intros Hnd. induction l as [|t l IH]; intros Hl acc; simpl.
  - now rewrite app_nil_r.
  - destruct (Hl t) as [Hlen Haff]; [now left|].
    rewrite (build_valid_allocation_all (combine (agents instance) t) []).
    + simpl. rewrite length_combine, Hlen, Nat.min_id, Nat.eqb_refl.
      rewrite IH by (intros t' Ht'; apply Hl; now right).
      now rewrite <- app_assoc.
    + rewrite map_fst_combine by lia. rewrite Hlen, firstn_all. exact Hnd.
    + reflexivity.
    + exact Haff.
Qed.
End NothingDropped.

(** With distinct agents and budgets that are not negative, the filter keeps
    every element of the product of the candidate lists. *)
Lemma student_best_bundles_all_choices
        (prices : dict Q) (instance : Instance) (initial_budgets : dict Q)
        (Hcovered : covered prices initial_budgets instance)
        (Hagents : NoDup (agents instance))
        (Hbudgets : forall student budget,
            In student (agents instance) ->
            get initial_budgets student = Some budget -> 0 <= budget) :
  exists entries,
    best_combinations_of prices initial_budgets instance (agents instance)
    = Some entries
    /\ student_best_bundles prices instance initial_budgets
       = Some (map (combine (agents instance)) (product (values entries)))
    /\ product (values entries) <> [].
Proof.
  pose proof (student_best_bundles_total _ _ _ Hcovered) as Htotal.
  rewrite student_best_bundles_entries in Htotal |- * by exact Hagents.
  destruct (best_combinations_of prices initial_budgets instance (agents instance))
    as [entries|] eqn:E; [|now destruct Htotal].
  simpl in *. clear Htotal.
  destruct (best_combinations_of_entries _ _ _ _ _ E) as [Hkeys Hbest].
  exists entries. split; [reflexivity|].
  assert (Hcand : forall s l b,
             In (s, l) entries -> In b l ->
             l <> [] /\ affordable prices initial_budgets s b = true).
  { intros s l b Hin Hb.
    assert (Hs : In s (agents instance))
      by (rewrite <- Hkeys; apply in_map_iff; now exists (s, l)).
    specialize (Hbest s l Hin). unfold best_of in Hbest. inv_bind Hbest.
    injection Hbest as <-.
    destruct (best_candidates_spec _ _ _ _ _ Hbind)
      as (_ & M & _ & _ & [[Hne El]|[El _]]).
    - rewrite El in Hb |- *. split; [exact Hne|].
      now apply best_at_In in Hb.
    - rewrite El in Hb |- *. split; [discriminate|].
      destruct Hb as [<-|[]]. unfold affordable. simpl.
      pose proof (proj2 Hcovered s Hs) as Hg.
      destruct (get initial_budgets s) as [bud|] eqn:Eb; [|congruence].
      apply Qle_bool_iff. now apply (Hbudgets s). }
  split.
  - unfold collect_valid_allocations.
    rewrite (filter_valid_all _ _ _ _ Hagents); [reflexivity|].
    intros t Ht. split.
    + rewrite (product_length _ t Ht). unfold values. rewrite length_map.
      rewrite <- Hkeys. unfold keys. now rewrite length_map.
    + intros s b Hin. rewrite <- Hkeys in Hin.
      destruct (product_combine entries t s b Ht Hin) as (l & Hl & Hb).
      now apply (Hcand s l b).
  - apply product_inhabited. intros l Hl. unfold values in Hl.
    apply in_map_iff in Hl. destruct Hl as ([s l'] & <- & Hin).
    simpl. destruct l' as [|b l']; [|discriminate].
    pose proof (Hbest s [] Hin) as Hb. unfold best_of in Hb. inv_bind Hb.
    injection Hb as Hb.
    destruct (compute_best_outcome _ _ _ _ _ Hbind) as (_ & Hne & _).
    congruence.
Qed.

(** X5. Where every item has a price, every agent a budget that is not
    negative, and the agents are distinct, the filter of [student_best_bundles]
    drops nothing: the function returns one allocation for every way of
    picking one candidate bundle per agent, in the order of
    [itertools.product], and at least one. *)
Theorem student_best_bundles_returns_every_choice
        (prices : dict Q) (instance : Instance) (initial_budgets : dict Q)
        (Hcovered : covered prices initial_budgets instance)
        (Hagents : NoDup (agents instance))
        (Hbudgets : forall student budget,
            In student (agents instance) ->
            get initial_budgets student = Some budget -> 0 <= budget) :
  exists entries,
    best_combinations_of prices initial_budgets instance (agents instance)
    = Some entries
    /\ student_best_bundles prices instance initial_budgets
       = Some (map (combine (agents instance)) (product (values entries)))
    /\ product (values entries) <> [].
Proof.
  pose proof (student_best_bundles_total _ _ _ Hcovered) as Htotal.
  rewrite student_best_bundles_entries in Htotal |- * by exact Hagents.
  destruct (best_combinations_of prices initial_budgets instance (agents instance))
    as [entries|] eqn:E; [|now destruct Htotal].
  simpl in *. clear Htotal.
  destruct (best_combinations_of_entries _ _ _ _ _ E) as [Hkeys Hbest].
  exists entries. split; [reflexivity|].
  assert (Hcand : forall s l b,
             In (s, l) entries -> In b l ->
             l <> [] /\ affordable prices initial_budgets s b = true).
  { intros s l b Hin Hb.
    assert (Hs : In s (agents instance))
      by (rewrite <- Hkeys; apply in_map_iff; now exists (s, l)).
    specialize (Hbest s l Hin). unfold best_of in Hbest. inv_bind Hbest.
    injection Hbest as <-.
    destruct (best_candidates_spec _ _ _ _ _ Hbind)
      as (_ & M & _ & _ & [[Hne El]|[El _]]).
    - rewrite El in Hb |- *. split; [exact Hne|].
      now apply best_at_In in Hb.
    - rewrite El in Hb |- *. split; [discriminate|].
      destruct Hb as [<-|[]]. unfold affordable. simpl.
      pose proof (proj2 Hcovered s Hs) as Hg.
      destruct (get initial_budgets s) as [bud|] eqn:Eb; [|congruence].
      apply Qle_bool_iff. now apply (Hbudgets s). }
  split.
  - unfold collect_valid_allocations.
    rewrite (filter_valid_all _ _ _ _ Hagents); [reflexivity|].
    intros t Ht. split.
    + rewrite (product_length _ t Ht). unfold values. rewrite length_map.
      rewrite <- Hkeys. unfold keys. now rewrite length_map.
    + intros s b Hin. rewrite <- Hkeys in Hin.
      destruct (product_combine entries t s b Ht Hin) as (l & Hl & Hb).
      now apply (Hcand s l b).
  - apply product_inhabited. intros l Hl. unfold values in Hl.
    apply in_map_iff in Hl. destruct Hl as ([s l'] & <- & Hin).
    simpl. destruct l' as [|b l']; [|discriminate].
    pose proof (Hbest s [] Hin) as Hb. unfold best_of in Hb. inv_bind Hb.
    injection Hb as Hb.
    destruct (compute_best_outcome _ _ _ _ _ Hbind) as (_ & Hne & _).
    congruence.
Qed.

Lemma student_best_bundles_returns_every_choice_witness :
  exists entries,
    student_best_bundles
      [("x", 2.6124658024539347); ("y", 0); ("z", 1.1604071365185367);
       ("w", 5.930224022321449)]
      alice_bob_eve_four [("Alice", 4); ("Bob", 5); ("Eve", 2)]
    = Some (map (combine (agents alice_bob_eve_four)) (product (values entries)))
    /\ product (values entries) <> [].
Proof.
  destruct (student_best_bundles_returns_every_choice
              [("x", 2.6124658024539347); ("y", 0); ("z", 1.1604071365185367);
               ("w", 5.930224022321449)]
              alice_bob_eve_four [("Alice", 4); ("Bob", 5); ("Eve", 2)])
    as (entries & _ & Hall & Hne).
  - solve_covered.
  - solve_nodup.
  - intros student budget Hs Hb. simpl in Hs.
    repeat (destruct Hs as [<-|Hs]; [injection Hb as <-; discriminate|]).
    destruct Hs.
  - exists entries. split; [exact Hall | exact Hne].
Defined.


(** ** Gradient neighbours *)

Section Overwrite.
Context {V : Type} (g : string -> V -> V).

Lemma fold_set_skip_head (c : string) (x : V) (entries : dict V) :
  ~ In c (keys entries) ->
  forall u,
    fold_left (fun u '(k, v) => set u k (g k v)) entries ((c, x) :: u)
    = (c, x) :: fold_left (fun u '(k, v) => set u k (g k v)) entries u.
Proof.
  induction entries as [|[k v] entries IH]; intros Hc u; simpl; [reflexivity|].
  simpl in Hc. destruct (String.eqb_spec c k) as [->|Hne]; [tauto|].
  apply IH. tauto.
Qed.

Lemma fold_set_append (entries : dict V) :
  NoDup (keys entries) ->
  forall pre,
    (forall k, In k (keys entries) -> ~ In k (keys pre)) ->
    fold_left (fun u '(k, v) => set u k (g k v)) entries pre
    = pre ++ map (fun '(k, v) => (k, g k v)) entries.
Proof.
  induction entries as [|[k v] entries IH]; intros Hnd pre Hfresh; simpl.
  - now rewrite app_nil_r.
  - inversion Hnd as [|? ? Hk Hnd']; subst.
    rewrite set_fresh by (apply get_None_keys, Hfresh; now left).
    rewrite IH; [now rewrite <- app_assoc | exact Hnd' |].
    intros k' Hk' Hin. rewrite keys_app in Hin. apply in_app_or in Hin.
    destruct Hin as [Hin|[<-|[]]]; [|contradiction].
    apply (Hfresh k'); [now right | exact Hin].
Qed.

(** Writing every key of a dictionary again replaces every value. *)
Lemma fold_set_overwrite (entries : dict V) :
  NoDup (keys entries) ->
  forall u,
    keys u = keys entries ->
    fold_left (fun u '(k, v) => set u k (g k v)) entries u
    = map (fun '(k, v) => (k, g k v)) entries.
Proof.
  induction entries as [|[k v] entries IH]; intros Hnd u Hu; simpl.
  - destruct u; [reflexivity | discriminate].
  - inversion Hnd as [|? ? Hk Hnd']; subst.
    destruct u as [|[k0 v0] u]; [discriminate|].
    simpl in Hu. injection Hu as -> Hu. simpl. rewrite String.eqb_refl.
    rewrite fold_set_skip_head by exact Hk.
    now rewrite IH.
Qed.
End Overwrite.

Lemma gradient_step_fresh (d : Q) (prices : dict Q)
      (excess_demand_vector : dict Z) (updated_prices : dict Q) :
  NoDup (keys prices) ->
  updated_prices = [] \/ keys updated_prices = keys prices ->
  gradient_step d prices excess_demand_vector updated_prices
  = gradient_neighbor d prices excess_demand_vector.
Proof.
  intros Hnd [->|Hk]; unfold gradient_step, gradient_neighbor.
  - rewrite (fold_set_append
               (fun course price =>
                  max0 (price + d * inject_Z (get_default excess_demand_vector
                                                          course 0%Z)))
               prices Hnd []); [reflexivity | intros ? ? []].
  - now rewrite (fold_set_overwrite
                   (fun course price =>
                      max0 (price + d * inject_Z (get_default excess_demand_vector
                                                              course 0%Z)))
                   prices Hnd updated_prices Hk).
Qed.

Lemma gradient_neighbor_keys (d : Q) (prices : dict Q)
      (excess_demand_vector : dict Z) :
  keys (gradient_neighbor d prices excess_demand_vector) = keys prices.
Proof.
  unfold gradient_neighbor, keys. rewrite map_map. apply map_ext.
  now intros [k v].
Qed.

Lemma gradient_loop_spec (prices : dict Q) (excess_demand_vector : dict Z)
      (history : list (list constraint)) (delta : list Q) :
  NoDup (keys prices) ->
  forall updated_prices new_neighbors res,
    updated_prices = [] \/ keys updated_prices = keys prices ->
    gradient_loop prices delta excess_demand_vector history updated_prices
                  new_neighbors = Some res ->
    res = new_neighbors
            ++ map (fun d => gradient_neighbor d prices excess_demand_vector)
                   (filter (fun d =>
                              not_tabu history
                                       (gradient_neighbor d prices
                                                          excess_demand_vector))
                           delta).
Proof.
  intros Hnd. induction delta as [|d delta IH]; intros up nn res Hup H;
    simpl in H |- *.
  - injection H as <-. now rewrite app_nil_r.
  - rewrite (gradient_step_fresh d prices excess_demand_vector up Hnd Hup) in H.
    inv_bind H. rename a into tabu. unfold not_tabu. rewrite Hbind.
    apply IH in H; [|right; apply gradient_neighbor_keys].
    destruct tabu; simpl; [exact H|].
    now rewrite H, <- app_assoc.
Qed.

(** X6. On a price dictionary, [find_gradient_neighbors] returns, in the
    order of the step sizes, exactly the vectors
    [max(0, price + d * excess_demand.get(course, 0))] of the step sizes [d]
    for which the tabu test answers [False]: reusing one dictionary for all
    step sizes leaks nothing from one neighbour into the next, there is at
    most one neighbour per step size, and none of them is tabu. *)
Theorem gradient_neighbors_are_the_untabu_steps
        (prices : dict Q) (delta : list Q) (excess_demand_vector : dict Z)
        (history : list (list constraint)) (neighbors : list (dict Q))
        (Hprices : NoDup (keys prices))
        (Hreturned : find_gradient_neighbors prices delta excess_demand_vector
                                             history = Some neighbors) :
  neighbors
  = map (fun d => gradient_neighbor d prices excess_demand_vector)
        (filter (fun d =>
                   not_tabu history
                            (gradient_neighbor d prices excess_demand_vector))
                delta)
  /\ (length neighbors <= length delta)%nat
  /\ forall n, In n neighbors -> is_tabu history n = Some false.
Proof.
  unfold find_gradient_neighbors in Hreturned.
  apply (gradient_loop_spec _ _ _ _ Hprices) in Hreturned; [|now left].
  simpl in Hreturned. split; [exact Hreturned|]. split.
  - rewrite Hreturned, length_map. apply filter_length_le.
  - intros n Hn. rewrite Hreturned in Hn. apply in_map_iff in Hn.
    destruct Hn as (d & <- & Hd). apply filter_In in Hd. destruct Hd as [_ Hd].
    unfold not_tabu in Hd.
    destruct (is_tabu history (gradient_neighbor d prices excess_demand_vector))
      as [[|]|]; [discriminate | reflexivity | discriminate].
Qed.

Lemma gradient_neighbors_are_the_untabu_steps_witness :
  exists neighbors,
    find_gradient_neighbors [("x", 1); ("y", 4); ("z", 0)] [1 # 2; 1]
                            [("x", 1%Z); ("y", 0%Z); ("z", 2%Z)] []
    = Some neighbors
    /\ (length neighbors <= 2)%nat.
Proof.
  destruct (find_gradient_neighbors [("x", 1); ("y", 4); ("z", 0)] [1 # 2; 1]
                                    [("x", 1%Z); ("y", 0%Z); ("z", 2%Z)] [])
    as [neighbors|] eqn:E; [|vm_compute in E; discriminate E].
  exists neighbors. split; [reflexivity|].
  assert (Hnd : NoDup (keys [("x", 1); ("y", 4); ("z", 0)])) by solve_nodup.
  destruct (gradient_neighbors_are_the_untabu_steps _ _ _ _ _ Hnd E)
    as (_ & Hlen & _).
  exact Hlen.
Defined.


(** ** Individual price adjustments *)

Section AdjustmentMembers.
Variables (instance : Instance) (history : list (list constraint))
          (initial_budgets : dict Q) (allocation : dict (list string))
          (use_threads : bool).

Lemma raise_price_members (course : string) (n : nat) :
  forall updated_prices new_neighbors res,
    raise_price n instance history initial_budgets allocation use_threads
                course updated_prices new_neighbors = Some res ->
    forall x, In x res ->
      In x new_neighbors
      \/ (is_tabu history x = Some false
          /\ (exists k q,
                 (1 <= k <= n)%nat
                 /\ get updated_prices course = Some q
                 /\ x = set updated_prices course (add_steps k q))
          /\ exists new_allocations new_allocation,
              (if use_threads
               then student_best_bundles_with_threads x instance initial_budgets
               else student_best_bundles x instance initial_budgets)
              = Some new_allocations
              /\ In new_allocation new_allocations
              /\ differ_in_one_value allocation new_allocation course = true).
Proof.
  induction n as [|n IH]; intros up nn res H x Hx; simpl in H.
  - injection H as <-. now left.
  - inv_bind H. rename a into q. inv_bind H. rename a into tabu.
    assert (Hlater :
              forall nn',
                raise_price n instance history initial_budgets allocation
                            use_threads course (set up course (q + sqrt_half)) nn'
                = Some res ->
                In x nn'
                \/ (is_tabu history x = Some false
                    /\ (exists k q0,
                           (1 <= k <= S n)%nat
                           /\ get up course = Some q0
                           /\ x = set up course (add_steps k q0))
                    /\ exists new_allocations new_allocation,
                        (if use_threads
                         then student_best_bundles_with_threads
                                x instance initial_budgets
                         else student_best_bundles x instance initial_budgets)
                        = Some new_allocations
                        /\ In new_allocation new_allocations
                        /\ differ_in_one_value allocation new_allocation course
                           = true)).
    { intros nn' H'.
      destruct (IH _ _ _ H' x Hx) as [Hin|(Ht & (k & q0 & Hk & Hq0 & ->) & Hd)];
        [now left|].
      right. split; [exact Ht|]. split; [|exact Hd].
      rewrite get_set_same in Hq0. injection Hq0 as <-.
      exists (S k), q. repeat split; [lia | lia | exact Hbind |].
      now rewrite set_set. }
    destruct tabu; [now apply Hlater|].
    inv_bind H. rename a into new_allocations.
    destruct (Hlater _ H) as [Hin|Hnew]; [|now right].
    apply in_app_or in Hin. destruct Hin as [Hin|Hin]; [now left|].
    right. apply in_map_iff in Hin. destruct Hin as (a' & <- & Ha').
    apply filter_In in Ha'. destruct Ha' as [Ha' Hd].
    split; [exact Hbind0|]. split.
    + exists 1%nat, q. repeat split; [lia | lia | exact Hbind].
    + exists new_allocations, a'. auto.
Qed.

Lemma adjustment_loop_members (prices : dict Q) (entries : list (string * Z)) :
  forall new_neighbors res,
    adjustment_loop instance history prices entries initial_budgets allocation
                    use_threads new_neighbors = Some res ->
    forall x, In x res ->
      In x new_neighbors
      \/ exists course excess_demand,
          In (course, excess_demand) entries
          /\ individual_adjustment instance history prices initial_budgets
                                   allocation use_threads 10 course
                                   excess_demand x.
Proof.
  induction entries as [|[course ed] entries IH]; intros nn res H x Hx;
    cbn [adjustment_loop] in H.
  - injection H as <-. now left.
  - destruct (Nat.leb 35 (length nn)); [injection H as <-; now left|].
    inv_bind H. rename a into nn1.
    destruct (IH _ _ H x Hx) as [Hin|(c & e & Hce & Hadj)].
    2:{ right. exists c, e. split; [now right | exact Hadj]. }
    unfold adjust_course in Hbind.
    destruct (Z.eqb_spec ed 0) as [->|Hnz]; [injection Hbind as <-; now left|].
    destruct (Z.ltb_spec 0 ed) as [Hpos|Hneg].
    + destruct (raise_price_members _ _ _ _ _ Hbind x Hin)
        as [Hnn|(Ht & Hk & Hd)]; [now left|].
      right. exists course, ed. split; [now left|].
      split; [exact Ht|]. right. auto.
    + inv_bind Hbind. injection Hbind as <-. destruct a; [now left|].
      apply in_app_or in Hin. destruct Hin as [Hin|[<-|[]]]; [now left|].
      right. exists course, ed. split; [now left|].
      split; [exact Hbind0|]. left. split; [lia | reflexivity].
Qed.
End AdjustmentMembers.

Lemma add_steps_le (k : nat) : forall q, q <= add_steps k q.
Proof.
  induction k as [|k IH]; intros q; simpl; [apply Qle_refl|].
  apply Qle_trans with (q + sqrt_half); [|apply IH].
  rewrite <- (Qplus_0_r q) at 1. apply Qplus_le_r. discriminate.
Qed.

(** X7. Every neighbour returned by
    [find_individual_price_adjustment_neighbors] changes the prices on one
    course of the excess demand vector only and is not tabu.  The price of a
    course in deficit is set to zero.  The price of a course in excess is
    replaced by a price that is not below it, and at the new prices one of
    the best allocations differs from the current allocation in one value on
    that course. *)
Theorem individual_neighbors_are_single_item_adjustments
        (instance : Instance) (history : list (list constraint))
        (prices : dict Q) (excess_demand_vector : dict Z)
        (initial_budgets : dict Q) (allocation : dict (list string))
        (use_threads : bool) (neighbors : list (dict Q)) (n : dict Q)
        (Hreturned : find_individual_price_adjustment_neighbors
                       instance history prices excess_demand_vector
                       initial_budgets allocation use_threads = Some neighbors)
        (Hneighbor : In n neighbors) :
  exists course excess_demand,
    In (course, excess_demand) excess_demand_vector
    /\ single_item_adjustment instance history prices initial_budgets allocation
                              use_threads course excess_demand n.
Proof.
  unfold find_individual_price_adjustment_neighbors in Hreturned.
  destruct (adjustment_loop_members _ _ _ _ _ _ _ _ _ Hreturned n Hneighbor)
    as [[]|(course & z & Hin & Htabu & Hcase)].
  exists course, z. split; [exact Hin|]. split; [exact Htabu|].
  destruct Hcase as [Hdeficit|(Hpos & (k & q & _ & Hq & ->) & Hdiffer)];
    [now left|].
  right. split; [exact Hpos|]. split; [|exact Hdiffer].
  exists q, (add_steps k q). split; [exact Hq|].
  split; [apply add_steps_le | reflexivity].
Qed.

Lemma individual_neighbors_are_single_item_adjustments_witness :
  exists neighbors n course excess_demand,
    find_individual_price_adjustment_neighbors
      ami_tami_tzumi
      [[total_at_most ["x"; "y"] 5; total_at_most ["x"; "y"] 4;
        total_at_most ["y"; "z"] 3]]
      [("x", 1); ("y", 2); ("z", 1)]
      [("x", 0%Z); ("y", 2%Z); ("z", (-2)%Z)]
      [("ami", 5); ("tami", 4); ("tzumi", 3)]
      [("ami", ["x"; "y"]); ("tami", ["x"; "y"]); ("tzumi", ["y"; "z"])]
      false = Some neighbors
    /\ In n neighbors
    /\ In (course, excess_demand) [("x", 0%Z); ("y", 2%Z); ("z", (-2)%Z)]
    /\ single_item_adjustment
         ami_tami_tzumi
         [[total_at_most ["x"; "y"] 5; total_at_most ["x"; "y"] 4;
           total_at_most ["y"; "z"] 3]]
         [("x", 1); ("y", 2); ("z", 1)]
         [("ami", 5); ("tami", 4); ("tzumi", 3)]
         [("ami", ["x"; "y"]); ("tami", ["x"; "y"]); ("tzumi", ["y"; "z"])]
         false course excess_demand n.
Proof.
  destruct (find_individual_price_adjustment_neighbors
              ami_tami_tzumi
              [[total_at_most ["x"; "y"] 5; total_at_most ["x"; "y"] 4;
                total_at_most ["y"; "z"] 3]]
              [("x", 1); ("y", 2); ("z", 1)]
              [("x", 0%Z); ("y", 2%Z); ("z", (-2)%Z)]
              [("ami", 5); ("tami", 4); ("tzumi", 3)]
              [("ami", ["x"; "y"]); ("tami", ["x"; "y"]); ("tzumi", ["y"; "z"])]
              false) as [[|n neighbors]|] eqn:E;
    [vm_compute in E; discriminate E | | vm_compute in E; discriminate E].
  assert (Hn : In n (n :: neighbors)) by (left; reflexivity).
  destruct (individual_neighbors_are_single_item_adjustments
              _ _ _ _ _ _ _ _ n E Hn) as (course & z & Hin & Hadj).
  exists (n :: neighbors), n, course, z.
  split; [reflexivity|]. split; [exact Hn|]. split; [exact Hin | exact Hadj].
Defined.


(** ** Errors of [clipped_excess_demand] *)

Lemma comprehension_raises {V : Type} (f : string -> option V) (ks : list string) :
  forall acc,
    comprehension ks f acc = None <-> exists k, In k ks /\ f k = None.
Proof.
  induction ks as [|k ks IH]; intros acc; simpl.
  - split; [discriminate | intros (k & [] & _)].
  - destruct (f k) as [v|] eqn:E; simpl.
    + rewrite IH. split.
      * intros (k' & Hk' & E'). exists k'. auto.
      * intros (k' & [<-|Hk'] & E'); [congruence|]. exists k'. auto.
    + split; [|reflexivity]. intros _. exists k. auto.
Qed.

Lemma clipped_excess_demand_raises
      (instance : Instance) (prices : dict Q) (allocation : dict (list string)) :
  clipped_excess_demand instance prices allocation = None
  <-> exists item, In item (items instance) /\ get prices item = None.
Proof.
  unfold clipped_excess_demand. rewrite comprehension_raises. split.
  - intros (k & Hk & E). exists k.
    apply (proj1 (excess_demand_keys _ _ _)) in Hk.
    split; [exact Hk|].
    destruct (get prices k) as [p|]; [|reflexivity]. simpl in E.
    assert (Hz : get (excess_demand instance allocation) k <> None).
    { apply get_In_keys. now apply excess_demand_keys. }
    destruct (get (excess_demand instance allocation) k); [discriminate E|].
    congruence.
  - intros (k & Hk & E). exists k. split; [now apply excess_demand_keys|].
    now rewrite E.
Qed.

(** X8. [clipped_excess_demand] raises [KeyError] exactly when an item of
    the instance has no price; the allocation plays no part in it. *)
Theorem clipped_excess_demand_raises_without_price
        (instance : Instance) (prices : dict Q) (allocation : dict (list string)) :
  clipped_excess_demand instance prices allocation = None
  <-> exists item, In item (items instance) /\ get prices item = None.
Proof.
  apply clipped_excess_demand_raises.
Qed.

(** ** [min_excess_demand_for_allocation] *)

Section MinNorm.
Variables (norm : list Z -> Q) (instance : Instance) (prices : dict Q).

Lemma min_norm_loop_spec (allocs : list (dict (list string))) :
  forall mn medv mbest b e n,
    min_norm_loop norm instance prices allocs mn medv mbest = Some (b, e, n) ->
    (b = mbest /\ e = medv /\ n = mn
     /\ forall a ea, In a allocs ->
                     clipped_excess_demand instance prices a = Some ea ->
                     below (norm (values ea)) mn = false)
    \/ exists l1 l2,
        allocs = l1 ++ b :: l2
        /\ clipped_excess_demand instance prices b = Some e
        /\ n = Finite (norm (values e))
        /\ below (norm (values e)) mn = true
        /\ (forall a ea, In a l1 ->
                         clipped_excess_demand instance prices a = Some ea ->
                         norm (values e) < norm (values ea))
        /\ (forall a ea, In a l2 ->
                         clipped_excess_demand instance prices a = Some ea ->
                         norm (values e) <= norm (values ea)).
Proof.
  induction allocs as [|a allocs IH]; intros mn medv mbest b e n H; simpl in H.
  - injection H as <- <- <-. left. repeat split. intros ? ? [].
  - inv_bind H. rename a0 into ea.
    destruct (below (norm (values ea)) mn) eqn:Eb.
    + apply IH in H.
      destruct H as [(-> & -> & -> & Hrest)
                    |(l1 & l2 & -> & Hc & -> & Hb & Hl1 & Hl2)].
      * right. exists [], allocs. repeat split; auto.
        -- intros ? ? [].
        -- intros a' ea' Ha' Hc'. specialize (Hrest a' ea' Ha' Hc').
           simpl in Hrest. now apply Qlt_bool_false in Hrest.
      * right. exists (a :: l1), l2. simpl in Hb. apply Qlt_bool_iff in Hb.
        repeat split; auto.
        -- now apply below_trans with (norm (values ea)).
        -- intros a' ea' [<-|Ha'] Hc'; [|now apply (Hl1 a')].
           rewrite Hbind in Hc'. now injection Hc' as <-.
    + apply IH in H.
      destruct H as [(-> & -> & -> & Hrest)
                    |(l1 & l2 & -> & Hc & -> & Hb & Hl1 & Hl2)].
      * left. repeat split. intros a' ea' [<-|Ha'] Hc'; [|now apply (Hrest a')].
        rewrite Hbind in Hc'. now injection Hc' as <-.
      * right. exists (a :: l1), l2. repeat split; auto.
        intros a' ea' [<-|Ha'] Hc'; [|now apply (Hl1 a')].
        rewrite Hbind in Hc'. injection Hc' as <-.
        destruct mn as [|m]; simpl in Eb, Hb; [discriminate|].
        apply Qlt_bool_iff in Hb. apply Qlt_bool_false in Eb.
        now apply Qlt_le_trans with m.
Qed.

Lemma min_norm_loop_raises (allocs : list (dict (list string))) :
  forall mn medv mbest,
    min_norm_loop norm instance prices allocs mn medv mbest = None
    <-> exists a, In a allocs /\ clipped_excess_demand instance prices a = None.
Proof.
  induction allocs as [|a allocs IH]; intros mn medv mbest; simpl.
  - split; [discriminate | intros (a & [] & _)].
  - destruct (clipped_excess_demand instance prices a) as [ea|] eqn:E; simpl.
    + destruct (below (norm (values ea)) mn); rewrite IH; split;
        try (intros (a' & Ha' & E'); exists a'; split; [now right | exact E']);
        intros (a' & [<-|Ha'] & E'); try congruence; exists a'; auto.
    + split; [|reflexivity]. intros _. exists a. auto.
Qed.
End MinNorm.

Lemma min_excess_demand_nonempty
      (norm : list Z -> Q) (instance : Instance) (prices : dict Q)
      (allocs : list (dict (list string))) (b : dict (list string)) (e : dict Z)
      (n : price_bound) :
  allocs <> [] ->
  min_excess_demand_for_allocation norm instance prices allocs = Some (b, e, n) ->
  exists l1 l2,
    allocs = l1 ++ b :: l2
    /\ clipped_excess_demand instance prices b = Some e
    /\ n = Finite (norm (values e))
    /\ (forall a ea, In a l1 ->
                     clipped_excess_demand instance prices a = Some ea ->
                     norm (values e) < norm (values ea))
    /\ (forall a ea, In a l2 ->
                     clipped_excess_demand instance prices a = Some ea ->
                     norm (values e) <= norm (values ea)).
Proof.
  intros Hne H. unfold min_excess_demand_for_allocation in H.
  pose proof H as Hrun. apply min_norm_loop_spec in H.
  destruct H as [(_ & _ & _ & Hrest)|(l1 & l2 & E & Hc & En & _ & Hl1 & Hl2)].
  - exfalso. destruct allocs as [|a allocs]; [now apply Hne|].
    destruct (clipped_excess_demand instance prices a) as [ea|] eqn:Ea.
    + specialize (Hrest a ea (or_introl eq_refl) Ea). discriminate Hrest.
    + simpl in Hrun. rewrite Ea in Hrun. discriminate Hrun.
  - exists l1, l2. auto.
Qed.

(** X9. [min_excess_demand_for_allocation] returns the first allocation of
    the list whose clipped excess demand has the least norm, with that excess
    demand and that norm: earlier allocations have a strictly greater norm,
    later ones a norm at least as great.  On an empty list it returns two
    empty dictionaries and an infinite norm.  It raises exactly when the list
    is not empty and an item of the instance has no price. *)
Theorem min_excess_demand_returns_first_minimum
        (norm : list Z -> Q) (instance : Instance) (prices : dict Q) :
  min_excess_demand_for_allocation norm instance prices [] = Some ([], [], Infinity)
  /\ (forall allocs b e n,
         allocs <> [] ->
         min_excess_demand_for_allocation norm instance prices allocs
         = Some (b, e, n) ->
         exists l1 l2,
           allocs = l1 ++ b :: l2
           /\ clipped_excess_demand instance prices b = Some e
           /\ n = Finite (norm (values e))
           /\ (forall a ea, In a l1 ->
                            clipped_excess_demand instance prices a = Some ea ->
                            norm (values e) < norm (values ea))
           /\ (forall a ea, In a l2 ->
                            clipped_excess_demand instance prices a = Some ea ->
                            norm (values e) <= norm (values ea)))
  /\ (forall allocs,
         min_excess_demand_for_allocation norm instance prices allocs = None
         <-> allocs <> []
             /\ exists item, In item (items instance) /\ get prices item = None).
Proof.
  split; [reflexivity|]. split.
  - intros allocs b e n. apply min_excess_demand_nonempty.
  - intros allocs. unfold min_excess_demand_for_allocation.
    rewrite min_norm_loop_raises. split.
    + intros (a & Ha & E). split; [intros ->; destruct Ha|].
      now apply (proj1 (clipped_excess_demand_raises _ _ a)).
    + intros (Hne & Hitem). destruct allocs as [|a allocs]; [now destruct Hne|].
      exists a. split; [now left|].
      now apply (proj2 (clipped_excess_demand_raises _ _ a)).
Qed.

Lemma min_excess_demand_returns_first_minimum_witness :
  exists b e n l1 l2,
    min_excess_demand_for_allocation
      sum_of_squares ami_tami [("x", 0); ("y", 2); ("z", 0)]
      [[("ami", ["x"; "y"]); ("tami", ["x"; "y"])];
       [("ami", ["x"; "y"]); ("tami", ["x"; "z"])]]
    = Some (b, e, n)
    /\ [[("ami", ["x"; "y"]); ("tami", ["x"; "y"])];
        [("ami", ["x"; "y"]); ("tami", ["x"; "z"])]] = l1 ++ b :: l2.
Proof.
  destruct (min_excess_demand_returns_first_minimum
              sum_of_squares ami_tami [("x", 0); ("y", 2); ("z", 0)])
    as (_ & Hmin & _).
  destruct (min_excess_demand_for_allocation
              sum_of_squares ami_tami [("x", 0); ("y", 2); ("z", 0)]
              [[("ami", ["x"; "y"]); ("tami", ["x"; "y"])];
               [("ami", ["x"; "y"]); ("tami", ["x"; "z"])]])
    as [[[b e] n]|] eqn:E; [|vm_compute in E; discriminate E].
  assert (Hne : [[("ami", ["x"; "y"]); ("tami", ["x"; "y"])];
                 [("ami", ["x"; "y"]); ("tami", ["x"; "z"])]] <> [])
    by discriminate.
  destruct (Hmin _ b e n Hne E) as (l1 & l2 & Hsplit & _).
  exists b, e, n, l1, l2. split; [reflexivity | exact Hsplit].
Defined.


(** ** Comparing numbers that may be infinite *)

Lemma bound_lt_irrefl (x : price_bound) : bound_lt x x = false.
Proof.
  destruct x as [|a]; simpl; [reflexivity|].
  apply Qlt_bool_false. apply Qle_refl.
Qed.

Lemma bound_lt_asym (x y : price_bound) :
  bound_lt x y = true -> bound_lt y x = false.
Proof.
  destruct x as [|a], y as [|b]; simpl; try reflexivity; try discriminate.
  rewrite Qlt_bool_iff, Qlt_bool_false. apply Qlt_le_weak.
Qed.

Lemma bound_lt_trans (x y z : price_bound) :
  bound_lt x y = true -> bound_lt y z = true -> bound_lt x z = true.
Proof.
  destruct x as [|a], y as [|b], z as [|c]; simpl; try reflexivity;
    try discriminate.
  rewrite !Qlt_bool_iff. apply Qlt_trans.
Qed.

Lemma bound_lt_le_trans (x b h : price_bound) :
  bound_lt x b = true -> bound_lt h b = false -> bound_lt x h = true.
Proof.
  destruct x as [|a], b as [|c], h as [|d]; simpl; try reflexivity;
    try discriminate.
  rewrite !Qlt_bool_iff, Qlt_bool_false. apply Qlt_le_trans.
Qed.

Lemma bound_le_trans (x y z : price_bound) :
  bound_lt y x = false -> bound_lt z y = false -> bound_lt z x = false.
Proof.
  destruct x as [|a], y as [|b], z as [|c]; simpl; try reflexivity;
    try discriminate.
  rewrite !Qlt_bool_false. apply Qle_trans.
Qed.

(** ** [find_min_error_prices] *)

Lemma min_fold_spec (rest : list error_tuple) :
  forall best x,
    fold_left (fun best x =>
                 if bound_lt (tuple_norm x) (tuple_norm best) then x else best)
              rest best = x ->
    (x = best
     /\ forall y, In y rest -> bound_lt (tuple_norm y) (tuple_norm best) = false)
    \/ exists l1 l2,
        rest = l1 ++ x :: l2
        /\ bound_lt (tuple_norm x) (tuple_norm best) = true
        /\ (forall y, In y l1 -> bound_lt (tuple_norm x) (tuple_norm y) = true)
        /\ (forall y, In y l2 -> bound_lt (tuple_norm y) (tuple_norm x) = false).
Proof.
  induction rest as [|h rest IH]; intros best x H; simpl in H.
  - left. split; [now symmetry|]. intros ? [].
  - destruct (bound_lt (tuple_norm h) (tuple_norm best)) eqn:Eh.
    + apply IH in H. right.
      destruct H as [(-> & Hrest)|(l1 & l2 & -> & Hx & Hl1 & Hl2)].
      * exists [], rest. split; [reflexivity|]. split; [exact Eh|].
        split; [intros ? []|exact Hrest].
      * exists (h :: l1), l2. split; [reflexivity|]. split; [|split].
        -- now apply bound_lt_trans with (tuple_norm h).
        -- intros y [<-|Hy]; [exact Hx | now apply Hl1].
        -- exact Hl2.
    + apply IH in H.
      destruct H as [(-> & Hrest)|(l1 & l2 & -> & Hx & Hl1 & Hl2)].
      * left. split; [reflexivity|]. intros y [<-|Hy]; [exact Eh | now apply Hrest].
      * right. exists (h :: l1), l2. split; [reflexivity|].
        split; [exact Hx|]. split; [|exact Hl2].
        intros y [<-|Hy]; [|now apply Hl1].
        now apply bound_lt_le_trans with (tuple_norm best).
Qed.

Lemma min_by_norm_spec (errors : list error_tuple) (x : error_tuple) :
  min_by_norm errors = Some x ->
  exists l1 l2,
    errors = l1 ++ x :: l2
    /\ (forall y, In y l1 -> bound_lt (tuple_norm x) (tuple_norm y) = true)
    /\ (forall y, In y l2 -> bound_lt (tuple_norm y) (tuple_norm x) = false).
Proof.
  destruct errors as [|first rest]; simpl; [discriminate|].
  intros H. injection H as H. apply min_fold_spec in H.
  destruct H as [(-> & Hrest)|(l1 & l2 & -> & Hx & Hl1 & Hl2)].
  - exists [], rest. split; [reflexivity|]. split; [intros ? []|exact Hrest].
  - exists (first :: l1), l2. split; [reflexivity|]. split; [|exact Hl2].
    intros y [<-|Hy]; [exact Hx | now apply Hl1].
Qed.

Lemma evaluated_functional (norm : list Z -> Q) (instance : Instance)
      (initial_budgets : dict Q) (use_threads : bool) (p : dict Q)
      (t1 t2 : error_tuple) :
  evaluated norm instance initial_budgets use_threads p t1 ->
  evaluated norm instance initial_budgets use_threads p t2 ->
  t1 = t2.
Proof.
  intros (Hp1 & l1 & Hl1 & Hm1) (Hp2 & l2 & Hl2 & Hm2).
  rewrite Hl1 in Hl2. injection Hl2 as <-. rewrite Hm1 in Hm2.
  injection Hm2 as Hm2. destruct t1, t2. simpl in *. congruence.
Qed.

Lemma evaluate_neighbors_spec (norm : list Z -> Q) (instance : Instance)
      (initial_budgets : dict Q) (use_threads : bool)
      (neighbors : list (dict Q)) :
  forall errors res,
    evaluate_neighbors norm instance neighbors initial_budgets use_threads errors
    = Some res ->
    exists new,
      res = errors ++ new
      /\ Forall2 (evaluated norm instance initial_budgets use_threads)
                 neighbors new.
Proof.
  induction neighbors as [|p neighbors IH]; intros errors res H; simpl in H.
  - injection H as <-. exists []. split; [now rewrite app_nil_r | constructor].
  - inv_bind H. rename a into allocations. inv_bind H.
    destruct a as [[allocation excess] norma].
    apply IH in H. destruct H as (new & -> & Hnew).
    exists ((allocation, excess, norma, p) :: new). split.
    + now rewrite <- app_assoc.
    + constructor; [|exact Hnew]. split; [reflexivity|].
      exists allocations. split; [exact Hbind | exact Hbind0].
Qed.

Lemma Forall2_In_l {A B : Type} (R : A -> B -> Prop) (l : list A) (l' : list B)
      (x : A) :
  Forall2 R l l' -> In x l -> exists y, In y l' /\ R x y.
Proof.
  induction 1 as [|a b l l' Hab _ IH]; intros Hin; [destruct Hin|].
  destruct Hin as [<-|Hin].
  - exists b. split; [now left | exact Hab].
  - destruct (IH Hin) as (y & Hy & Hxy). exists y. split; [now right | exact Hxy].
Qed.

Lemma find_min_error_prices_spec (norm : list Z -> Q) (instance : Instance)
      (neighbors : list (dict Q)) (initial_budgets : dict Q)
      (use_threads : bool) (t : error_tuple) :
  find_min_error_prices norm instance neighbors initial_budgets use_threads
  = Some t ->
  exists l1 l2,
    neighbors = l1 ++ snd t :: l2
    /\ evaluated norm instance initial_budgets use_threads (snd t) t
    /\ (forall p t', In p l1 ->
                     evaluated norm instance initial_budgets use_threads p t' ->
                     bound_lt (tuple_norm t) (tuple_norm t') = true)
    /\ (forall p t', In p l2 ->
                     evaluated norm instance initial_budgets use_threads p t' ->
                     bound_lt (tuple_norm t') (tuple_norm t) = false).
Proof.
  unfold find_min_error_prices. intros H. inv_bind H. rename a into errors.
  apply evaluate_neighbors_spec in Hbind. destruct Hbind as (new & -> & Hall).
  simpl app in H. apply min_by_norm_spec in H.
  destruct H as (e1 & e2 & -> & He1 & He2).
  apply Forall2_app_inv_r in Hall.
  destruct Hall as (l1 & l2' & Hl1 & Hl2 & ->).
  inversion Hl2 as [|p t0 l2 e2' Hpt Hrest]; subst.
  assert (Hp : snd t = p) by apply Hpt. subst p.
  exists l1, l2. repeat split; try apply Hpt.
  - intros p t' Hp Ht'. destruct (Forall2_In_l _ _ _ _ Hl1 Hp) as (y & Hy & Hpy).
    rewrite (evaluated_functional _ _ _ _ _ _ _ Ht' Hpy). now apply He1.
  - intros p t' Hp Ht'. destruct (Forall2_In_l _ _ _ _ Hrest Hp) as (y & Hy & Hpy).
    rewrite (evaluated_functional _ _ _ _ _ _ _ Ht' Hpy). now apply He2.
Qed.

(** X10. [find_min_error_prices] returns the tuple of the first neighbour
    whose best allocation has the least norm: the tuple is the one computed
    for that neighbour, every earlier neighbour has a strictly greater norm
    and no later neighbour a smaller one.  On an empty list of neighbours it
    raises (the [ValueError] of [min]). *)
Theorem find_min_error_prices_returns_first_minimum
        (norm : list Z -> Q) (instance : Instance) (initial_budgets : dict Q)
        (use_threads : bool) :
  find_min_error_prices norm instance [] initial_budgets use_threads = None
  /\ forall neighbors t,
    find_min_error_prices norm instance neighbors initial_budgets use_threads
    = Some t ->
    exists l1 l2,
      neighbors = l1 ++ snd t :: l2
      /\ evaluated norm instance initial_budgets use_threads (snd t) t
      /\ (forall p t', In p l1 ->
                       evaluated norm instance initial_budgets use_threads p t' ->
                       bound_lt (tuple_norm t) (tuple_norm t') = true)
      /\ (forall p t', In p l2 ->
                       evaluated norm instance initial_budgets use_threads p t' ->
                       bound_lt (tuple_norm t') (tuple_norm t) = false).
Proof.
  split; [reflexivity|]. intros neighbors t.
  apply find_min_error_prices_spec.
Qed.

(** ** [find_all_neighbors] *)

Lemma gradient_loop_not_tabu (prices : dict Q) (excess_demand_vector : dict Z)
      (history : list (list constraint)) (delta : list Q) :
  forall updated_prices new_neighbors res,
    Forall (fun n => is_tabu history n = Some false) new_neighbors ->
    gradient_loop prices delta excess_demand_vector history updated_prices
                  new_neighbors = Some res ->
    Forall (fun n => is_tabu history n = Some false) res.
Proof.
  induction delta as [|d delta IH]; intros updated_prices new_neighbors res Hnn H;
    simpl in H.
  - now injection H as <-.
  - inv_bind H. rename a into tabu. apply IH in H; [exact H|].
    destruct tabu; [exact Hnn|].
    apply Forall_app. split; [exact Hnn|]. constructor; [exact Hbind | constructor].
Qed.

Lemma find_all_neighbors_spec (instance : Instance)
      (history : list (list constraint)) (prices : dict Q) (delta : list Q)
      (excess_demand_vector : dict Z) (initial_budgets : dict Q)
      (allocation : dict (list string)) (use_threads : bool)
      (neighbors : list (dict Q)) :
  find_all_neighbors instance history prices delta excess_demand_vector
                     initial_budgets allocation use_threads = Some neighbors ->
  (exists gradient individual,
      find_gradient_neighbors prices delta excess_demand_vector history
      = Some gradient
      /\ find_individual_price_adjustment_neighbors
           instance history prices excess_demand_vector initial_budgets
           allocation use_threads = Some individual
      /\ neighbors = gradient ++ individual)
  /\ (forall n, In n neighbors -> is_tabu history n = Some false)
  /\ (non_negative prices -> Forall non_negative neighbors).
Proof.
  unfold find_all_neighbors. intros H. inv_bind H. rename a into gradient.
  inv_bind H. rename a into individual. injection H as <-.
  split; [now exists gradient, individual|]. split.
  - intros n Hn. apply in_app_or in Hn. destruct Hn as [Hn|Hn].
    + unfold find_gradient_neighbors in Hbind.
      apply gradient_loop_not_tabu in Hbind; [|constructor].
      rewrite Forall_forall in Hbind. now apply Hbind.
    + unfold find_individual_price_adjustment_neighbors in Hbind0.
      destruct (adjustment_loop_members _ _ _ _ _ _ _ _ _ Hbind0 n Hn)
        as [[]|(course & z & _ & Htabu & _)].
      exact Htabu.
  - intros Hprices. apply Forall_app. split.
    + unfold find_gradient_neighbors in Hbind.
      apply gradient_loop_non_negative in Hbind; [exact Hbind | | constructor].
      intros ? ? [].
    + unfold find_individual_price_adjustment_neighbors in Hbind0.
      apply adjustment_loop_non_negative in Hbind0;
        [exact Hbind0 | exact Hprices | constructor].
Qed.

(** X11. [find_all_neighbors] returns the gradient neighbours followed by the
    individual price adjustments; none of them is tabu for the history it
    was given, and where the prices are non-negative so is every neighbour. *)
Theorem find_all_neighbors_are_not_tabu
        (instance : Instance) (history : list (list constraint))
        (prices : dict Q) (delta : list Q) (excess_demand_vector : dict Z)
        (initial_budgets : dict Q) (allocation : dict (list string))
        (use_threads : bool) (neighbors : list (dict Q))
        (Hreturned : find_all_neighbors instance history prices delta
                                        excess_demand_vector initial_budgets
                                        allocation use_threads = Some neighbors) :
  (exists gradient individual,
      find_gradient_neighbors prices delta excess_demand_vector history
      = Some gradient
      /\ find_individual_price_adjustment_neighbors
           instance history prices excess_demand_vector initial_budgets
           allocation use_threads = Some individual
      /\ neighbors = gradient ++ individual)
  /\ (forall n, In n neighbors -> is_tabu history n = Some false)
  /\ (non_negative prices -> Forall non_negative neighbors).
Proof.
  destruct (find_all_neighbors_spec _ _ _ _ _ _ _ _ _ Hreturned)
    as (Hparts & Htabu & Hsign).
  split; [exact Hparts|]. split; [exact Htabu | exact Hsign].
Qed.

Lemma find_all_neighbors_are_not_tabu_witness :
  exists neighbors,
    find_all_neighbors
      ami_tami_tzumi
      [[total_at_most ["x"; "y"] 5; total_at_most ["x"; "y"] 4;
        total_at_most ["y"; "z"] 3]]
      [("x", 1); ("y", 2); ("z", 1)] [1]
      [("x", 0%Z); ("y", 2%Z); ("z", (-2)%Z)]
      [("ami", 5); ("tami", 4); ("tzumi", 3)]
      [("ami", ["x"; "y"]); ("tami", ["x"; "y"]); ("tzumi", ["y"; "z"])]
      false = Some neighbors
    /\ forall n, In n neighbors ->
                 is_tabu [[total_at_most ["x"; "y"] 5; total_at_most ["x"; "y"] 4;
                           total_at_most ["y"; "z"] 3]] n = Some false.
Proof.
  destruct (find_all_neighbors
              ami_tami_tzumi
              [[total_at_most ["x"; "y"] 5; total_at_most ["x"; "y"] 4;
                total_at_most ["y"; "z"] 3]]
              [("x", 1); ("y", 2); ("z", 1)] [1]
              [("x", 0%Z); ("y", 2%Z); ("z", (-2)%Z)]
              [("ami", 5); ("tami", 4); ("tzumi", 3)]
              [("ami", ["x"; "y"]); ("tami", ["x"; "y"]); ("tzumi", ["y"; "z"])]
              false) as [neighbors|] eqn:E; [|vm_compute in E; discriminate E].
  exists neighbors. split; [reflexivity|].
  destruct (find_all_neighbors_are_not_tabu _ _ _ _ _ _ _ _ _ E)
    as (_ & Htabu & _).
  exact Htabu.
Defined.

Lemma find_min_error_prices_returns_first_minimum_witness :
  exists t l1 l2,
    find_min_error_prices
      sum_of_squares ami_tami_tzumi
      [[("x", 1); ("y", 4); ("z", 0)]; [("x", 2); ("y", 4); ("z", 0)]]
      [("ami", 5); ("tami", 4); ("tzumi", 3)] false = Some t
    /\ [[("x", 1); ("y", 4); ("z", 0)]; [("x", 2); ("y", 4); ("z", 0)]]
       = l1 ++ snd t :: l2.
Proof.
  destruct (find_min_error_prices_returns_first_minimum
              sum_of_squares ami_tami_tzumi
              [("ami", 5); ("tami", 4); ("tzumi", 3)] false) as (_ & Hmin).
  destruct (find_min_error_prices
              sum_of_squares ami_tami_tzumi
              [[("x", 1); ("y", 4); ("z", 0)]; [("x", 2); ("y", 4); ("z", 0)]]
              [("ami", 5); ("tami", 4); ("tzumi", 3)] false)
    as [t|] eqn:E; [|vm_compute in E; discriminate E].
  destruct (Hmin _ t E) as (l1 & l2 & Hsplit & _).
  exists t, l1, l2. split; [reflexivity | exact Hsplit].
Defined.

(** ** The loop of [tabu_search] *)

Lemma best_bundles_valid (instance : Instance) (initial_budgets : dict Q)
      (use_threads : bool) (p : dict Q)
      (allocations : list (dict (list string))) :
  (if use_threads
   then student_best_bundles_with_threads p instance initial_budgets
   else student_best_bundles p instance initial_budgets) = Some allocations ->
  forall a, In a allocations -> valid p initial_budgets instance a.
Proof.
  intros H. destruct use_threads.
  - unfold student_best_bundles_with_threads in H. inv_bind H.
    now apply collect_valid_allocations_valid with a.
  - unfold student_best_bundles in H. inv_bind H.
    now apply collect_valid_allocations_valid with a.
Qed.

Lemma measured_of_min (norm : list Z -> Q) (instance : Instance)
      (initial_budgets : dict Q) (use_threads : bool) (p : dict Q)
      (allocations : list (dict (list string)))
      (a : dict (list string)) (e : dict Z) (n : price_bound) :
  (if use_threads
   then student_best_bundles_with_threads p instance initial_budgets
   else student_best_bundles p instance initial_budgets) = Some allocations ->
  min_excess_demand_for_allocation norm instance p allocations = Some (a, e, n) ->
  measured norm instance initial_budgets p a e n.
Proof.
  intros Hbest Hmin. destruct allocations as [|a0 allocations].
  - injection Hmin as <- <- <-. left. repeat split.
  - apply min_excess_demand_nonempty in Hmin; [|discriminate].
    destruct Hmin as (l1 & l2 & Hsplit & Hc & Hn & _). right.
    split; [|split; assumption].
    apply (best_bundles_valid _ _ _ _ _ Hbest). rewrite Hsplit.
    apply in_or_app. right. now left.
Qed.

Lemma tabu_start_invariant (norm : list Z -> Q) (instance : Instance)
      (initial_budgets : dict Q) (use_threads : bool) (prices : dict Q)
      (st : tabu_state) :
  non_negative prices ->
  tabu_start norm instance initial_budgets use_threads prices = Some st ->
  tabu_invariant norm instance initial_budgets st.
Proof.
  intros Hprices H. unfold tabu_start in H. inv_bind H. rename a into allocations.
  inv_bind H. destruct a as [[allocation excess] norma]. injection H as <-.
  pose proof (measured_of_min _ _ _ _ _ _ _ _ _ Hbind Hbind0) as Hm.
  unfold tabu_invariant. simpl. repeat split; try assumption.
  - now exists excess.
  - apply bound_lt_irrefl.
Qed.

Lemma tabu_body_spec (norm : list Z -> Q) (instance : Instance)
      (initial_budgets : dict Q) (delta : list Q) (use_threads : bool)
      (st st' : tabu_state) (continue : bool) :
  tabu_body norm instance initial_budgets delta use_threads st
  = Some (continue, st') ->
  (continue = false /\ st' = st
   /\ (truthy (ts_norma st) = false \/ allclose_zero (ts_norma st) = true))
  \/ exists equivalent_prices neighbors,
      find_all_equivalent_prices instance initial_budgets (ts_allocation st)
      = Some equivalent_prices
      /\ ts_history st'
         = ts_history st ++ [map (eval_predicate initial_budgets) equivalent_prices]
      /\ find_all_neighbors instance (ts_history st') (ts_prices st) delta
                            (ts_excess_demand_vector st) initial_budgets
                            (ts_allocation st) use_threads = Some neighbors
      /\ ((continue = false /\ neighbors = []
           /\ ts_prices st' = ts_prices st
           /\ ts_allocation st' = ts_allocation st
           /\ ts_excess_demand_vector st' = ts_excess_demand_vector st
           /\ ts_norma st' = ts_norma st
           /\ ts_best_allocation st' = ts_best_allocation st
           /\ ts_best_prices st' = ts_best_prices st
           /\ ts_best_norma st' = ts_best_norma st)
          \/ (continue = true
              /\ find_min_error_prices norm instance neighbors initial_budgets
                                       use_threads
                 = Some (ts_allocation st', ts_excess_demand_vector st',
                         ts_norma st', ts_prices st')
              /\ ((bound_lt (ts_norma st') (ts_best_norma st) = true
                   /\ ts_best_allocation st' = ts_allocation st'
                   /\ ts_best_prices st' = ts_prices st'
                   /\ ts_best_norma st' = ts_norma st')
                  \/ (bound_lt (ts_norma st') (ts_best_norma st) = false
                      /\ ts_best_allocation st' = ts_best_allocation st
                      /\ ts_best_prices st' = ts_best_prices st
                      /\ ts_best_norma st' = ts_best_norma st)))).
Proof.
  unfold tabu_body. intros H.
  destruct (truthy (ts_norma st)) eqn:Et; simpl in H.
  2:{ injection H as <- <-. left. auto. }
  destruct (allclose_zero (ts_norma st)) eqn:Ec.
  { injection H as <- <-. left. auto. }
  inv_bind H. rename a into equivalent_prices. inv_bind H. rename a into neighbors.
  right. exists equivalent_prices, neighbors.
  destruct (Nat.eqb (length neighbors) 0) eqn:El.
  - injection H as <- <-. simpl. repeat split; try assumption.
    left. repeat split. apply Nat.eqb_eq in El.
    now destruct neighbors.
  - inv_bind H. destruct a as [[[allocation excess] norma] prices].
    injection H as <- <-. simpl. repeat split; try assumption.
    right. split; [reflexivity|]. split; [exact Hbind1|].
    destruct (bound_lt norma (ts_best_norma st)); [left | right]; repeat split.
Qed.

Lemma tabu_body_invariant (norm : list Z -> Q) (instance : Instance)
      (initial_budgets : dict Q) (delta : list Q) (use_threads : bool)
      (st st' : tabu_state) (continue : bool) :
  tabu_invariant norm instance initial_budgets st ->
  tabu_body norm instance initial_budgets delta use_threads st
  = Some (continue, st') ->
  tabu_invariant norm instance initial_budgets st'
  /\ bound_lt (ts_best_norma st) (ts_best_norma st') = false.
Proof.
  intros (Hp & Hbp & Hm & Hbm & Hle) H. apply tabu_body_spec in H.
  destruct H as [(_ & -> & _)|(fs & neighbors & _ & _ & Hn & H)].
  { split; [now repeat split | apply bound_lt_irrefl]. }
  destruct H as [(_ & _ & E1 & E2 & E3 & E4 & E5 & E6 & E7)|(_ & Hmin & H)].
  { unfold tabu_invariant. rewrite E1, E2, E3, E4, E5, E6, E7.
    split; [now repeat split | apply bound_lt_irrefl]. }
  apply find_min_error_prices_spec in Hmin.
  destruct Hmin as (l1 & l2 & Hsplit & (_ & allocations & Hbest & Hmin) & _).
  simpl in Hsplit, Hbest, Hmin.
  pose proof (measured_of_min _ _ _ _ _ _ _ _ _ Hbest Hmin) as Hm'.
  assert (Hp' : non_negative (ts_prices st')).
  { apply find_all_neighbors_spec in Hn. destruct Hn as (_ & _ & Hnn).
    specialize (Hnn Hp). rewrite Forall_forall in Hnn. apply Hnn.
    rewrite Hsplit. apply in_or_app. right. now left. }
  unfold tabu_invariant.
  destruct H as [(Hlt & E1 & E2 & E3)|(Hge & E1 & E2 & E3)];
    rewrite E1, E2, E3.
  - split; [|now apply bound_lt_asym]. repeat split; try assumption.
    + now exists (ts_excess_demand_vector st').
    + apply bound_lt_irrefl.
  - split; [|apply bound_lt_irrefl]. repeat split; assumption.
Qed.

Lemma tabu_loop_invariant (norm : list Z -> Q) (instance : Instance)
      (initial_budgets : dict Q) (delta : list Q) (use_threads : bool)
      (fuel : nat) :
  forall st final,
    tabu_invariant norm instance initial_budgets st ->
    tabu_loop norm fuel instance initial_budgets delta use_threads st
    = Some (Some final) ->
    tabu_invariant norm instance initial_budgets final
    /\ bound_lt (ts_best_norma st) (ts_best_norma final) = false
    /\ (truthy (ts_norma final) = false
        \/ allclose_zero (ts_norma final) = true
        \/ find_all_neighbors instance (ts_history final) (ts_prices final) delta
                              (ts_excess_demand_vector final) initial_budgets
                              (ts_allocation final) use_threads = Some []).
Proof.
  induction fuel as [|fuel IH]; intros st final Hinv H; simpl in H;
    [discriminate|].
  inv_bind H. destruct a as [continue st'].
  destruct (tabu_body_invariant _ _ _ _ _ _ _ _ Hinv Hbind) as (Hinv' & Hle).
  destruct continue.
  - destruct (IH _ _ Hinv' H) as (Hfinal & Hle' & Hstop).
    split; [exact Hfinal|]. split; [|exact Hstop].
    now apply bound_le_trans with (ts_best_norma st').
  - injection H as <-. split; [exact Hinv'|]. split; [exact Hle|].
    apply tabu_body_spec in Hbind.
    destruct Hbind as [(_ & -> & [Ht|Hc])|(fs & neighbors & _ & _ & Hn & Hcase)];
      [now left | now right; left |].
    destruct Hcase as [(_ & -> & E1 & E2 & E3 & _)|(Hcontra & _)];
      [|discriminate Hcontra].
    right. right. now rewrite E1, E2, E3.
Qed.

(** X12. Started from non-negative prices, a run of [tabu_search] that
    returns gives back the best allocation of a final state in which: the
    current and the best prices are non-negative; the best allocation is
    either empty with an infinite norm, or within every budget at the best
    prices with the best norm being the norm of its clipped excess demand
    there; the best norm is no greater than the current norm nor than the
    norm the run started with; and the loop was left because the current norm
    is zero or close to zero, or because no neighbour was found. *)
Theorem tabu_search_returns_best_measured_allocation
        (norm : list Z -> Q) (fuel : nat) (instance : Instance)
        (initial_budgets : dict Q) (delta : list Q) (use_threads : bool)
        (prices : dict Q) (allocation : dict (list string))
        (Hprices : non_negative prices)
        (Hreturned : tabu_search norm fuel instance initial_budgets delta
                                 use_threads prices = Some (Some allocation)) :
  exists start final,
    tabu_start norm instance initial_budgets use_threads prices = Some start
    /\ tabu_loop norm fuel instance initial_budgets delta use_threads start
       = Some (Some final)
    /\ allocation = ts_best_allocation final
    /\ tabu_invariant norm instance initial_budgets final
    /\ bound_lt (ts_best_norma start) (ts_best_norma final) = false
    /\ (truthy (ts_norma final) = false
        \/ allclose_zero (ts_norma final) = true
        \/ find_all_neighbors instance (ts_history final) (ts_prices final) delta
                              (ts_excess_demand_vector final) initial_budgets
                              (ts_allocation final) use_threads = Some []).
Proof.
  unfold tabu_search in Hreturned. inv_bind Hreturned. rename a into start.
  inv_bind Hreturned. destruct a as [final|]; [|discriminate Hreturned].
  injection Hreturned as <-. exists start, final.
  pose proof (tabu_start_invariant _ _ _ _ _ _ Hprices Hbind) as Hinv.
  destruct (tabu_loop_invariant _ _ _ _ _ _ _ _ Hinv Hbind0)
    as (Hfinal & Hle & Hstop).
  split; [exact Hbind|]. split; [exact Hbind0|]. split; [reflexivity|].
  split; [exact Hfinal|]. split; [exact Hle | exact Hstop].
Qed.

Lemma tabu_search_returns_best_measured_allocation_witness :
  exists start final,
    tabu_start sum_of_squares ami_tami_tzumi
               [("ami", 5); ("tami", 4); ("tzumi", 3)] false
               [("x", 1); ("y", 2); ("z", 1)] = Some start
    /\ [("ami", ["y"; "z"]); ("tami", ["x"; "z"]); ("tzumi", ["x"; "z"])]
       = ts_best_allocation final
    /\ tabu_invariant sum_of_squares ami_tami_tzumi
                      [("ami", 5); ("tami", 4); ("tzumi", 3)] final.
Proof.
  assert (Hprices : non_negative [("x", 1); ("y", 2); ("z", 1)]).
  { intros item price [H|[H|[H|[]]]]; injection H as _ <-; discriminate. }
  destruct (tabu_search_returns_best_measured_allocation
              sum_of_squares 3 ami_tami_tzumi
              [("ami", 5); ("tami", 4); ("tzumi", 3)] [1] false
              [("x", 1); ("y", 2); ("z", 1)]
              [("ami", ["y"; "z"]); ("tami", ["x"; "z"]); ("tzumi", ["x"; "z"])]
              Hprices)
    as (start & final & Hstart & _ & Hbest & Hinv & _).
  - vm_compute. reflexivity.
  - exists start, final. split; [exact Hstart|]. split; [exact Hbest | exact Hinv].
Defined.

(** X13. An iteration of the loop of [tabu_search] that moves on appends the
    constraints of the current allocation to the history and moves to prices
    that are not tabu for the history so extended; these prices are one of
    the neighbours of the current prices. *)
Theorem tabu_step_moves_to_untabu_prices
        (norm : list Z -> Q) (instance : Instance) (initial_budgets : dict Q)
        (delta : list Q) (use_threads : bool) (st st' : tabu_state)
        (Hstep : tabu_body norm instance initial_budgets delta use_threads st
                 = Some (true, st')) :
  exists equivalent_prices neighbors,
    find_all_equivalent_prices instance initial_budgets (ts_allocation st)
    = Some equivalent_prices
    /\ ts_history st'
       = ts_history st ++ [map (eval_predicate initial_budgets) equivalent_prices]
    /\ find_all_neighbors instance (ts_history st') (ts_prices st) delta
                          (ts_excess_demand_vector st) initial_budgets
                          (ts_allocation st) use_threads = Some neighbors
    /\ In (ts_prices st') neighbors
    /\ is_tabu (ts_history st') (ts_prices st') = Some false.
Proof.
  apply tabu_body_spec in Hstep.
  destruct Hstep as [(Hcontra & _)|(fs & neighbors & Hfs & Hh & Hn & H)];
    [discriminate Hcontra|].
  destruct H as [(Hcontra & _)|(_ & Hmin & _)]; [discriminate Hcontra|].
  exists fs, neighbors. repeat split; try assumption.
  - apply find_min_error_prices_spec in Hmin.
    destruct Hmin as (l1 & l2 & Hsplit & _). simpl in Hsplit. rewrite Hsplit.
    apply in_or_app. right. now left.
  - apply find_all_neighbors_spec in Hn. destruct Hn as (_ & Htabu & _).
    apply Htabu. apply find_min_error_prices_spec in Hmin.
    destruct Hmin as (l1 & l2 & Hsplit & _). simpl in Hsplit. rewrite Hsplit.
    apply in_or_app. right. now left.
Qed.

Lemma tabu_step_moves_to_untabu_prices_witness :
  exists st',
    tabu_body sum_of_squares ami_tami_tzumi
              [("ami", 5); ("tami", 4); ("tzumi", 3)] [1] false tzumi_start
    = Some (true, st')
    /\ is_tabu (ts_history st') (ts_prices st') = Some false.
Proof.
  destruct (tabu_body sum_of_squares ami_tami_tzumi
                      [("ami", 5); ("tami", 4); ("tzumi", 3)] [1] false
                      tzumi_start) as [[[|] st']|] eqn:E;
    [|vm_compute in E; discriminate E|vm_compute in E; discriminate E].
  exists st'. split; [reflexivity|].
  destruct (tabu_step_moves_to_untabu_prices _ _ _ _ _ _ _ E)
    as (fs & neighbors & _ & _ & _ & _ & Htabu).
  exact Htabu.
Defined.

Example tzumi_start_is_the_start :
  tabu_start sum_of_squares ami_tami_tzumi
             [("ami", 5); ("tami", 4); ("tzumi", 3)] false
             [("x", 1); ("y", 2); ("z", 1)] = Some tzumi_start.
Proof. vm_compute. reflexivity. Qed.

(** ** The window walk picks best bundles *)

Section WindowOptimal.
Variables (prices : dict Q) (min_budget max_budget : Q)
          (val : list string -> Q).
Hypothesis Hwindow : min_budget <= max_budget.

(** [past] holds the combinations the walk has left behind: none of them is
    priced within the lower end of the window, and none within the window is
    priced below [min_price]. *)
Lemma window_walk_optimal (combs : list (list string)) :
  forall past min_price best w,
    descending val combs ->
    walk_invariant min_budget min_price best ->
    (forall c' p', In c' past -> bundle_price prices c' = Some p' ->
                   ~ p' <= min_budget
                   /\ (p' <= max_budget -> below p' min_price = false)) ->
    window_walk prices min_budget max_budget combs min_price best = Some w ->
    exists t,
      w = best ++ t
      /\ forall k c, In (k, c) t ->
                     forall c' p', In c' (past ++ combs) ->
                                   bundle_price prices c' = Some p' ->
                                   p' <= k -> val c' <= val c.
Proof.
  induction combs as [|c combs IH]; intros past mp best w Hdesc Hinv Hpast H;
    simpl in H.
  - injection H as <-. exists []. split; [now rewrite app_nil_r | intros ? ? []].
  - inv_bind H. rename a into pc.
    inversion Hdesc as [|? ? Hdesc' Hall]; subst.
    rewrite Forall_forall in Hall.
    assert (Hskip :
              forall mp' best',
                walk_invariant min_budget mp' best' ->
                (forall c' p', In c' (past ++ [c]) ->
                               bundle_price prices c' = Some p' ->
                               ~ p' <= min_budget
                               /\ (p' <= max_budget -> below p' mp' = false)) ->
                window_walk prices min_budget max_budget combs mp' best' = Some w ->
                exists t,
                  w = best' ++ t
                  /\ forall k c0, In (k, c0) t ->
                                  forall c' p', In c' (past ++ c :: combs) ->
                                                bundle_price prices c' = Some p' ->
                                                p' <= k -> val c' <= val c0).
    { intros mp' best' Hinv' Hpast' Hw.
      destruct (IH (past ++ [c]) mp' best' w Hdesc' Hinv' Hpast' Hw)
        as (t & -> & Ht).
      exists t. split; [reflexivity|]. intros k c0 Hin c' p' Hc'.
      apply (Ht k c0 Hin c' p'). rewrite <- app_assoc. exact Hc'. }
    destruct (Qle_bool pc max_budget) eqn:Emax.
    + destruct (Qle_bool pc min_budget) eqn:Emin.
      * injection H as <-. rewrite (walk_stop_record _ mp best c Hinv).
        exists [(min_budget, c)]. split; [reflexivity|].
        intros k c0 [[= <- <-]|[]] c' p' Hc' Hp' Hle.
        apply in_app_or in Hc'. destruct Hc' as [Hc'|[<-|Hc']].
        -- exfalso. destruct (Hpast c' p' Hc' Hp') as [Hlo _]. contradiction.
        -- apply Qle_refl.
        -- now apply Hall.
      * apply Qle_bool_false in Emin. destruct (below pc mp) eqn:Eb.
        -- destruct (walk_invariant_record _ mp best pc c Hinv Emin Eb)
             as [Eset Hinv'].
           rewrite Eset in H.
           destruct (Hskip (Finite pc) (best ++ [(pc, c)]) Hinv') as (t & -> & Ht);
             [|exact H|].
           { intros c' p' Hc' Hp'. apply in_app_or in Hc'.
             destruct Hc' as [Hc'|[<-|[]]].
             - destruct (Hpast c' p' Hc' Hp') as [Hlo Hhi].
               split; [exact Hlo|]. intros Hle. specialize (Hhi Hle).
               simpl. apply Qlt_bool_false.
               destruct mp as [|m]; simpl in Hhi, Eb; [discriminate Hhi|].
               apply Qlt_bool_false in Hhi. apply Qlt_bool_iff in Eb.
               apply Qlt_le_weak. now apply Qlt_le_trans with m.
             - rewrite Hbind in Hp'. injection Hp' as <-.
               split; [exact Emin|]. intros _. simpl.
               apply Qlt_bool_false. apply Qle_refl. }
           exists ((pc, c) :: t). split; [now rewrite <- app_assoc|].
           intros k c0 [[= <- <-]|Hin] c' p' Hc' Hp' Hle;
             [|now apply (Ht k c0 Hin c' p')].
           apply in_app_or in Hc'. destruct Hc' as [Hc'|[<-|Hc']].
           ++ exfalso. destruct (Hpast c' p' Hc' Hp') as [Hlo Hhi].
              assert (Hmax : p' <= max_budget).
              { apply Qle_trans with pc; [exact Hle|].
                now apply Qle_bool_iff. }
              specialize (Hhi Hmax).
              destruct mp as [|m]; simpl in Hhi, Eb; [discriminate Hhi|].
              apply Qlt_bool_false in Hhi. apply Qlt_bool_iff in Eb.
              apply (Qlt_irrefl m). apply Qle_lt_trans with p'; [exact Hhi|].
              now apply Qle_lt_trans with pc.
           ++ apply Qle_refl.
           ++ now apply Hall.
        -- apply (Hskip mp best); [exact Hinv | | exact H].
           intros c' p' Hc' Hp'. apply in_app_or in Hc'.
           destruct Hc' as [Hc'|[<-|[]]]; [now apply (Hpast c' p')|].
           rewrite Hbind in Hp'. injection Hp' as <-.
           split; [exact Emin | intros _; exact Eb].
    + apply (Hskip mp best); [exact Hinv | | exact H].
      apply Qle_bool_false in Emax.
      intros c' p' Hc' Hp'. apply in_app_or in Hc'.
      destruct Hc' as [Hc'|[<-|[]]]; [now apply (Hpast c' p')|].
      rewrite Hbind in Hp'. injection Hp' as <-. split.
      * intros Hle. apply Emax. now apply Qle_trans with min_budget.
      * intros Hle. contradiction.
Qed.
End WindowOptimal.

(** X14. In the result of [student_best_bundle_per_budget], every entry
    [(k, c)] of a student pairs a budget with a best bundle for it: [c] is
    priced within [k], and no combination of the student that is priced
    within [k] ranks above [c] (by value, with the bonus of a full bundle). *)
Theorem window_entries_are_best_within_budget
        (prices : dict Q) (instance : Instance) (epsilon : Q)
        (initial_budgets : dict Q) (result : dict (qdict (list string)))
        (student : string) (k : Q) (c : list string)
        (Hagents : NoDup (agents instance))
        (Hepsilon : 0 <= epsilon)
        (Hresult : student_best_bundle_per_budget prices instance epsilon
                                                  initial_budgets = Some result)
        (Hstudent : In student (agents instance))
        (Hentry : In (k, c) (get_default result student [])) :
  (exists pc, bundle_price prices c = Some pc /\ pc <= k)
  /\ forall c' p',
    In c' (combinations_courses_list instance student) ->
    bundle_price prices c' = Some p' ->
    p' <= k ->
    window_valuation instance student c' <= window_valuation instance student c.
Proof.
  destruct (student_best_bundle_per_budget_get _ _ _ _ _ _ Hagents Hresult Hstudent)
    as (w & Hw & Hget).
  unfold get_default in Hentry. rewrite Hget in Hentry.
  unfold window_of in Hw. inv_bind Hw. rename a into budget.
  assert (Hwindow : budget - epsilon <= budget + epsilon).
  { apply Qplus_le_r.
    apply Qle_trans with 0; [|exact Hepsilon].
    apply (Qopp_le_compat 0 epsilon) in Hepsilon. exact Hepsilon. }
  split.
  - destruct (window_walk_entries prices (budget - epsilon) (budget + epsilon)
                                  _ _ _ _ (walk_invariant_start _) Hw)
      as (t & Et & Ht).
    simpl in Et. subst t.
    destruct (in_split _ _ Hentry) as (w1 & w2 & Hsplit).
    destruct (Ht w1 k c w2 Hsplit) as [_ (pc & Hpc & Hcase)].
    exists pc. split; [exact Hpc|].
    destruct Hcase as [(-> & Hle & _)|(-> & _)]; [exact Hle | apply Qle_refl].
  - intros c' p' Hc' Hp' Hle.
    destruct (window_walk_optimal
                prices (budget - epsilon) (budget + epsilon)
                (window_valuation instance student) Hwindow
                (window_combinations_sorted instance student)
                [] Infinity [] w) as (t & Et & Ht).
    + apply sorted_desc_descending.
    + apply walk_invariant_start.
    + intros ? ? [].
    + exact Hw.
    + simpl in Et. subst t. apply (Ht k c Hentry c' p'); [|exact Hp'|exact Hle].
      simpl. unfold window_combinations_sorted.
      apply (Permutation_in c' (sorted_desc_perm _ _)). exact Hc'.
Qed.

Lemma window_entries_are_best_within_budget_witness :
  exists pc,
    bundle_price [("x", 5 # 2); ("y", 0); ("z", 0)] ["x"; "y"] = Some pc
    /\ pc <= 0 + (5 # 2) + 0.
Proof.
  destruct (window_entries_are_best_within_budget
              [("x", 5 # 2); ("y", 0); ("z", 0)] alice_bob 2
              [("Alice", 5); ("Bob", 4)]
              [("Alice", [(5 - 2, ["x"; "y"])]);
               ("Bob", [(0 + (5 # 2) + 0, ["x"; "y"]); (4 - 2, ["y"; "z"])])]
              "Bob" (0 + (5 # 2) + 0) ["x"; "y"]) as [Hprice _].
  - solve_nodup.
  - discriminate.
  - vm_compute. reflexivity.
  - simpl. auto.
  - simpl. left. reflexivity.
  - exact Hprice.
Defined.

(** ** The price update of [find_ACEEI_with_EFTB] *)

Lemma update_prices_spec (delta : Q) (excess_demand_per_course : dict Q)
      (post : dict Q) :
  forall pre,
    NoDup (keys (pre ++ post)) ->
    match update_prices (keys post) (pre ++ post) delta excess_demand_per_course
    with
    | Some prices' =>
        exists post',
          prices' = pre ++ post'
          /\ Forall2 (updated_entry delta excess_demand_per_course) post post'
    | None =>
        exists k, In k (keys post) /\ get excess_demand_per_course k = None
    end.
Proof.
  induction post as [|[k p] post IH]; intros pre Hnd; simpl.
  - exists []. split; [reflexivity | constructor].
  - assert (Hk : ~ In k (keys pre)).
    { rewrite keys_app in Hnd. simpl in Hnd. apply NoDup_remove_2 in Hnd.
      intros Hin. apply Hnd. apply in_or_app. now left. }
    rewrite (get_app_fresh pre _ k Hk). simpl. rewrite String.eqb_refl. simpl.
    destruct (get excess_demand_per_course k) as [z|] eqn:Ez; simpl.
    + rewrite (set_app_fresh pre _ k _ Hk), set_head.
      change (pre ++ (k, p + delta * z) :: post)
        with (pre ++ [(k, p + delta * z)] ++ post).
      rewrite app_assoc.
      specialize (IH (pre ++ [(k, p + delta * z)])).
      assert (Hnd' : NoDup (keys ((pre ++ [(k, p + delta * z)]) ++ post))).
      { rewrite <- app_assoc. rewrite keys_app in *. exact Hnd. }
      specialize (IH Hnd').
      destruct (update_prices (keys post) ((pre ++ [(k, p + delta * z)]) ++ post)
                              delta excess_demand_per_course) as [prices'|].
      * destruct IH as (post' & -> & Hall).
        exists ((k, p + delta * z) :: post'). split; [now rewrite <- app_assoc|].
        constructor; [|exact Hall]. split; [reflexivity|].
        exists z. split; [exact Ez | reflexivity].
      * destruct IH as (k' & Hk' & E). exists k'. split; [now right | exact E].
    + exists k. split; [now left | exact Ez].
Qed.

(** X15. With distinct price keys, the price update of
    [find_ACEEI_with_EFTB] moves the price of every item by [delta] times the
    item's excess demand and keeps the items and their order; it raises
    [KeyError] exactly when an item has no excess demand entry. *)
Theorem price_update_adds_scaled_excess_demand
        (prices : dict Q) (delta : Q) (excess_demand_per_course : dict Q)
        (Hkeys : NoDup (keys prices)) :
  (price_update prices delta excess_demand_per_course = None
   <-> exists k, In k (keys prices) /\ get excess_demand_per_course k = None)
  /\ forall prices',
    price_update prices delta excess_demand_per_course = Some prices' ->
    Forall2 (updated_entry delta excess_demand_per_course) prices prices'.
Proof.
  pose proof (update_prices_spec delta excess_demand_per_course prices [] Hkeys)
    as H.
  simpl in H. unfold price_update.
  destruct (update_prices (keys prices) prices delta excess_demand_per_course)
    as [prices'|].
  - destruct H as (post' & -> & Hall). split.
    + split; [discriminate|]. intros (k & Hk & E). exfalso.
      unfold keys in Hk. apply in_map_iff in Hk. destruct Hk as (kp & <- & Hkp).
      destruct (Forall2_In_l _ _ _ _ Hall Hkp) as (kp' & _ & _ & z & Hz & _).
      congruence.
    + intros ? [= <-]. exact Hall.
  - split; [|discriminate]. split; [intros _; exact H | reflexivity].
Qed.

Lemma price_update_adds_scaled_excess_demand_witness :
  Forall2 (updated_entry (1 # 2) [("x", 2); ("y", -1)])
          [("x", 1); ("y", 2)]
          [("x", 1 + (1 # 2) * 2); ("y", 2 + (1 # 2) * -1)].
Proof.
  assert (Hnd : NoDup (keys [("x", 1); ("y", 2)])) by solve_nodup.
  destruct (price_update_adds_scaled_excess_demand
              [("x", 1); ("y", 2)] (1 # 2) [("x", 2); ("y", -1)] Hnd)
    as [_ Hupdate].
  apply Hupdate. reflexivity.
Defined.

(** ** The two families of [find_all_equivalent_prices] *)

Lemma budget_constraints_exact (allocation : dict (list string))
      (students : list string) :
  forall acc,
    match budget_constraints allocation students acc with
    | Some fs =>
        exists ks, fs = acc ++ ks
                   /\ Forall2 (budget_predicate allocation) students ks
    | None => exists s, In s students /\ get allocation s = None
    end.
Proof.
  induction students as [|s students IH]; intros acc; simpl.
  - exists []. split; [now rewrite app_nil_r | constructor].
  - destruct (get allocation s) as [keys|] eqn:E; simpl.
    + specialize (IH (acc ++ [{| pred_agent := s; pred_keys := keys;
                                 pred_kind := AtMost |}])).
      destruct (budget_constraints allocation students _) as [fs|].
      * destruct IH as (ks & -> & Hall). eexists. split; [now rewrite <- app_assoc|].
        constructor; [|exact Hall]. exists keys. split; [exact E | reflexivity].
      * destruct IH as (s' & Hs' & E'). exists s'. split; [now right | exact E'].
    + exists s. split; [now left | exact E].
Qed.

Lemma improvement_constraints_raises (instance : Instance)
      (allocation : dict (list string)) (students : list string) :
  forall acc,
    improvement_constraints instance allocation students acc = None ->
    exists s, In s students /\ get allocation s = None.
Proof.
  induction students as [|s students IH]; intros acc H; simpl in H;
    [discriminate|].
  destruct (get allocation s) as [keys|] eqn:E; simpl in H.
  - destruct (IH _ H) as (s' & Hs' & E'). exists s'. split; [now right | exact E'].
  - exists s. split; [now left | exact E].
Qed.

Lemma all_hold_true_In (initial_budgets : dict Q) (fs : list predicate)
      (p : dict Q) :
  all_hold (map (eval_predicate initial_budgets) fs) p = Some true ->
  forall f, In f fs -> eval_predicate initial_budgets f p = Some true.
Proof.
  induction fs as [|f0 fs IH]; intros H f Hf; simpl in H; [destruct Hf|].
  inv_bind H. destruct a; [|discriminate H].
  destruct Hf as [<-|Hf]; [exact Hbind | now apply IH].
Qed.

(** X16. [find_all_equivalent_prices] raises [KeyError] exactly when an agent
    has no bundle in the allocation.  Where it returns, the list starts with
    one predicate "the price of the agent's bundle is at most the budget" per
    agent, in the order of the agents; every predicate after these says "the
    price of the agent's own bundle is above the budget"; so, as soon as the
    list holds one predicate of the second kind, no price vector makes all
    its predicates true. *)
Theorem equivalent_prices_two_families
        (instance : Instance) (initial_budgets : dict Q)
        (allocation : dict (list string)) :
  (find_all_equivalent_prices instance initial_budgets allocation = None
   <-> exists s, In s (agents instance) /\ get allocation s = None)
  /\ forall fs,
    find_all_equivalent_prices instance initial_budgets allocation = Some fs ->
    exists first second,
      fs = first ++ second
      /\ Forall2 (budget_predicate allocation) (agents instance) first
      /\ (forall f, In f second ->
                    pred_kind f = Above
                    /\ In (pred_agent f) (agents instance)
                    /\ get allocation (pred_agent f) = Some (pred_keys f))
      /\ (second <> [] ->
          forall p,
            all_hold (map (eval_predicate initial_budgets) fs) p <> Some true).
Proof.
  unfold find_all_equivalent_prices.
  pose proof (budget_constraints_exact allocation (agents instance) []) as Hfirst.
  destruct (budget_constraints allocation (agents instance) []) as [first|];
    simpl.
  - destruct Hfirst as (ks & E & Hall). simpl in E. subst ks. split.
    + split.
      * intros H. now apply improvement_constraints_raises in H.
      * intros (s & Hs & E). exfalso.
        destruct (Forall2_In_l _ _ _ _ Hall Hs) as (f & _ & keys & Hget & _).
        congruence.
    + intros fs H.
      destruct (improvement_constraints_spec _ _ _ _ _ H) as (second & -> & Hsecond).
      exists first, second. split; [reflexivity|]. split; [exact Hall|].
      split; [exact Hsecond|].
      intros Hne p Htrue. destruct second as [|f second]; [now apply Hne|].
      destruct (Hsecond f (or_introl eq_refl)) as (Hkind & Hagent & Hget).
      destruct (Forall2_In_l _ _ _ _ Hall Hagent) as (g & Hg & keys & Hget' & ->).
      rewrite Hget in Hget'. injection Hget' as <-.
      assert (Hf : In f (first ++ f :: second))
        by (apply in_or_app; right; now left).
      pose proof (all_hold_true_In _ _ _ Htrue f Hf) as Ef.
      pose proof (all_hold_true_In _ _ _ Htrue _
                                   (in_or_app _ _ _ (or_introl Hg))) as Eg.
      unfold eval_predicate in Ef, Eg. simpl in Eg. rewrite Hkind in Ef.
      destruct (bundle_price p (pred_keys f)) as [total|]; [|discriminate].
      destruct (get initial_budgets (pred_agent f)) as [budget|]; [|discriminate].
      simpl in Ef, Eg. injection Ef as Ef. injection Eg as Eg.
      unfold Qlt_bool in Ef. rewrite Eg in Ef. discriminate Ef.
  - split; [|discriminate]. split; [intros _; exact Hfirst | reflexivity].
Qed.

Lemma equivalent_prices_two_families_witness :
  exists first second,
    [{| pred_agent := "A"; pred_keys := ["y"]; pred_kind := AtMost |};
     {| pred_agent := "A"; pred_keys := ["y"]; pred_kind := Above |}]
    = first ++ second
    /\ Forall2 (budget_predicate [("A", ["y"])]) (agents one_student) first.
Proof.
  destruct (equivalent_prices_two_families one_student [("A", 2)] [("A", ["y"])])
    as [_ Hfamilies].
  destruct (Hfamilies
              [{| pred_agent := "A"; pred_keys := ["y"]; pred_kind := AtMost |};
               {| pred_agent := "A"; pred_keys := ["y"]; pred_kind := Above |}]
              eq_refl)
    as (first & second & Hsplit & Hfirst & _).
  exists first, second. split; [exact Hsplit | exact Hfirst].
Defined.


(** * The unaffordable agent in both modes *)

(** C6, as the code has it.  An agent for whom no combination of size
    1..capacity is affordable raises no error.  In fixed-budget mode the
    agent's list of best bundles is exactly the empty bundle, every returned
    allocation gives the agent the empty bundle, and at least one allocation
    is returned where the agents are distinct and no budget is negative.  In
    window mode the agent's budget-to-bundle dictionary is returned empty: no
    bundle is recorded for the agent, not even the empty one. *)
Theorem unaffordable_agent_is_not_an_error
        (prices initial_budgets : dict Q) (instance : Instance)
        (student : string) (budget : Q)
        (Hcovered : covered prices initial_budgets instance)
        (Hstudent : In student (agents instance))
        (Hbudget : get initial_budgets student = Some budget) :
  ((forall c p, In c (combinations_courses_list instance student) ->
                bundle_price prices c = Some p -> ~ p <= budget) ->
   best_of prices initial_budgets instance student = Some [[]]
   /\ exists allocations,
     student_best_bundles prices instance initial_budgets = Some allocations
     /\ (forall a, In a allocations -> get a student = Some [])
     /\ (NoDup (agents instance) ->
         (forall s b, In s (agents instance) ->
                      get initial_budgets s = Some b -> 0 <= b) ->
         allocations <> []))
  /\ (forall epsilon,
         (forall c p, In c (combinations_courses_list instance student) ->
                      bundle_price prices c = Some p -> ~ p <= budget + epsilon) ->
         exists result,
           student_best_bundle_per_budget prices instance epsilon initial_budgets
           = Some result
           /\ get result student = Some []).
Proof.
  split.
  - intros Hnone.
    assert (Hbest : best_of prices initial_budgets instance student = Some [[]]).
    { apply (best_of_nothing_affordable _ _ _ student budget Hbudget).
      intros c Hc.
      destruct (combination_priced _ _ _ _ _ Hcovered Hc) as (p & Hp).
      exists p. split; [exact Hp | now apply (Hnone c)]. }
    split; [exact Hbest|].
    pose proof (student_best_bundles_total _ _ _ Hcovered) as Htotal.
    destruct (student_best_bundles prices instance initial_budgets)
      as [allocations|] eqn:E; [clear Htotal | congruence].
    exists allocations. split; [reflexivity|]. split.
    + intros a Ha.
      destruct (NoDup_dec string_dec (agents instance)) as [Hagents|Hrepeated].
      * destruct (allocation_from_candidates _ _ _ _ _ _ Hagents E Ha Hstudent)
          as (l & b & Hl & Hb & Hget).
        rewrite Hbest in Hl. injection Hl as <-.
        destruct Hb as [<-|[]]. exact Hget.
      * apply (repeated_agents_no_allocation _ _ _ _ Hrepeated) in E.
        subst allocations. destruct Ha.
    + intros Hagents Hbudgets Hempty.
      destruct (student_best_bundles_all_choices
                  prices instance initial_budgets Hcovered Hagents)
        as (entries & _ & Hall & Hproduct).
      { intros s b Hs Hb. now apply (Hbudgets s). }
      rewrite E in Hall. injection Hall as Hall. rewrite Hempty in Hall.
      apply Hproduct. destruct (product (values entries)); [reflexivity|].
      discriminate Hall.
  - intros epsilon Hnone.
    pose proof (student_best_bundle_per_budget_total _ _ epsilon _ Hcovered)
      as Htotal.
    destruct (student_best_bundle_per_budget prices instance epsilon initial_budgets)
      as [result|] eqn:E; [clear Htotal | congruence].
    exists result. split; [reflexivity|].
    unfold student_best_bundle_per_budget in E.
    apply (window_loop_keeps_empty _ _ _ _ student budget _ Hbudget) in E;
      [exact E | |].
    + intros c Hc. unfold window_combinations_sorted in Hc.
      apply (Permutation_in c (Permutation_sym (sorted_desc_perm _ _))) in Hc.
      destruct (combination_priced _ _ _ _ _ Hcovered Hc) as (p & Hp).
      exists p. split; [exact Hp | now apply (Hnone c)].
    + pose proof (get_fold_set (fun _ : string => @nil (Q * list string))
                               (agents instance) [] student) as Eg.
      apply mem_In in Hstudent. rewrite Hstudent in Eg. exact Eg.
Qed.

Lemma unaffordable_agent_is_not_an_error_witness :
  (best_of [("x", 2)] [("beni", 1)] beni_alone "beni" = Some [[]]
   /\ exists allocations,
      student_best_bundles [("x", 2)] beni_alone [("beni", 1)] = Some allocations
      /\ allocations <> []
      /\ forall a, In a allocations -> get a "beni" = Some [])
  /\ exists result,
    student_best_bundle_per_budget [("x", 2)] beni_alone (1 # 5) [("beni", 1)]
    = Some result
    /\ get result "beni" = Some [].
Proof.
  assert (Hnone : forall epsilon c p,
             epsilon <= 1 # 5 ->
             In c (combinations_courses_list beni_alone "beni") ->
             bundle_price [("x", 2)] c = Some p -> ~ p <= 1 + epsilon).
  { intros epsilon c p He [<-|[]] [= <-] Hle.
    assert (H : (0 + 2 : Q) <= 1 + (1 # 5)).
    { apply Qle_trans with (1 + epsilon); [exact Hle|].
      now apply Qplus_le_r. }
    vm_compute in H. now apply H. }
  destruct (unaffordable_agent_is_not_an_error
              [("x", 2)] [("beni", 1)] beni_alone "beni" 1) as [Hfixed Hwindow].
  - solve_covered.
  - simpl. auto.
  - reflexivity.
  - split.
    + destruct Hfixed as (Hbest & allocations & Hreturned & Hempty & Hsome).
      * intros c p Hc Hp Hle.
        apply (Hnone 0 c p); [discriminate | exact Hc | exact Hp |].
        now rewrite Qplus_0_r.
      * split; [exact Hbest|]. exists allocations.
        split; [exact Hreturned|]. split; [|exact Hempty].
        apply Hsome; [solve_nodup|].
        intros s b [<-|[]] [= <-]. discriminate.
    + apply (Hwindow (1 # 5)). intros c p Hc Hp.
      apply (Hnone (1 # 5) c p); [apply Qle_refl | exact Hc | exact Hp].
Defined.

(** C6 fails in window mode: the only course costs 2, above 1 + 1/5, and the
    dictionary returned for beni holds no bundle at all.  In fixed-budget
    mode it fails for an agent whose budget is negative: the empty bundle,
    priced 0, is not within the budget either, and no allocation is
    returned. *)
Lemma unaffordable_agent_without_empty_bundle :
  (exists result,
      student_best_bundle_per_budget [("x", 2)] beni_alone (1 # 5) [("beni", 1)]
      = Some result
      /\ (forall c p, In c (combinations_courses_list beni_alone "beni") ->
                      bundle_price [("x", 2)] c = Some p -> ~ p <= 1 + (1 # 5))
      /\ ~ holds_empty_bundle result "beni")
  /\ (student_best_bundles [("x", 2)] beni_alone [("beni", -1)] = Some []
      /\ forall c p, In c (combinations_courses_list beni_alone "beni") ->
                     bundle_price [("x", 2)] c = Some p -> ~ p <= -1).
Proof.
  split.
  - exists [("beni", [])]. split; [reflexivity|]. split.
    + intros c p [<-|[]] [= <-] H. vm_compute in H. now apply H.
    + intros (budget & []).
  - split; [reflexivity|].
    intros c p [<-|[]] [= <-] H. vm_compute in H. now apply H.
Qed.
